(** * csps_extraction: the reshape and cleaning pipeline of [utils.py]

    A shallow embedding of [src/utils.py] and the properties its
    specification states about it.

    Modelling conventions.
    - A Python [str] is a [list ascii]; a character is a code point below
      256 (the Latin-1 fragment of Unicode), on which [str.lower],
      [str.strip], [str.split] and the classes [\s], [\d] of [re] are the
      functions [lower], [isspace], [isdigit] below.
    - A table cell is a string or a missing value ([NaN]).
    - A [DataFrame] is an ordered list of named columns; the row index is
      the default range index and is left implicit.
    - DataFrames are mutable objects: the pipeline functions run in a
      state-and-exception monad over a heap of DataFrame objects. *)

From Stdlib Require Import Ascii String ZArith Lia Bool Arith.
From stdpp Require Import base option list gmap strings.

Open Scope list_scope.
Open Scope nat_scope.

(** ** Python strings *)

Abbreviation pystr := (list ascii).

Definition str (s : string) : pystr := list_ascii_of_string s.

Definition isspace (c : ascii) : bool :=
  let n := N_of_ascii c in
  (((9 <=? n) && (n <=? 13)) || ((28 <=? n) && (n <=? 32))
   || (n =? 133) || (n =? 160))%N.

Definition isdigit (c : ascii) : bool :=
  let n := N_of_ascii c in ((48 <=? n) && (n <=? 57))%N.

Definition lower (c : ascii) : ascii :=
  let n := N_of_ascii c in
  if (((65 <=? n) && (n <=? 90))
      || ((192 <=? n) && (n <=? 222) && negb (n =? 215)))%N
  then ascii_of_N (n + 32) else c.

Definition eqb_ci (a b : ascii) : bool := Ascii.eqb (lower a) (lower b).

(** [s.lower()] *)
Definition str_lower (s : pystr) : pystr := map lower s.

Fixpoint drop_while (p : ascii -> bool) (s : pystr) : pystr :=
  match s with
  | [] => []
  | c :: t => if p c then drop_while p t else s
  end.

Fixpoint take_while (p : ascii -> bool) (s : pystr) : pystr :=
  match s with
  | [] => []
  | c :: t => if p c then c :: take_while p t else []
  end.

(** [s.strip(chars)], with the set of characters as a predicate *)
Definition strip_with (p : ascii -> bool) (s : pystr) : pystr :=
  rev (drop_while p (rev (drop_while p s))).

(** [s.strip()] *)
Definition strip (s : pystr) : pystr := strip_with isspace s.

Definition mem_char (cs : pystr) (c : ascii) : bool :=
  existsb (Ascii.eqb c) cs.

(** [s.strip(cs)] *)
Definition strip_chars (cs : pystr) (s : pystr) : pystr :=
  strip_with (mem_char cs) s.

(** [s.startswith(p)] *)
Fixpoint starts_with (p s : pystr) : bool :=
  match p, s with
  | [], _ => true
  | a :: p', b :: s' => Ascii.eqb a b && starts_with p' s'
  | _ :: _, [] => false
  end.

(** [p in s] *)
Fixpoint contains (p s : pystr) : bool :=
  starts_with p s ||
  match s with
  | [] => false
  | _ :: t => contains p t
  end.

(** [sep.join(parts)] *)
Fixpoint join (sep : pystr) (parts : list pystr) : pystr :=
  match parts with
  | [] => []
  | [x] => x
  | x :: rest => x ++ sep ++ join sep rest
  end.

(** [s.split()]: the maximal runs of non-whitespace characters.  [cur] is
    the word being read, reversed. *)
Fixpoint split_ws_aux (cur : pystr) (s : pystr) : list pystr :=
  match s with
  | [] => match cur with [] => [] | _ => [rev cur] end
  | c :: t =>
      if isspace c
      then match cur with
           | [] => split_ws_aux [] t
           | _ => rev cur :: split_ws_aux [] t
           end
      else split_ws_aux (c :: cur) t
  end.

Definition split_ws (s : pystr) : list pystr := split_ws_aux [] s.

(** Python slicing [s[lo:hi]] with integer bounds: a negative bound counts
    from the end, and bounds are clamped to the string. *)
Definition slice_bound (n : Z) (x : Z) : nat :=
  Z.to_nat (if (x <? 0)%Z then Z.max 0 (x + n) else Z.min x n).

Definition py_slice (s : pystr) (lo hi : Z) : pystr :=
  let n := Z.of_nat (length s) in
  let l := slice_bound n lo in
  let h := slice_bound n hi in
  firstn (h - l) (skipn l s).

(** [s[lo:]] *)
Definition py_slice_from (s : pystr) (lo : Z) : pystr :=
  skipn (slice_bound (Z.of_nat (length s)) lo) s.

(** [s[:hi]] *)
Definition py_slice_to (s : pystr) (hi : Z) : pystr :=
  firstn (slice_bound (Z.of_nat (length s)) hi) s.

(** ** Regular expressions: the backtracking semantics of Python's [re]

    The constructors cover the syntax the source uses.  A literal
    character and a character class are both a [Class]; under
    [re.IGNORECASE] the class of a literal [c] is [eqb_ci c]. *)

Inductive regex : Type :=
| Eps
| Class (p : ascii -> bool)
| Cat (r1 r2 : regex)
| Alt (r1 r2 : regex)
| Star (greedy : bool) (r : regex)
| Group (n : nat) (r : regex)
| Bol
| Eol.

(** Captured groups, most recent first. *)
Abbreviation captures := (list (nat * pystr)).

(** A continuation receives the position after a match and the groups. *)
Abbreviation cont A := (pystr -> captures -> option A).

(** The repetition [r*] (greedy) or [r*?] (lazy) of a body [body]: at most
    [fuel] iterations, each of which must consume input. *)
Fixpoint star_loop {A : Type} (greedy : bool)
    (body : pystr -> captures -> cont A -> option A) (k : cont A)
    (fuel : nat) (suf : pystr) (caps : captures) {struct fuel} : option A :=
  match fuel with
  | O => k suf caps
  | S fuel' =>
      let again (_ : unit) :=
        body suf caps
          (fun suf' caps' =>
             if length suf' <? length suf
             then star_loop greedy body k fuel' suf' caps' else None) in
      if greedy
      then match again tt with
           | Some x => Some x
           | None => k suf caps
           end
      else match k suf caps with
           | Some x => Some x
           | None => again tt
           end
  end.

Section Exec.
Context {A : Type}.
(** The whole subject string; a position is the suffix still to read. *)
Variable subject : pystr.

(** [exec r suf caps k]: match [r] at [suf], then continue with [k];
    alternatives are tried in the order of the pattern, the first
    success wins. *)
Fixpoint exec (r : regex) (suf : pystr) (caps : captures)
    (k : cont A) {struct r} : option A :=
  match r with
  | Eps => k suf caps
  | Class p =>
      match suf with
      | c :: t => if p c then k t caps else None
      | [] => None
      end
  | Cat r1 r2 => exec r1 suf caps (fun suf' caps' => exec r2 suf' caps' k)
  | Alt r1 r2 =>
      match exec r1 suf caps k with
      | Some x => Some x
      | None => exec r2 suf caps k
      end
  | Star greedy r1 => star_loop greedy (exec r1) k (length suf) suf caps
  | Group n r1 =>
      exec r1 suf caps
        (fun suf' caps' =>
           k suf' ((n, firstn (length suf - length suf') suf) :: caps'))
  | Bol => if length suf =? length subject then k suf caps else None
  | Eol =>
      match suf with
      | [] => k suf caps
      | [c] => if Ascii.eqb c "010" then k suf caps else None
      | _ => None
      end
  end.
End Exec.

(** A match: the text after the match and the captured groups. *)
Definition re_match_at (r : regex) (subject suf : pystr)
  : option (pystr * captures) :=
  exec subject r suf [] (fun suf' caps => Some (suf', caps)).

(** [re.match(r, s)] *)
Definition re_match (r : regex) (s : pystr) : option (pystr * captures) :=
  re_match_at r s s.

(** [m.group(n)] *)
Fixpoint group (n : nat) (caps : captures) : pystr :=
  match caps with
  | [] => []
  | (m, g) :: rest => if n =? m then g else group n rest
  end.

(** [re.search(r, s)]: the leftmost match, as the text before it, the
    matched text and the text after it. *)
Fixpoint re_search_from (r : regex) (subject : pystr) (pre_rev suf : pystr)
  : option (pystr * pystr * pystr) :=
  match re_match_at r subject suf with
  | Some (suf', _) =>
      Some (rev pre_rev, firstn (length suf - length suf') suf, suf')
  | None =>
      match suf with
      | [] => None
      | c :: t => re_search_from r subject (c :: pre_rev) t
      end
  end.

Definition re_search (r : regex) (s : pystr) : option (pystr * pystr * pystr) :=
  re_search_from r s [] s.

(** [re.sub(r, "", s)]: every leftmost non-overlapping match is deleted.
    After an empty match the scan copies one character and goes on. *)
Fixpoint re_sub_from (fuel : nat) (r : regex) (subject suf : pystr) : pystr :=
  match fuel with
  | O => suf
  | S fuel' =>
      match re_match_at r subject suf with
      | Some (suf', _) =>
          if length suf' <? length suf
          then re_sub_from fuel' r subject suf'
          else match suf with
               | [] => []
               | c :: t => c :: re_sub_from fuel' r subject t
               end
      | None =>
          match suf with
          | [] => []
          | c :: t => c :: re_sub_from fuel' r subject t
          end
      end
  end.

Definition re_sub (r : regex) (s : pystr) : pystr :=
  re_sub_from (S (length s)) r s s.

(** Pattern-building helpers. *)
Definition chr (c : ascii) : regex := Class (Ascii.eqb c).
Definition chr_ci (c : ascii) : regex := Class (eqb_ci c).
Definition plus (greedy : bool) (r : regex) : regex := Cat r (Star greedy r).
Definition opt (r : regex) : regex := Alt r Eps.

(** A literal string, as [re.escape] produces it. *)
Fixpoint lit (s : pystr) : regex :=
  match s with
  | [] => Eps
  | c :: t => Cat (chr c) (lit t)
  end.

(** The same under [re.IGNORECASE]. *)
Fixpoint lit_ci (s : pystr) : regex :=
  match s with
  | [] => Eps
  | c :: t => Cat (chr_ci c) (lit_ci t)
  end.

(** [r1|r2|...|rn]; the empty alternation is the empty pattern. *)
Fixpoint alts (rs : list regex) : regex :=
  match rs with
  | [] => Eps
  | [r] => r
  | r :: rest => Alt r (alts rest)
  end.

Definition ws : regex := Class isspace.
Definition digit : regex := Class isdigit.
(** [.] without [re.DOTALL] *)
Definition dot : regex := Class (fun c => negb (Ascii.eqb c "010")).

(** [r1 r2 ... rn] *)
Fixpoint cats (rs : list regex) : regex :=
  match rs with
  | [] => Eps
  | [r] => r
  | r :: rest => Cat r (cats rest)
  end.

(** [enumerate(s)] *)
Fixpoint enumerate_from (i : Z) (s : pystr) : list (Z * ascii) :=
  match s with
  | [] => []
  | c :: t => (i, c) :: enumerate_from (i + 1) t
  end.

Definition enumerate (s : pystr) : list (Z * ascii) := enumerate_from 0 s.

(** ** [split_measure_name_column]: the per-cell function [split_row] *)

Module Measure.

(** [r"^(e\.?g\.?|for\s+example)($|[\s:,])"] under [re.IGNORECASE] *)
Definition illustrative_pattern : regex :=
  cats [ Bol;
         Group 1 (Alt (cats [chr_ci "e"; opt (chr "."); chr_ci "g"; opt (chr ".")])
                      (cats [lit_ci (str "for"); plus true ws; lit_ci (str "example")]));
         Group 2 (Alt Eol
                      (Class (fun c => isspace c || Ascii.eqb c ":" || Ascii.eqb c ","))) ].

(** [re.match(..., content, re.IGNORECASE)] as a truth value *)
Definition illustrative (content : pystr) : bool :=
  match re_match illustrative_pattern content with
  | Some _ => true
  | None => false
  end.

(** The variables of the scanning loop. *)
Record scan : Type := mkScan {
  depth : Z;
  start_pos : option Z;
  parentheticals : list (Z * Z * pystr)
}.

(** One iteration of [for i, char in enumerate(value)]. *)
Definition scan_step (value : pystr) (st : scan) (ic : Z * ascii) : scan :=
  let '(i, char) := ic in
  if Ascii.eqb char "(" then
    mkScan (depth st + 1)
           (if (depth st =? 0)%Z then Some i else start_pos st)
           (parentheticals st)
  else if Ascii.eqb char ")" then
    let depth' := (depth st - 1)%Z in
    match start_pos st with
    | Some sp =>
        if (depth' =? 0)%Z then
          let content := strip (py_slice value (sp + 1) i) in
          mkScan depth' None
                 (if negb (illustrative content)
                  then parentheticals st ++ [(sp, (i + 1)%Z, content)]
                  else parentheticals st)
        else mkScan depth' (Some sp) (parentheticals st)
    | None => mkScan depth' None (parentheticals st)
    end
  else st.

Definition find_parentheticals (value : pystr) : list (Z * Z * pystr) :=
  parentheticals
    (fold_left (scan_step value) (enumerate value) (mkScan 0 None [])).

(** The variables of the removal loop. *)
Record removal : Type := mkRemoval {
  definitions : list pystr;
  cleaned : pystr;
  offset : Z
}.

(** One iteration of [for start, end, content in parentheticals]. *)
Definition remove_step (st : removal) (p : Z * Z * pystr) : removal :=
  let '(start, end_, content) := p in
  let adjusted_start := (start - offset st)%Z in
  let adjusted_end := (end_ - offset st)%Z in
  mkRemoval (definitions st ++ [content])
            (py_slice_to (cleaned st) adjusted_start
             ++ py_slice_from (cleaned st) adjusted_end)
            (offset st + (end_ - start)).

(** [split_row(value)] for a cell that is a string: the pair
    (Measure name, Definition). *)
Definition split_row (value : pystr) : pystr * pystr :=
  let st := fold_left remove_step (find_parentheticals value)
                      (mkRemoval [] value 0) in
  (strip (cleaned st), join (str "; ") (definitions st)).

End Measure.

(** ** The Measure Annotation Parser as the specification words it *)

Inductive piece : Type :=
| Text (c : ascii)
| Span (inner : pystr).

Fixpoint pieces (d : Z) (open : option pystr) (s : pystr) : list piece :=
  match s with
  | [] =>
      match open with
      | None => []
      | Some body => Text "("%char :: map Text (rev body)
      end
  | c :: t =>
      match open with
      | None =>
          if Ascii.eqb c "(" then
            if (d =? 0)%Z then pieces 1 (Some []) t
            else Text c :: pieces (d + 1) None t
          else if Ascii.eqb c ")" then Text c :: pieces (d - 1) None t
          else Text c :: pieces d None t
      | Some body =>
          if Ascii.eqb c "(" then pieces (d + 1) (Some (c :: body)) t
          else if Ascii.eqb c ")" then
            if (d - 1 =? 0)%Z then Span (rev body) :: pieces 0 None t
            else pieces (d - 1) (Some (c :: body)) t
          else pieces d (Some (c :: body)) t
      end
  end.

Section Pieces.
Variable marker : pystr -> bool.

Definition kept_text (p : piece) : pystr :=
  match p with
  | Text c => [c]
  | Span inner =>
      if marker (strip inner) then "("%char :: inner ++ [")"%char] else []
  end.

Definition collected (p : piece) : list pystr :=
  match p with
  | Text _ => []
  | Span inner => if marker (strip inner) then [] else [strip inner]
  end.

Definition render (p : piece) : pystr :=
  match p with
  | Text c => [c]
  | Span inner => "("%char :: inner ++ [")"%char]
  end.

Fixpoint spans_of (i : Z) (ps : list piece) : list (Z * Z * pystr) :=
  match ps with
  | [] => []
  | p :: rest =>
      let j := (i + Z.of_nat (length (render p)))%Z in
      match p with
      | Text _ => spans_of j rest
      | Span inner =>
          (if marker (strip inner) then [] else [(i, j, strip inner)])
          ++ spans_of j rest
      end
  end.
End Pieces.


(** ** Closed forms used to reason about patterns *)

Definition succeeds {A : Type} (o : option A) : bool :=
  match o with Some _ => true | None => false end.

(** [s.lower().startswith(p.lower())] *)
Fixpoint starts_with_ci (p s : pystr) : bool :=
  match p, s with
  | [], _ => true
  | a :: p', b :: s' => eqb_ci a b && starts_with_ci p' s'
  | _ :: _, [] => false
  end.

(** What may follow an illustrative marker: the end of the content,
    whitespace, a colon or a comma. *)
Definition marker_boundary (rest : pystr) : bool :=
  match rest with
  | [] => true
  | c :: _ => isspace c || Ascii.eqb c ":" || Ascii.eqb c ","
  end.

(** An optional period. *)
Definition skip_period (s : pystr) : pystr :=
  match s with
  | c :: t => if Ascii.eqb c "." then t else s
  | [] => []
  end.

(** [e.g.], [e.g], [eg.] or [eg], in any case, then a boundary. *)
Definition begins_with_eg (content : pystr) : bool :=
  starts_with_ci (str "e") content
  && (let r := skip_period (skipn 1 content) in
      starts_with_ci (str "g") r && marker_boundary (skip_period (skipn 1 r))).

(** [for], a run of whitespace, [example], in any case, then a boundary. *)
Definition begins_with_for_example (content : pystr) : bool :=
  starts_with_ci (str "for") content
  && (let r := skipn 3 content in
      negb (length (take_while isspace r) =? 0)
      && starts_with_ci (str "example") (drop_while isspace r)
      && marker_boundary (skipn 7 (drop_while isspace r))).

Definition begins_with_marker (content : pystr) : bool :=
  begins_with_eg content || begins_with_for_example content.

(** The repetitions of a character class, in closed form. *)
Fixpoint greedy_class {A : Type} (p : ascii -> bool) (k : cont A)
    (suf : pystr) (caps : captures) : option A :=
  match suf with
  | c :: t =>
      if p c
      then match greedy_class p k t caps with
           | Some x => Some x
           | None => k suf caps
           end
      else k suf caps
  | [] => k [] caps
  end.

Fixpoint lazy_class {A : Type} (p : ascii -> bool) (k : cont A)
    (suf : pystr) (caps : captures) : option A :=
  match k suf caps with
  | Some x => Some x
  | None =>
      match suf with
      | c :: t => if p c then lazy_class p k t caps else None
      | [] => None
      end
  end.

(** The Measure Annotation Parser: the label keeps the text outside the
    extracted spans, the definition joins the extracted contents. *)
Definition measure_annotation (value : pystr) : pystr * pystr :=
  let ps := pieces 0 None value in
  (strip (flat_map (kept_text begins_with_marker) ps),
   join (str "; ") (flat_map (collected begins_with_marker) ps)).

(** No opening parenthesis inside an open parenthesis; [open] tells whether
    a parenthesis is open. *)
Fixpoint flat_parens (open : bool) (s : pystr) : bool :=
  match s with
  | [] => true
  | c :: t =>
      if Ascii.eqb c "(" then negb open && flat_parens true t
      else if Ascii.eqb c ")" then flat_parens false t
      else flat_parens open t
  end.

Definition has_char (c : ascii) (s : pystr) : bool := existsb (Ascii.eqb c) s.

(** The scanning loop after the prefix [pre], against the scanner of the
    specification in depth [d] with the span [open]. *)
Definition scan_inv (pre : pystr) (st : Measure.scan) (d : Z)
    (open : option pystr) : Prop :=
  Measure.depth st = d /\
  match open with
  | None => Measure.start_pos st = None
  | Some body =>
      exists pre0, pre = pre0 ++ "("%char :: rev body
                   /\ Measure.start_pos st = Some (Z.of_nat (length pre0))
                   /\ (1 <= d)%Z
  end.

Definition span_origin (pre : pystr) (open : option pystr) : Z :=
  match open with
  | None => Z.of_nat (length pre)
  | Some body => Z.of_nat (length pre) - Z.of_nat (length body) - 1
  end.


(** ** Tables *)

(** A cell: a string, or the missing value. *)
Inductive cell : Type :=
| Str (s : pystr)
| NaN.

(** [str(value)] *)
Definition cell_str (c : cell) : pystr :=
  match c with
  | Str s => s
  | NaN => str "nan"
  end.

(** A [Series] is the list of its cells; a [DataFrame] is the ordered list
    of its labelled columns. *)
Abbreviation series := (list cell).
Abbreviation DataFrame := (list (pystr * series)).

Fixpoint eqb_str (a b : pystr) : bool :=
  match a, b with
  | [], [] => true
  | x :: a', y :: b' => Ascii.eqb x y && eqb_str a' b'
  | _, _ => false
  end.

(** [df.columns] *)
Definition columns (df : DataFrame) : list pystr := map fst df.

(** [name in names] *)
Definition mem_str (name : pystr) (names : list pystr) : bool :=
  existsb (eqb_str name) names.

(** [len(df)], the number of rows *)
Definition nrows (df : DataFrame) : nat :=
  match df with
  | [] => 0
  | (_, c) :: _ => length c
  end.

(** [df.columns = names] *)
Definition set_columns (names : list pystr) (df : DataFrame) : DataFrame :=
  combine names (map snd df).

(** [df.columns.get_loc(name)] for a label that occurs once *)
Fixpoint get_loc (name : pystr) (df : DataFrame) : nat :=
  match df with
  | [] => 0
  | (n, _) :: rest => if eqb_str name n then 0 else S (get_loc name rest)
  end.

Definition labelled (name : pystr) (df : DataFrame) : DataFrame :=
  List.filter (fun c => eqb_str name (fst c)) df.

Definition insert_at {A : Type} (i : nat) (x : A) (l : list A) : list A :=
  firstn i l ++ x :: skipn i l.

(** [df.drop(columns=[name])] on the value of the table *)
Definition without (name : pystr) (df : DataFrame) : DataFrame :=
  List.filter (fun c => negb (eqb_str name (fst c))) df.

(** [df[name] = col] for a label that is present *)
Definition assign (name : pystr) (col : series) (df : DataFrame) : DataFrame :=
  map (fun c => if eqb_str name (fst c) then (fst c, col) else c) df.

(** [s.where(cond, other)] with a Series [other] *)
Fixpoint where_series (s : series) (cond : list bool) (other : series) : series :=
  match s, cond, other with
  | x :: s', b :: cond', y :: other' =>
      (if b then x else y) :: where_series s' cond' other'
  | _, _, _ => []
  end.

(** [s.where(cond, other)] with a scalar [other] *)
Definition where_scalar (s : series) (cond : list bool) (other : cell) : series :=
  where_series s cond (map (fun _ => other) s).

(** ** Exceptions, and the heap of DataFrame objects *)

Inductive exn : Type :=
| ValueError (msg : pystr)
| KeyError (msg : pystr)
| AttributeError (msg : pystr)
| TypeError (msg : pystr).

Inductive outcome (A : Type) : Type :=
| Ok (a : A)
| Raise (e : exn).
Arguments Ok {A} a.
Arguments Raise {A} e.

(** A reference to a DataFrame object. *)
Abbreviation loc := nat.
Abbreviation heap := (list DataFrame).

(** A computation reads and updates the heap and returns or raises; the
    updates made before an exception stay. *)
Definition M (A : Type) : Type := heap -> outcome A * heap.

Definition ret {A : Type} (a : A) : M A := fun h => (Ok a, h).

Definition raise {A : Type} (e : exn) : M A := fun h => (Raise e, h).

Definition bind {A B : Type} (m : M A) (f : A -> M B) : M B :=
  fun h =>
    match m h with
    | (Ok a, h') => f a h'
    | (Raise e, h') => (Raise e, h')
    end.

Notation "'do' x <- m ; f" := (bind m (fun x => f))
  (at level 10, x name, m at level 100, f at level 200).
Notation "'run' m ; f" := (bind m (fun _ => f))
  (at level 10, m at level 100, f at level 200).

Definition lift {A : Type} (o : outcome A) : M A := fun h => (o, h).

(** The object behind a reference.  A reference to no object does not
    arise in Python; it reads as the empty table. *)
Definition load (l : loc) : M DataFrame :=
  fun h => (Ok (default [] (h !! l)), h).

(** In-place update of the object behind a reference. *)
Definition store (l : loc) (df : DataFrame) : M unit :=
  fun h => (Ok tt, <[l := df]> h).

(** A new object. *)
Definition alloc (df : DataFrame) : M loc :=
  fun h => (Ok (length h), h ++ [df]).

(** [df[name]]: the column with that label.  A label that occurs several
    times selects a DataFrame, which the source then uses as a Series. *)
Definition getitem (df : DataFrame) (name : pystr) : outcome series :=
  match labelled name df with
  | [] => Raise (KeyError name)
  | [(_, col)] => Ok col
  | _ => Raise (TypeError (str "a DataFrame where a Series is expected"))
  end.

(** [df.insert(i, name, col)], in place *)
Definition insert (l : loc) (i : nat) (name : pystr) (col : series) : M unit :=
  do d <- load l;
  if mem_str name (columns d)
  then raise (ValueError (str "cannot insert " ++ name ++ str ", already exists"))
  else store l (insert_at i (name, col) d).

(** [df.drop(columns=[name])]: a new object *)
Definition drop_column (l : loc) (name : pystr) : M loc :=
  do d <- load l;
  if mem_str name (columns d)
  then alloc (without name d)
  else raise (KeyError name).

(** ** The pipeline of [utils.py] *)

Definition strip_column_names (df : loc) : M loc :=
  do d <- load df;
  run store df (set_columns (map strip (columns d)) d);
  ret df.

(** [df_notes[note_number_column].dropna().astype(str).tolist()] *)
Definition dropna_str (col : series) : list pystr :=
  flat_map (fun c => match c with Str s => [s] | NaN => [] end) col.

Definition lbracket : regex := chr "[".
Definition rbracket : regex := chr "]".

(** The two patterns of one note: [\[{note}\]] and [\[note\s*{note}\]],
    under [re.IGNORECASE] *)
Definition note_patterns (note : pystr) : list regex :=
  [ cats [lbracket; lit_ci note; rbracket];
    cats [lbracket; lit_ci (str "note"); Star true ws; lit_ci note; rbracket] ].

(** [[\d\s,and]] under [re.IGNORECASE] *)
Definition composite_class (c : ascii) : bool :=
  isdigit c || isspace c || Ascii.eqb c ","
  || eqb_ci "a" c || eqb_ci "n" c || eqb_ci "d" c.

(** [\[notes?\s+[\d\s,and]+\]] under [re.IGNORECASE] *)
Definition composite_note_pattern : regex :=
  cats [lbracket; lit_ci (str "note"); opt (chr_ci "s"); plus true ws;
        plus true (Class composite_class); rbracket].

(** [\[[\d\s,]+\]] *)
Definition number_list_pattern : regex :=
  cats [lbracket;
        plus true (Class (fun c => isdigit c || isspace c || Ascii.eqb c ","));
        rbracket].

Definition combined_pattern (note_numbers : list pystr) : regex :=
  alts (flat_map note_patterns note_numbers
        ++ [composite_note_pattern; number_list_pattern]).

Definition missing_column (name where_ : pystr) : exn :=
  ValueError (str "The specified column '" ++ name
              ++ str "' is missing from " ++ where_ ++ str ".").

Definition remove_column_name_note_numbers (df_data df_notes : loc)
    (note_number_column : pystr) : M loc :=
  do notes <- load df_notes;
  if negb (mem_str note_number_column (columns notes))
  then raise (missing_column note_number_column (str "df_notes"))
  else
    do col <- lift (getitem notes note_number_column);
    let note_numbers := dropna_str col in
    let pattern := combined_pattern note_numbers in
    do d <- load df_data;
    let new_columns := map (re_sub pattern) (columns d) in
    run store df_data (set_columns new_columns d);
    strip_column_names df_data.

(** [delimiters: str | list[str]] *)
Inductive delimiters : Type :=
| One (d : pystr)
| Many (ds : list pystr).

Definition delimiter_list (d : delimiters) : list pystr :=
  match d with
  | One x => [x]
  | Many l => l
  end.

(** ["|".join(re.escape(d) for d in delimiters)] *)
Definition delimiter_pattern (ds : list pystr) : regex := alts (map lit ds).

(** [pattern.split(x, maxsplit=1)] on one cell; a missing cell stays
    missing. *)
Definition split_once (pattern : regex) (c : cell) : option (list pystr) :=
  match c with
  | Str s =>
      match re_search pattern s with
      | Some (before, _, after) => Some [before; after]
      | None => Some [s]
      end
  | NaN => None
  end.

(** The number of columns of [str.split(..., expand=True)] *)
Definition expand_width (parts : list (option (list pystr))) : nat :=
  fold_right Nat.max 0
    (map (fun p => match p with Some l => length l | None => 1 end) parts).

(** Column [i] of the expanded split *)
Definition expand_column (i : nat) (parts : list (option (list pystr))) : series :=
  map (fun p => match p with
                | Some l => match l !! i with Some s => Str s | None => NaN end
                | None => NaN
                end) parts.

(** [col.str.strip()] *)
Definition str_strip (col : series) : series :=
  map (fun c => match c with Str s => Str (strip s) | NaN => NaN end) col.

Definition split_column_on_delimiter (df : loc)
    (input_column output_column1 output_column2 : pystr)
    (delims : delimiters) : M loc :=
  do d <- load df;
  if negb (mem_str input_column (columns d))
  then raise (missing_column input_column (str "the DataFrame"))
  else
    let pattern := delimiter_pattern (delimiter_list delims) in
    do col <- lift (getitem d input_column);
    let has_delim := map (fun c => succeeds (re_search pattern (cell_str c))) col in
    let split_columns := map (split_once pattern) col in
    let col_idx := get_loc input_column d in
    do new_col1 <-
      (if expand_width split_columns =? 0
       then raise (KeyError (str "0"))
       else ret (str_strip (expand_column 0 split_columns)));
    let new_col2 :=
      if 1 <? expand_width split_columns
      then Some (str_strip (expand_column 1 split_columns))
      else None in
    let new_col1 := where_scalar new_col1 has_delim (Str []) in
    do new_col2 <-
      match new_col2 with
      | Some s => ret (where_series s has_delim col)
      | None => raise (AttributeError (str "'str' object has no attribute 'where'"))
      end;
    run insert df col_idx output_column1 new_col1;
    run insert df (col_idx + 1) output_column2 new_col2;
    drop_column df input_column.

Module Demographic.

(** [r"^(.+?)\s*\((.*?)\)\s*$"] *)
Definition annotation_pattern : regex :=
  cats [ Bol; Group 1 (plus false dot); Star true ws; chr "(";
         Group 2 (Star false dot); chr ")"; Star true ws; Eol ].

(** [r"(?i)derived from"] *)
Definition derived_from_pattern : regex := lit_ci (str "derived from").

(** [split_row(value)]: the pair (Demographic variable name, Derived from) *)
Definition split_row (value : cell) : pystr * pystr :=
  let value := cell_str value in
  match re_match annotation_pattern value with
  | None => (strip value, [])
  | Some (_, caps) =>
      let main := strip (group 1 caps) in
      let inside := strip (group 2 caps) in
      if contains (str "derived from") (str_lower inside)
      then (main, strip_chars (str " :,-") (re_sub derived_from_pattern inside))
      else (strip value, [])
  end.

End Demographic.

(** The DataFrame that [col.apply(split_row)] builds, as its two columns;
    on an empty Series [apply] gives an empty Series, which has neither. *)
Definition apply_split_row (f : cell -> pystr * pystr) (col : series)
  : outcome (series * series) :=
  match col with
  | [] => Raise (KeyError (str "column of the result of apply"))
  | _ => Ok (map (fun c => Str (fst (f c))) col, map (fun c => Str (snd (f c))) col)
  end.

Definition split_demographic_variable_name_column (df : loc)
    (input_column : pystr) : M loc :=
  do d <- load df;
  if negb (mem_str input_column (columns d))
  then raise (missing_column input_column (str "the DataFrame"))
  else
    do col <- lift (getitem d input_column);
    let split_df := apply_split_row Demographic.split_row col in
    let col_idx := get_loc input_column d in
    do df <- drop_column df input_column;
    do cols <- lift split_df;
    run insert df col_idx (str "Demographic variable name") (fst cols);
    run insert df (col_idx + 1) (str "Derived from") (snd cols);
    ret df.

Definition split_measure_name_column (df : loc) (input_column : pystr) : M loc :=
  do d <- load df;
  do col <- lift (getitem d input_column);
  let split_df := apply_split_row (fun c => Measure.split_row (cell_str c)) col in
  let col_idx := get_loc input_column d in
  do df <- drop_column df input_column;
  do cols <- lift split_df;
  run insert df col_idx (str "Measure name") (fst cols);
  run insert df (col_idx + 1) (str "Definition") (snd cols);
  ret df.

(** [algos.unique]: the labels in the order of their first occurrence. *)
Fixpoint unique_from (seen l : list pystr) : list pystr :=
  match l with
  | [] => []
  | x :: t => if mem_str x seen then unique_from seen t
              else x :: unique_from (x :: seen) t
  end.

Definition unique (l : list pystr) : list pystr := unique_from [] l.

(** [pd.melt(frame, id_vars, value_vars, var_name, value_name)], for
    distinct identifier labels that the frame has and value labels that
    are no identifier labels, as in the one call.  The frame is reduced to
    the columns at [unique(get_indexer_for(id_vars + value_vars))], so that
    a value label that the frame has more than once selects each of its
    columns once.  [frame.pop] of an identifier label that the frame has
    more than once gives a frame, not a column, and its [dtype] is asked
    for, which raises.  Otherwise the identifier columns are tiled once per
    value column, the value columns are laid end to end, and the label of
    each value column is repeated once per row. *)
Definition melt (frame : DataFrame) (id_vars value_vars : list pystr)
    (var_name value_name : pystr) : outcome DataFrame :=
  if mem_str value_name (columns frame)
  then Raise (ValueError (str "value_name (" ++ value_name
                          ++ str ") cannot match an element in the DataFrame columns."))
  else if existsb (fun i => 1 <? length (labelled i frame)) id_vars
  then Raise (AttributeError (str "'DataFrame' object has no attribute 'dtype'"))
  else
    let value_columns := flat_map (fun v => labelled v frame) (unique value_vars) in
    let k := length value_columns in
    let n := nrows frame in
    Ok (flat_map (fun i => map (fun c => (fst c, concat (repeat (snd c) k)))
                               (labelled i frame)) id_vars
        ++ [ (var_name, flat_map (fun c => repeat (Str (fst c)) n) value_columns);
             (value_name, flat_map snd value_columns) ]).

Definition identifier_columns : list pystr :=
  [ str "Demographic variable code"; str "Demographic variable name";
    str "Derived from"; str "Response"; str "Notes" ].

Definition unpivot_dataframe (df : loc) : M loc :=
  do d <- load df;
  let keep_columns := List.filter (fun c => mem_str c (columns d)) identifier_columns in
  let unpivot_columns :=
    List.filter (fun c => negb (mem_str c keep_columns)) (columns d) in
  do df_unpivoted <-
    lift (melt d keep_columns unpivot_columns (str "Measure") (str "Value"));
  alloc df_unpivoted.

(** [transform_response(val)] *)
Definition transform_response (val : cell) : cell :=
  match split_ws (cell_str val) with
  | [] => val
  | first :: rest =>
      Str (first ++ match rest with
                    | [] => []
                    | _ => " "%char :: join (str " ") (map str_lower rest)
                    end)
  end.

Definition lowercase_response_except_first_word (df : loc)
    (demographic_variable_name : pystr) : M loc :=
  do d <- load df;
  do names <- lift (getitem d (str "Demographic variable name"));
  let mask := map (fun c => match c with
                            | Str s => eqb_str s demographic_variable_name
                            | NaN => false
                            end) names in
  do response <- lift (getitem d (str "Response"));
  run store df (assign (str "Response")
                  (where_series (map transform_response response) mask response) d);
  ret df.

Definition reshape_data (df_data df_notes : loc) (delims : delimiters) : M loc :=
  do df_data <- strip_column_names df_data;
  do df_notes <- strip_column_names df_notes;
  do df_data <- remove_column_name_note_numbers df_data df_notes (str "Note number");
  do df_data <- split_column_on_delimiter df_data (str "Demographic variable")
                  (str "Demographic variable code") (str "Demographic variable name")
                  delims;
  do df_data <- split_demographic_variable_name_column df_data
                  (str "Demographic variable name");
  do df_data <- unpivot_dataframe df_data;
  do df_data <- split_column_on_delimiter df_data (str "Measure")
                  (str "Measure code") (str "Measure name") delims;
  do df_data <- split_measure_name_column df_data (str "Measure name");
  ret df_data.

(** [r"\s*\(England\)$"] *)
Definition england_pattern : regex :=
  cats [Star true ws; lit (str "(England)"); Eol].

(** [col.replace(mapping)] on one cell *)
Definition replace_cell (mapping : gmap pystr pystr) (c : cell) : cell :=
  match c with
  | Str s => match mapping !! s with Some r => Str r | None => c end
  | NaN => NaN
  end.

(** [col.str.replace(pattern, "", regex=True)] on one cell *)
Definition str_replace_cell (pattern : regex) (c : cell) : cell :=
  match c with
  | Str s => Str (re_sub pattern s)
  | NaN => NaN
  end.

(** The truth value of [grade_replacements] in [if grade_replacements:] *)
Definition nonempty_mapping (m : option (gmap pystr pystr)) : option (gmap pystr pystr) :=
  match m with
  | Some m' => if decide (m' = ∅) then None else Some m'
  | None => None
  end.

(** The truth value of [lowercase_demographic] in [if lowercase_demographic:] *)
Definition nonempty_str (s : option pystr) : option pystr :=
  match s with
  | Some [] => None
  | other => other
  end.

Definition clean_data (df : loc) (grade_replacements : option (gmap pystr pystr))
    (lowercase_demographic : option pystr) : M loc :=
  run (match nonempty_mapping grade_replacements with
       | Some mapping =>
           do d <- load df;
           do response <- lift (getitem d (str "Response"));
           store df (assign (str "Response") (map (replace_cell mapping) response) d)
       | None => ret tt
       end);
  do d <- load df;
  do response <- lift (getitem d (str "Response"));
  run store df (assign (str "Response")
                  (map (str_replace_cell england_pattern) response) d);
  match nonempty_str lowercase_demographic with
  | Some name => lowercase_response_except_first_word df name
  | None => ret df
  end.

(** ** Framing: what a computation leaves alone

    [frames P l m]: running [m] keeps the object behind [l], never shrinks
    the heap, and returns a value that satisfies [P]. *)
Definition frames {A : Type} (P : A -> Prop) (l : loc) (m : M A) : Prop :=
  forall h, l < length h ->
    h !! l = snd (m h) !! l
    /\ length h <= length (snd (m h))
    /\ match fst (m h) with
       | Ok a => P a
       | Raise _ => True
       end.

(** A reference other than [l]. *)
Definition other_than (l : loc) (l' : loc) : Prop := l' <> l.
Definition anything {A : Type} (_ : A) : Prop := True.

(** ** Small tables used as concrete inputs *)

Definition example_data : DataFrame :=
  [ (str "Demographic variable", [Str (str "A1. Age"); Str (str "A2. Sex")]);
    (str "Response", [Str (str "16-24"); Str (str "Male")]);
    (str "B1. Score [1]", [Str (str "1"); Str (str "2")]);
    (str "B2. Rate (base: all) [note 2]", [Str (str "3"); NaN]) ].

Definition example_notes : DataFrame :=
  [ (str " Note number", [Str (str "1"); Str (str "2")]);
    (str "Note text", [Str (str "first"); Str (str "second")]) ].

Definition example_heap : heap := [example_data; example_notes].

(** ** Rows of a table *)

(** Every column has as many cells as the table has rows. *)
Definition well_formed (df : DataFrame) : Prop :=
  Forall (fun c => length (snd c) = nrows df) df.

(** Row [i] of a list of columns. *)
Definition row_of (cols : list series) (i : nat) : list cell :=
  map (fun c => nth i c NaN) cols.

(** The first [n] rows of a list of columns, in row order. *)
Definition rows_of (n : nat) (cols : list series) : list (list cell) :=
  map (row_of cols) (seq 0 n).

(** The columns with the given labels, in the order of the labels. *)
Definition select (names : list pystr) (df : DataFrame) : list series :=
  flat_map (fun i => map snd (labelled i df)) names.

(** The identifier columns that [unpivot_dataframe] keeps, and the measure
    columns it unpivots. *)
Definition keep_columns (df : DataFrame) : list pystr :=
  List.filter (fun c => mem_str c (columns df)) identifier_columns.

Definition measure_columns (df : DataFrame) : DataFrame :=
  List.filter (fun c => negb (mem_str (fst c) (keep_columns df))) df.

(** The long record of row [i] and measure column [m]: the identifier
    values of the row, the label of the measure column, the cell. *)
Definition long_record (df : DataFrame) (m : pystr * series) (i : nat) : list cell :=
  row_of (select (keep_columns df) df) i ++ [Str (fst m); nth i (snd m) NaN].

(** The long records grouped by measure column, then by row. *)
Definition records_by_measure (df : DataFrame) : list (list cell) :=
  flat_map (fun m => map (long_record df m) (seq 0 (nrows df))) (measure_columns df).

(** The long records grouped by row, then by measure column. *)
Definition records_by_row (df : DataFrame) : list (list cell) :=
  flat_map (fun i => map (fun m => long_record df m i) (measure_columns df))
           (seq 0 (nrows df)).

(** The table that [unpivot_dataframe] builds. *)
Definition unpivoted (df : DataFrame) : outcome DataFrame :=
  melt df (keep_columns df)
       (List.filter (fun c => negb (mem_str c (keep_columns df))) (columns df))
       (str "Measure") (str "Value").

Definition example_wide : DataFrame :=
  [ (str "Response", [Str (str "Yes"); Str (str "No")]);
    (str "M1", [Str (str "1"); Str (str "2")]);
    (str "M2", [Str (str "3"); Str (str "4")]) ].

(** ** The Delimiter Splitter as the specification words it *)

(** The first occurrence of a delimiter in [s]: the leftmost position at
    which a delimiter starts and, there, the first delimiter of the list
    that does.  The result is the text before, the delimiter, the text
    after; [pre_rev] is the text already passed, reversed. *)
Fixpoint first_occurrence (ds : list pystr) (pre_rev s : pystr)
  : option (pystr * pystr * pystr) :=
  match find (fun d => starts_with d s) ds with
  | Some d => Some (rev pre_rev, d, skipn (length d) s)
  | None =>
      match s with
      | [] => None
      | c :: t => first_occurrence ds (c :: pre_rev) t
      end
  end.

(** The two outputs for one cell. *)
Definition split_cell (ds : list pystr) (c : cell) : cell * cell :=
  match first_occurrence ds [] (cell_str c) with
  | Some (before, _, after) =>
      match c with
      | Str _ => (Str (strip before), Str (strip after))
      | NaN => (NaN, NaN)
      end
  | None => (Str [], c)
  end.

(** A string cell of the column contains a delimiter. *)
Definition some_cell_splits (ds : list pystr) (col : series) : Prop :=
  exists s, In (Str s) col /\ first_occurrence ds [] s <> None.

(** The table with the column [name] replaced, where it stands, by the
    columns [new]. *)
Definition replace_column (name : pystr) (new : DataFrame) (df : DataFrame) : DataFrame :=
  flat_map (fun c => if eqb_str name (fst c) then new else [c]) df.

(** The table with the columns [new] put in front of the column [name]. *)
Definition insert_before (name : pystr) (new : DataFrame) (df : DataFrame) : DataFrame :=
  flat_map (fun c => if eqb_str name (fst c) then new ++ [c] else [c]) df.

(** The column labelled [name], when there is one. *)
Definition column (name : pystr) (df : DataFrame) : series :=
  match labelled name df with
  | (_, col) :: _ => col
  | [] => []
  end.

Definition example_composite : DataFrame :=
  [ (str "Measure", [Str (str "B1. Score"); Str (str "B2")]);
    (str "Value", [Str (str "1"); NaN]) ].

(** ** The Variable Annotation Parser as the specification words it *)

Definition is_newline (c : ascii) : bool := Ascii.eqb c "010".

(** [s] is a closing parenthesis followed by whitespace only. *)
Definition closes (s : pystr) : bool :=
  match s with
  | c :: r => Ascii.eqb c ")" && forallb isspace r
  | [] => false
  end.

(** The shortest parenthetical content: the text, without line break, up
    to a closing parenthesis that ends the label.  [content] is the text
    already passed. *)
Fixpoint shortest_content (content s : pystr) : option pystr :=
  if closes s then Some content
  else match s with
       | c :: t => if is_newline c then None
                   else shortest_content (content ++ [c]) t
       | [] => None
       end.

(** Optional whitespace, an opening parenthesis and a parenthetical that
    ends the label. *)
Definition parenthetical_at (s : pystr) : option pystr :=
  match drop_while isspace s with
  | c :: s' => if Ascii.eqb c "(" then shortest_content [] s' else None
  | [] => None
  end.

(** The shortest main text: the text, without line break, in front of a
    parenthetical that ends the label.  [main] is the text already
    passed. *)
Fixpoint shortest_main (main s : pystr) : option (pystr * pystr) :=
  match parenthetical_at s with
  | Some content => Some (main, content)
  | None =>
      match s with
      | c :: t => if is_newline c then None
                  else shortest_main (main ++ [c]) t
      | [] => None
      end
  end.

(** The label as [<main text> (<parenthetical>)]: the main text and the
    parenthetical content. *)
Definition parse_annotation (value : pystr) : option (pystr * pystr) :=
  match value with
  | c :: t => if is_newline c then None else shortest_main [c] t
  | [] => None
  end.

(** [s] with every occurrence of the phrase [p], in any case, removed,
    from left to right. *)
Fixpoint remove_phrase_from (fuel : nat) (p s : pystr) : pystr :=
  match fuel with
  | O => s
  | S fuel' =>
      if starts_with_ci p s
      then remove_phrase_from fuel' p (skipn (length p) s)
      else match s with
           | [] => []
           | c :: t => c :: remove_phrase_from fuel' p t
           end
  end.

Definition remove_phrase (p s : pystr) : pystr :=
  remove_phrase_from (S (length s)) p s.

(** The Variable Annotation Parser: the pair (label, provenance). *)
Definition variable_annotation (value : pystr) : pystr * pystr :=
  match parse_annotation value with
  | None => (strip value, [])
  | Some (main, content) =>
      if contains (str "derived from") (str_lower (strip content))
      then (strip main,
            strip_chars (str " :,-") (remove_phrase (str "derived from") (strip content)))
      else (strip value, [])
  end.

(** A text without line break. *)
Definition single_line (s : pystr) : Prop :=
  forallb (fun c => negb (is_newline c)) s = true.

Definition blank (s : pystr) : Prop := forallb isspace s = true.

(** [value] reads [<main text> (<parenthetical>)]: a non-empty main text,
    optional whitespace, the parenthetical content in parentheses and
    optional trailing whitespace; no line break in the main text or in
    the content. *)
Definition annotated (value main content : pystr) : Prop :=
  exists w1 w2,
    value = main ++ w1 ++ "("%char :: content ++ ")"%char :: w2
    /\ main <> [] /\ single_line main /\ single_line content
    /\ blank w1 /\ blank w2.

Definition example_two_lines : pystr :=
  str "Age" ++ ["010"%char] ++ str "group (derived from: DOB)".

(** ** The Value Cleaner as the specification words it *)

Definition england : pystr := str "(England)".

(** [s] is optional whitespace and the suffix "(England)", at the end of
    the value or in front of its one final line break; the result is what
    follows the suffix. *)
Definition england_tail (s : pystr) : option pystr :=
  let r := drop_while isspace s in
  if starts_with england r
  then match skipn (length england) r with
       | [] => Some []
       | [c] => if is_newline c then Some [c] else None
       | _ => None
       end
  else None.

(** The value without its trailing suffix "(England)" and the whitespace
    in front of it. *)
Fixpoint remove_england (s : pystr) : pystr :=
  match england_tail s with
  | Some r => r
  | None =>
      match s with
      | c :: t => c :: remove_england t
      | [] => []
      end
  end.

(** No whitespace at the end of [s]. *)
Definition ends_without_whitespace (s : pystr) : Prop :=
  forall p q, s = p ++ q -> q <> [] -> forallb isspace q = false.

(** [x] is a suffix of [s]. *)
Definition ends_with (x s : pystr) : Prop := exists p, s = p ++ x.

(** The first word of the text of the value as it is, the other words in
    lower case, single spaces between them; a value whose text has no words
    stays.  The text of a missing value is "nan". *)
Definition recase (val : cell) : cell :=
  match split_ws (cell_str val) with
  | [] => val
  | first :: rest => Str (join (str " ") (first :: map str_lower rest))
  end.

(** The three steps on the Response of one row. *)
Definition clean_response (mapping : option (gmap pystr pystr))
    (target : option pystr) (name response : cell) : cell :=
  let replaced := match response with
                  | Str s => Str (default s (default ∅ mapping !! s))
                  | NaN => NaN
                  end in
  let stripped := match replaced with
                  | Str s => Str (remove_england s)
                  | NaN => NaN
                  end in
  match target with
  | Some (c :: t) =>
      match name with
      | Str n => if eqb_str n (c :: t) then recase stripped else stripped
      | NaN => stripped
      end
  | _ => stripped
  end.

(** The cleaned Response column; without a target the names are not
    looked at. *)
Fixpoint clean_rows (f : cell -> cell -> cell) (names responses : series) : series :=
  match names, responses with
  | n :: ns, r :: rs => f n r :: clean_rows f ns rs
  | _, _ => []
  end.

Definition clean_column (mapping : option (gmap pystr pystr))
    (target : option pystr) (names responses : series) : series :=
  match nonempty_str target with
  | Some _ => clean_rows (clean_response mapping target) names responses
  | None => map (clean_response mapping None NaN) responses
  end.

Definition example_long : DataFrame :=
  [ (str "Demographic variable name", [Str (str "Grade"); Str (str "Work"); Str (str "Region")]);
    (str "Response", [Str (str "SEO/HEO"); Str (str "FULL TIME WORK"); Str (str "London (England)")]);
    (str "Value", [Str (str "1"); Str (str "2"); NaN]) ].

Definition example_mapping : gmap pystr pystr :=
  {[ str "SEO/HEO" := str "HEO/SEO" ]}.

(** ** What a pattern matches

    [matches r m]: the text [m] is in the language of [r].  An iteration
    of a repetition is not empty; [^] and [$] are positions and match the
    empty text. *)
Inductive matches : regex -> pystr -> Prop :=
| matches_eps : matches Eps []
| matches_class p c : p c = true -> matches (Class p) [c]
| matches_cat r1 r2 m1 m2 :
    matches r1 m1 -> matches r2 m2 -> matches (Cat r1 r2) (m1 ++ m2)
| matches_alt_l r1 r2 m : matches r1 m -> matches (Alt r1 r2) m
| matches_alt_r r1 r2 m : matches r2 m -> matches (Alt r1 r2) m
| matches_star_nil g r : matches (Star g r) []
| matches_star_cons g r m1 m2 :
    m1 <> [] -> matches r m1 -> matches (Star g r) m2 ->
    matches (Star g r) (m1 ++ m2)
| matches_group n r m : matches r m -> matches (Group n r) m
| matches_bol : matches Bol []
| matches_eol : matches Eol [].

(** A pattern without [^] and [$]. *)
Fixpoint unanchored (r : regex) : bool :=
  match r with
  | Eps | Class _ => true
  | Cat r1 r2 | Alt r1 r2 => unanchored r1 && unanchored r2
  | Star _ r1 | Group _ r1 => unanchored r1
  | Bol | Eol => false
  end.

(** ** The Footnote Stripper as the specification words it *)

(** The text [t] is the text [p] up to the case of its letters. *)
Definition ci_equal (p t : pystr) : Prop :=
  Forall2 (fun a b => eqb_ci a b = true) p t.

Definition is_bracket (c : ascii) : bool := Ascii.eqb c "[" || Ascii.eqb c "]".

Definition bracket_free (s : pystr) : Prop :=
  forallb (fun c => negb (is_bracket c)) s = true.

(** A digit, whitespace or a comma. *)
Definition number_class (c : ascii) : bool :=
  isdigit c || isspace c || Ascii.eqb c ",".

(** A bracketed footnote reference, for the identifiers [ids] of the
    registry:
    - an identifier in brackets;
    - [note], optional whitespace and an identifier, in brackets;
    - [note] or [notes], whitespace, and a non-empty span of digits,
      whitespace, commas and the letters a, n, d, in brackets;
    - a non-empty span of digits, whitespace and commas, in brackets;
    letters in any case. *)
Inductive reference (ids : list pystr) : pystr -> Prop :=
| reference_id id body :
    In id ids -> ci_equal id body ->
    reference ids ("["%char :: body ++ ["]"%char])
| reference_note id n w body :
    In id ids -> ci_equal (str "note") n -> blank w -> ci_equal id body ->
    reference ids ("["%char :: n ++ w ++ body ++ ["]"%char])
| reference_composite n s w span :
    ci_equal (str "note") n -> (s = [] \/ ci_equal (str "s") s) ->
    blank w -> w <> [] ->
    span <> [] -> forallb composite_class span = true ->
    reference ids ("["%char :: n ++ s ++ w ++ span ++ ["]"%char])
| reference_numbers span :
    span <> [] -> forallb number_class span = true ->
    reference ids ("["%char :: span ++ ["]"%char]).

(** [stripped ids s out]: [out] is [s] without its footnote references,
    read from left to right. *)
Inductive stripped (ids : list pystr) : pystr -> pystr -> Prop :=
| stripped_nil : stripped ids [] []
| stripped_reference r s out :
    reference ids r -> stripped ids s out -> stripped ids (r ++ s) out
| stripped_char c s out :
    (forall r rest, reference ids r -> c :: s <> r ++ rest) ->
    stripped ids s out -> stripped ids (c :: s) (c :: out).

(** The new name of a column. *)
Definition new_column_name (ids : list pystr) (name : pystr) : pystr :=
  strip (re_sub (combined_pattern ids) name).

(** The reading of the composite references in the specification:
    [note] or [notes], whitespace, and a run of word characters, digits,
    spaces and commas. *)
Definition word_class (c : ascii) : bool :=
  let n := N_of_ascii (lower c) in
  isdigit c || isspace c || Ascii.eqb c "," || Ascii.eqb c "_"
  || ((97 <=? n) && (n <=? 122))%N.

Definition example_footnotes : DataFrame :=
  [ (str "Q1 [1]", [Str (str "a")]);
    (str "Q2 [note 2] % [Note 1] ", [Str (str "b")]);
    (str "Q3 [1, 2] [notes 8 and 9]", [Str (str "c")]);
    (str "Q4 [abc]", [Str (str "d")]) ].

Definition example_registry : DataFrame :=
  [ (str "Note number", [Str (str "1"); NaN; Str (str "2")]) ].

Definition example_measures : DataFrame :=
  [ (str "Response", [Str (str "Yes"); Str (str "No")]);
    (str "Measure name",
     [Str (str "Response rate (base: all respondents) (excludes non-responders)");
      Str (str "Score (e.g. 1-5)")]);
    (str "Value", [Str (str "1"); NaN]) ].

(** ** Words *)

(** No whitespace in [w]. *)
Definition is_word (w : pystr) : Prop :=
  forallb (fun c => negb (isspace c)) w = true.

(** ** The check of the column lengths in [extract_data.py] *)

(** [COLUMN_LENGTHS], in the order of the dictionary *)
Definition COLUMN_LENGTHS : list (pystr * nat) :=
  [ (str "Demographic variable code", 16);
    (str "Demographic variable name", 256);
    (str "Derived from", 16);
    (str "Response", 128);
    (str "Measure code", 16);
    (str "Measure name", 256);
    (str "Definition", 256) ].

(** [str(n)] for a natural number *)
Fixpoint decimal_digits (fuel n : nat) (acc : pystr) : pystr :=
  match fuel with
  | O => acc
  | S fuel' =>
      let acc' := ascii_of_nat (48 + n mod 10) :: acc in
      if n / 10 =? 0 then acc' else decimal_digits fuel' (n / 10) acc'
  end.

Definition str_nat (n : nat) : pystr := decimal_digits (S n) n [].

(** [col.astype(str).str.len().max()]: the greatest length of the text of
    a cell; on a column without cells the maximum is [nan], here [None]. *)
Definition str_len_max (col : series) : option nat :=
  match col with
  | [] => None
  | c :: rest =>
      Some (fold_left Nat.max (map (fun x => length (cell_str x)) rest)
                      (length (cell_str c)))
  end.

(** What the loop over [COLUMN_LENGTHS] does: it ends, an assertion
    fails, or the selection of a column raises. *)
Inductive checked : Type :=
| Checked
| AssertionError (msg : pystr)
| Raised (e : exn).

(** The message of the assertion *)
Definition too_long (col : pystr) (max_len year : nat) (actual_max : option nat)
  : pystr :=
  str "Column '" ++ col ++ str "' has value(s) exceeding max length "
  ++ str_nat max_len ++ str " in year " ++ str_nat year ++ str " (actual max: "
  ++ match actual_max with Some m => str_nat m | None => str "nan" end
  ++ str ")".

(** [for col, max_len in lengths.items(): if col in df_data.columns: ...];
    [nan <= max_len] is false. *)
Fixpoint check_column_lengths (year : nat) (lengths : list (pystr * nat))
    (df_data : DataFrame) : checked :=
  match lengths with
  | [] => Checked
  | (col, max_len) :: rest =>
      if mem_str col (columns df_data)
      then match getitem df_data col with
           | Raise e => Raised e
           | Ok cells =>
               let actual_max := str_len_max cells in
               if match actual_max with
                  | Some m => m <=? max_len
                  | None => false
                  end
               then check_column_lengths year rest df_data
               else AssertionError (too_long col max_len year actual_max)
           end
      else check_column_lengths year rest df_data
  end.

(** Every column of the table has [n] cells. *)
Definition rows_all (n : nat) (df : DataFrame) : Prop :=
  Forall (fun c => length (snd c) = n) df.
(** * Properties *)

(** ** Slicing *)

Lemma py_slice_to_app (a b : pystr) :
  py_slice_to (a ++ b) (Z.of_nat (length a)) = a.
Proof.
  unfold py_slice_to, slice_bound.
  rewrite length_app.
  destruct (Z.ltb_spec (Z.of_nat (length a)) 0); [lia|].
  replace (Z.to_nat _) with (length a) by lia.
  rewrite firstn_app, Nat.sub_diag, firstn_all. simpl. now rewrite app_nil_r.
Qed.

Lemma py_slice_from_app (a b : pystr) :
  py_slice_from (a ++ b) (Z.of_nat (length a)) = b.
Proof.
  unfold py_slice_from, slice_bound.
  rewrite length_app.
  destruct (Z.ltb_spec (Z.of_nat (length a)) 0); [lia|].
  replace (Z.to_nat _) with (length a) by lia.
  rewrite skipn_app, Nat.sub_diag, skipn_all. reflexivity.
Qed.

Lemma py_slice_mid (a b c : pystr) :
  py_slice (a ++ b ++ c) (Z.of_nat (length a))
           (Z.of_nat (length a) + Z.of_nat (length b)) = b.
Proof.
  unfold py_slice, slice_bound.
  rewrite !length_app.
  destruct (Z.ltb_spec (Z.of_nat (length a)) 0); [lia|].
  destruct (Z.ltb_spec (Z.of_nat (length a) + Z.of_nat (length b)) 0); [lia|].
  replace (Z.to_nat (Z.min (Z.of_nat (length a)) _)) with (length a) by lia.
  replace (Z.to_nat (Z.min (Z.of_nat (length a) + Z.of_nat (length b)) _))
    with (length a + length b) by lia.
  rewrite drop_app_length.
  replace (length a + length b - length a) with (length b) by lia.
  apply take_app_length.
Qed.

(** ** The measure scanner: indices and offsets against pieces *)

Lemma render_pieces (s : pystr) : forall d open,
  flat_map render (pieces d open s)
  = match open with
    | None => s
    | Some body => "("%char :: rev body ++ s
    end.
Proof.
  induction s as [|c t IH]; intros d open; simpl.
  - destruct open as [body|]; simpl; [|reflexivity].
    rewrite app_nil_r. f_equal.
    induction (rev body) as [|x l IHl]; simpl; congruence.
  - destruct open as [body|].
    + destruct (Ascii.eqb_spec c "("); [|destruct (Ascii.eqb_spec c ")")].
      * rewrite IH. simpl. now rewrite <- app_assoc.
      * destruct (d - 1 =? 0)%Z; simpl; rewrite IH.
        -- subst c. now rewrite <- app_assoc.
        -- simpl. now rewrite <- app_assoc.
      * rewrite IH. simpl. now rewrite <- app_assoc.
    + destruct (Ascii.eqb_spec c "("); [|destruct (Ascii.eqb_spec c ")")].
      * destruct (d =? 0)%Z; simpl; rewrite IH; subst; reflexivity.
      * simpl. now rewrite IH.
      * simpl. now rewrite IH.
Qed.

Lemma spans_of_text (marker : pystr -> bool) (l : pystr) : forall i,
  spans_of marker i (map Text l) = [].
Proof. induction l; intros i; simpl; auto. Qed.

Lemma spans_of_span (marker : pystr -> bool) (i : Z) (inner : pystr) rest :
  spans_of marker i (Span inner :: rest)
  = (if marker (strip inner) then []
     else [(i, (i + Z.of_nat (length inner) + 2)%Z, strip inner)])
    ++ spans_of marker (i + Z.of_nat (length inner) + 2) rest.
Proof.
  simpl. rewrite length_app. simpl.
  replace (i + Z.of_nat (S (length inner + 1)))%Z
    with (i + Z.of_nat (length inner) + 2)%Z by lia.
  reflexivity.
Qed.

Section Refinement.
Let marker := Measure.illustrative.

Lemma scan_pieces (value : pystr) : forall suf pre st d open,
  value = pre ++ suf ->
  scan_inv pre st d open ->
  Measure.parentheticals
    (fold_left (Measure.scan_step value)
               (enumerate_from (Z.of_nat (length pre)) suf) st)
  = Measure.parentheticals st
    ++ spans_of marker (span_origin pre open) (pieces d open suf).
Proof.
  induction suf as [|c t IH]; intros pre st d open Hv [Hd Ho].
  - simpl. destruct open as [body|]; simpl.
    + now rewrite spans_of_text, app_nil_r.
    + now rewrite app_nil_r.
  - simpl enumerate_from. simpl fold_left.
    assert (Hv' : value = (pre ++ [c]) ++ t) by (now rewrite <- app_assoc).
    assert (Hlen : (Z.of_nat (length pre) + 1)%Z = Z.of_nat (length (pre ++ [c])))
      by (rewrite length_app; simpl; lia).
    rewrite Hlen.
    simpl pieces.
    destruct open as [body|].
    + destruct Ho as (pre0 & Hpre & Hsp & Hd1).
      destruct (Ascii.eqb_spec c "("); [|destruct (Ascii.eqb_spec c ")")].
      * (* nested opening parenthesis *)
        rewrite (IH (pre ++ [c]) _ (d + 1)%Z (Some (c :: body)) Hv').
        -- simpl. f_equal. f_equal. unfold span_origin.
           rewrite length_app. simpl. lia.
        -- split; simpl; [lia|]. exists pre0. repeat split.
           ++ rewrite Hpre. simpl. now rewrite <- !app_assoc.
           ++ rewrite Hd. destruct (Z.eqb_spec d 0); [lia|exact Hsp].
           ++ lia.
      * rewrite Hsp, Hd.
        destruct (Z.eqb_spec (d - 1) 0) as [Hz|Hz].
        -- (* the top-level span closes *)
           assert (Hcontent :
             py_slice value (Z.of_nat (length pre0) + 1) (Z.of_nat (length pre))
             = rev body).
           { rewrite Hv, Hpre.
             replace ((pre0 ++ "("%char :: rev body) ++ c :: t)
               with ((pre0 ++ ["("%char]) ++ rev body ++ c :: t)
               by (now rewrite <- !app_assoc).
             replace (Z.of_nat (length pre0) + 1)%Z
               with (Z.of_nat (length (pre0 ++ ["("%char])))
               by (rewrite length_app; simpl; lia).
             replace (Z.of_nat (length (pre0 ++ "("%char :: rev body)))
               with (Z.of_nat (length (pre0 ++ ["("%char]))
                     + Z.of_nat (length (rev body)))%Z
               by (rewrite !length_app; simpl; lia).
             apply py_slice_mid. }
           rewrite Hcontent.
           rewrite (IH (pre ++ [c]) _ 0%Z None Hv'); [|split; simpl; [lia|reflexivity]].
           rewrite spans_of_span. simpl Measure.parentheticals.
           assert (Hi : span_origin pre (Some body) = Z.of_nat (length pre0)).
           { unfold span_origin. rewrite Hpre, length_app. simpl.
             rewrite length_rev. lia. }
           rewrite Hi.
           assert (Hj : (Z.of_nat (length pre0) + Z.of_nat (length (rev body)) + 2)%Z
                        = Z.of_nat (length (pre ++ [c]))).
           { rewrite Hpre, !length_app. simpl. rewrite length_rev. lia. }
           rewrite Hj. unfold span_origin. fold marker.
           destruct (marker (strip (rev body))); simpl.
           ++ reflexivity.
           ++ now rewrite <- app_assoc.
        -- rewrite (IH (pre ++ [c]) _ (d - 1)%Z (Some (c :: body)) Hv').
           ++ simpl. f_equal. f_equal. unfold span_origin.
              rewrite length_app. simpl. lia.
           ++ split; simpl; [reflexivity|]. exists pre0. repeat split.
              ** rewrite Hpre. simpl. now rewrite <- !app_assoc.
              ** lia.
      * rewrite (IH (pre ++ [c]) st d (Some (c :: body)) Hv').
        -- f_equal. f_equal. unfold span_origin. rewrite length_app. simpl. lia.
        -- split; [exact Hd|]. exists pre0. repeat split; auto.
           rewrite Hpre. simpl. now rewrite <- !app_assoc.
    + destruct (Ascii.eqb_spec c "("); [|destruct (Ascii.eqb_spec c ")")].
      * rewrite Hd. destruct (Z.eqb_spec d 0) as [Hz|Hz].
        -- rewrite (IH (pre ++ [c]) _ 1%Z (Some []) Hv').
           ++ simpl. f_equal. f_equal. unfold span_origin.
              rewrite length_app. simpl. lia.
           ++ split; simpl; [lia|]. exists pre. repeat split; [now subst c|lia].
        -- rewrite (IH (pre ++ [c]) _ (d + 1)%Z None Hv');
             [|split; simpl; [reflexivity|exact Ho]].
           simpl. f_equal. f_equal. unfold span_origin.
           rewrite length_app. simpl. lia.
      * rewrite Ho.
        rewrite (IH (pre ++ [c]) _ (d - 1)%Z None Hv');
          [|split; simpl; [now rewrite Hd|reflexivity]].
        simpl. f_equal. f_equal. unfold span_origin.
        rewrite length_app. simpl. lia.
      * rewrite (IH (pre ++ [c]) st d None Hv'); [|split; auto].
        simpl. f_equal. f_equal. unfold span_origin.
        rewrite length_app. simpl. lia.
Qed.

Lemma remove_step_span (kept mid rest : pystr) defs off i content :
  (i - off)%Z = Z.of_nat (length kept) ->
  Measure.remove_step (Measure.mkRemoval defs (kept ++ mid ++ rest) off)
                      (i, (i + Z.of_nat (length mid))%Z, content)
  = Measure.mkRemoval (defs ++ [content]) (kept ++ rest)
                      (off + Z.of_nat (length mid)).
Proof.
  intros Hi. unfold Measure.remove_step. cbn [Measure.offset Measure.cleaned Measure.definitions].
  rewrite Hi, py_slice_to_app.
  replace (i + Z.of_nat (length mid) - off)%Z
    with (Z.of_nat (length (kept ++ mid))) by (rewrite length_app; lia).
  rewrite (app_assoc kept mid rest), py_slice_from_app.
  f_equal. lia.
Qed.

Lemma remove_spans : forall ps kept defs off i rest,
  (i - off)%Z = Z.of_nat (length kept) ->
  let st := fold_left Measure.remove_step (spans_of marker i ps)
              (Measure.mkRemoval defs (kept ++ flat_map render ps ++ rest) off) in
  Measure.cleaned st = kept ++ flat_map (kept_text marker) ps ++ rest
  /\ Measure.definitions st = defs ++ flat_map (collected marker) ps.
Proof.
  induction ps as [|p ps IH]; intros kept defs off i rest Hi.
  - simpl. now rewrite app_nil_r.
  - change (flat_map render (p :: ps)) with (render p ++ flat_map render ps).
    change (flat_map (kept_text marker) (p :: ps))
      with (kept_text marker p ++ flat_map (kept_text marker) ps).
    change (flat_map (collected marker) (p :: ps))
      with (collected marker p ++ flat_map (collected marker) ps).
    destruct p as [c|inner].
    + change (spans_of marker i (Text c :: ps)) with (spans_of marker (i + 1) ps).
      cbn [render kept_text collected].
      specialize (IH (kept ++ [c]) defs off (i + 1)%Z rest).
      rewrite <- !app_assoc in IH. simpl in IH. simpl.
      apply IH. rewrite length_app. simpl. lia.
    + rewrite spans_of_span. cbn [kept_text collected].
      destruct (marker (strip inner)) eqn:Hm.
      * change ("("%char :: inner ++ [")"%char]) with (render (Span inner)).
        rewrite !app_nil_l.
        specialize (IH (kept ++ render (Span inner)) defs off
                       (i + Z.of_nat (length inner) + 2)%Z rest).
        rewrite <- !app_assoc in IH. cbv zeta in *.
        rewrite <- !app_assoc. apply IH.
        rewrite length_app. cbn [render]. simpl. rewrite length_app. simpl. lia.
      * cbv zeta. cbn [app fold_left].
        rewrite <- (app_assoc (render (Span inner))).
        replace (i + Z.of_nat (length inner) + 2)%Z
          with (i + Z.of_nat (length (render (Span inner))))%Z
          by (cbn [render]; simpl; rewrite length_app; simpl; lia).
        rewrite remove_step_span by exact Hi.
        specialize (IH kept (defs ++ [strip inner])
                       (off + Z.of_nat (length (render (Span inner))))%Z
                       (i + Z.of_nat (length (render (Span inner))))%Z rest).
        cbv zeta in IH. rewrite <- app_assoc in IH. apply IH. lia.
Qed.

Lemma split_row_pieces (value : pystr) :
  Measure.split_row value
  = (strip (flat_map (kept_text marker) (pieces 0 None value)),
     join (str "; ") (flat_map (collected marker) (pieces 0 None value))).
Proof.
  unfold Measure.split_row, Measure.find_parentheticals, enumerate.
  pose proof (scan_pieces value value [] (Measure.mkScan 0 None []) 0%Z None
                eq_refl (conj eq_refl eq_refl)) as Hs.
  change (Z.of_nat (length (@nil ascii))) with 0%Z in Hs.
  unfold span_origin in Hs. change (Z.of_nat (length (@nil ascii))) with 0%Z in Hs.
  cbn [Measure.parentheticals app] in Hs. rewrite Hs.
  pose proof (remove_spans (pieces 0 None value) [] [] 0%Z 0%Z [] eq_refl) as Hr.
  simpl in Hr. rewrite app_nil_r in Hr.
  rewrite (render_pieces value 0%Z None) in Hr.
  destruct Hr as [Hc Hd]. rewrite Hc, Hd. now rewrite app_nil_r.
Qed.
End Refinement.

(** ** Patterns in closed form *)

Section ExecLemmas.
Context {A : Type}.
Variable subject : pystr.

Lemma star_greedy_class (p : ascii -> bool) (k : cont A) :
  forall fuel suf caps, length suf <= fuel ->
    star_loop true (exec subject (Class p)) k fuel suf caps
    = greedy_class p k suf caps.
Proof.
  induction fuel as [|fuel IH]; intros suf caps Hlen.
  - destruct suf; [reflexivity|simpl in Hlen; lia].
  - destruct suf as [|c t]; [reflexivity|].
    cbn [star_loop exec greedy_class].
    destruct (p c); [|reflexivity].
    replace (length t <? length (c :: t)) with true
      by (symmetry; apply Nat.ltb_lt; simpl; lia).
    rewrite IH by (simpl in Hlen; lia). reflexivity.
Qed.

Lemma exec_star_greedy (p : ascii -> bool) (k : cont A) suf caps :
  exec subject (Star true (Class p)) suf caps k = greedy_class p k suf caps.
Proof. cbn [exec]. now apply star_greedy_class. Qed.

Lemma star_lazy_class (p : ascii -> bool) (k : cont A) :
  forall fuel suf caps, length suf <= fuel ->
    star_loop false (exec subject (Class p)) k fuel suf caps
    = lazy_class p k suf caps.
Proof.
  induction fuel as [|fuel IH]; intros suf caps Hlen.
  - destruct suf; [|simpl in Hlen; lia].
    cbn [star_loop lazy_class]. now destruct (k [] caps).
  - destruct suf as [|c t].
    + cbn [star_loop exec lazy_class]. now destruct (k [] caps).
    + cbn [star_loop exec lazy_class].
      destruct (k (c :: t) caps); [reflexivity|].
      destruct (p c); [|reflexivity].
      replace (length t <? length (c :: t)) with true
        by (symmetry; apply Nat.ltb_lt; simpl; lia).
      apply IH. simpl in Hlen; lia.
Qed.

Lemma exec_star_lazy (p : ascii -> bool) (k : cont A) suf caps :
  exec subject (Star false (Class p)) suf caps k = lazy_class p k suf caps.
Proof. cbn [exec]. now apply star_lazy_class. Qed.

(** When the continuation cannot start on a character of the class, the
    greedy repetition never backtracks. *)
Lemma greedy_class_skip (p : ascii -> bool) (k : cont A) :
  (forall c t caps, p c = true -> k (c :: t) caps = None) ->
  forall suf caps, greedy_class p k suf caps = k (drop_while p suf) caps.
Proof.
  intros Hk. induction suf as [|c t IH]; intros caps; [reflexivity|].
  cbn [greedy_class drop_while]. destruct (p c) eqn:Hp; [|reflexivity].
  rewrite IH. destruct (k (drop_while p t) caps); [reflexivity|].
  now apply Hk.
Qed.

Lemma exec_lit_ci (l : pystr) : forall suf caps (k : cont A),
  exec subject (lit_ci l) suf caps k
  = if starts_with_ci l suf then k (skipn (length l) suf) caps else None.
Proof.
  induction l as [|a l IH]; intros suf caps k; [reflexivity|].
  cbn [lit_ci exec chr_ci starts_with_ci]. destruct suf as [|b t]; [reflexivity|].
  destruct (eqb_ci a b); [|reflexivity]. cbn [andb]. apply IH.
Qed.

Lemma exec_lit (l : pystr) : forall suf caps (k : cont A),
  exec subject (lit l) suf caps k
  = if starts_with l suf then k (skipn (length l) suf) caps else None.
Proof.
  induction l as [|a l IH]; intros suf caps k; [reflexivity|].
  cbn [lit exec chr starts_with]. destruct suf as [|b t]; [reflexivity|].
  destruct (Ascii.eqb a b); [|reflexivity]. cbn [andb]. apply IH.
Qed.

(** An optional period, when the continuation cannot start on a period. *)
Lemma exec_opt_period (k : cont A) suf caps :
  (forall t caps, k ("."%char :: t) caps = None) ->
  exec subject (opt (chr ".")) suf caps k = k (skip_period suf) caps.
Proof.
  intros Hk. destruct suf as [|c t]; [reflexivity|].
  cbn [opt exec chr skip_period].
  rewrite (Ascii.eqb_sym "." c).
  destruct (Ascii.eqb_spec c ".") as [->|Hne]; [|reflexivity].
  destruct (k t caps); [reflexivity|]. apply Hk.
Qed.

Lemma exec_cat (r1 r2 : regex) (k : cont A) suf caps :
  exec subject (Cat r1 r2) suf caps k
  = exec subject r1 suf caps (fun suf' caps' => exec subject r2 suf' caps' k).
Proof. reflexivity. Qed.

Lemma exec_class (p : ascii -> bool) (k : cont A) suf caps :
  exec subject (Class p) suf caps k
  = match suf with
    | c :: t => if p c then k t caps else None
    | [] => None
    end.
Proof. reflexivity. Qed.

Lemma exec_alt (r1 r2 : regex) (k : cont A) suf caps :
  exec subject (Alt r1 r2) suf caps k
  = match exec subject r1 suf caps k with
    | Some x => Some x
    | None => exec subject r2 suf caps k
    end.
Proof. reflexivity. Qed.

Lemma exec_group (n : nat) (r : regex) (k : cont A) suf caps :
  exec subject (Group n r) suf caps k
  = exec subject r suf caps
      (fun suf' caps' =>
         k suf' ((n, firstn (length suf - length suf') suf) :: caps')).
Proof. reflexivity. Qed.

Lemma exec_bol (k : cont A) suf caps :
  exec subject Bol suf caps k
  = if length suf =? length subject then k suf caps else None.
Proof. reflexivity. Qed.

(** [p+] greedy, when the continuation cannot start on the class. *)
Lemma exec_plus_greedy_skip (p : ascii -> bool) (k : cont A) suf caps :
  (forall c t caps, p c = true -> k (c :: t) caps = None) ->
  exec subject (plus true (Class p)) suf caps k
  = match suf with
    | c :: t => if p c then k (drop_while p t) caps else None
    | [] => None
    end.
Proof.
  intros Hk. unfold plus. rewrite exec_cat, exec_class.
  destruct suf as [|c t]; [reflexivity|].
  destruct (p c); [|reflexivity].
  rewrite exec_star_greedy. now apply greedy_class_skip.
Qed.
End ExecLemmas.

Lemma isspace_not_e (c : ascii) : isspace c = true -> eqb_ci "e" c = false.
Proof.
  destruct c as [[] [] [] [] [] [] [] []]; vm_compute; congruence.
Qed.

Lemma boundary_cont (content suf : pystr) (caps : captures) :
  succeeds
    (exec content
       (Group 2 (Alt Eol (Class (fun c => isspace c || Ascii.eqb c ":" || Ascii.eqb c ","))))
       suf caps (fun suf' caps' => Some (suf', caps')))
  = marker_boundary suf.
Proof.
  destruct suf as [|c t]; [reflexivity|].
  destruct t as [|c' t']; cbn [exec marker_boundary succeeds].
  - destruct (Ascii.eqb_spec c "010") as [->|Hne]; [reflexivity|].
    now destruct (isspace c || Ascii.eqb c ":" || Ascii.eqb c ",").
  - now destruct (isspace c || Ascii.eqb c ":" || Ascii.eqb c ",").
Qed.

Section Marker.
Context {A : Type}.
Variable content : pystr.
Variable k1 : cont A.
Hypothesis Hk1 : forall suf caps, succeeds (k1 suf caps) = marker_boundary suf.

Lemma k1_period t caps : k1 ("."%char :: t) caps = None.
Proof.
  specialize (Hk1 ("."%char :: t) caps).
  destruct (k1 ("."%char :: t) caps); [discriminate Hk1|reflexivity].
Qed.

Lemma exec_eg :
  succeeds (exec content (cats [chr_ci "e"; opt (chr "."); chr_ci "g"; opt (chr ".")])
              content [] k1)
  = begins_with_eg content.
Proof.
  unfold begins_with_eg. cbn [cats]. rewrite exec_cat. unfold chr_ci at 1.
  rewrite exec_class. destruct content as [|c t]; [reflexivity|].
  cbn [starts_with_ci str list_ascii_of_string].
  rewrite andb_true_r. change (skipn 1 (c :: t)) with t.
  destruct (eqb_ci "e" c); [|reflexivity]. cbn [andb].
  rewrite exec_cat, exec_opt_period.
  2:{ intros t' caps'. reflexivity. }
  rewrite exec_cat. unfold chr_ci. rewrite exec_class.
  destruct (skip_period t) as [|g t2]; [reflexivity|].
  change (skipn 1 (g :: t2)) with t2. rewrite andb_true_r.
  destruct (eqb_ci "g" g); [|reflexivity]. cbn [andb].
  rewrite exec_opt_period by exact k1_period. apply Hk1.
Qed.

Lemma exec_for_example :
  succeeds (exec content (cats [lit_ci (str "for"); plus true ws; lit_ci (str "example")])
              content [] k1)
  = begins_with_for_example content.
Proof.
  unfold begins_with_for_example.
  cbn [cats]. rewrite exec_cat, exec_lit_ci.
  destruct (starts_with_ci (str "for") content); [|reflexivity].
  cbn [andb]. change (length (str "for")) with 3.
  rewrite exec_cat. unfold ws. rewrite exec_plus_greedy_skip.
  2:{ intros c' t' caps' Hc'. rewrite exec_lit_ci.
      cbn [str list_ascii_of_string starts_with_ci].
      now rewrite isspace_not_e. }
  destruct (skipn 3 content) as [|c t]; [reflexivity|].
  cbn [take_while drop_while].
  destruct (isspace c) eqn:Hc; [|reflexivity].
  cbn [length Nat.eqb negb andb].
  rewrite exec_lit_ci.
  destruct (starts_with_ci (str "example") (drop_while isspace t)); [|reflexivity].
  cbn [andb]. apply Hk1.
Qed.
End Marker.

Lemma illustrative_spec (content : pystr) :
  Measure.illustrative content = begins_with_marker content.
Proof.
  unfold Measure.illustrative, re_match, re_match_at, Measure.illustrative_pattern.
  change (cats [Bol; ?a; ?b]) with (Cat Bol (Cat a b)).
  rewrite exec_cat, exec_bol, Nat.eqb_refl, exec_cat, exec_group, exec_alt.
  unfold begins_with_marker.
  match goal with
  | |- context [exec content (cats (chr_ci _ :: _)) content [] ?k] => set (k1 := k)
  end.
  assert (Hk1 : forall suf caps, succeeds (k1 suf caps) = marker_boundary suf)
    by (intros suf caps; apply boundary_cont).
  rewrite <- (exec_eg content k1 Hk1), <- (exec_for_example content k1 Hk1).
  now destruct (exec content (cats [chr_ci "e"; opt (chr "."); chr_ci "g"; opt (chr ".")])
                 content [] k1).
Qed.

(** ** The Measure Annotation Parser *)

Lemma flat_map_text (f : piece -> pystr) (s : pystr) :
  (forall c, f (Text c) = [c]) -> flat_map f (map Text s) = s.
Proof. intros Hf. induction s as [|c t IH]; simpl; [reflexivity|]. now rewrite Hf, IH. Qed.

Lemma collected_text (m : pystr -> bool) (s : pystr) :
  flat_map (collected m) (map Text s) = [].
Proof. induction s; simpl; auto. Qed.

(** Below depth zero no span opens as long as parentheses do not nest. *)
Lemma pieces_flat (s : pystr) : forall (open : bool) (d : Z),
  flat_parens open s = true ->
  (if open then d <= 0 else d <= -1)%Z ->
  pieces d None s = map Text s.
Proof.
  induction s as [|c t IH]; intros open d Hflat Hd; [reflexivity|].
  cbn [pieces flat_parens map] in *.
  destruct (Ascii.eqb c "("); [|destruct (Ascii.eqb c ")")].
  - apply andb_true_iff in Hflat as [Ho Hflat].
    destruct open; [discriminate Ho|].
    destruct (Z.eqb_spec d 0); [lia|].
    f_equal. apply (IH true); [exact Hflat|lia].
  - f_equal. apply (IH false); [exact Hflat|destruct open; lia].
  - f_equal. now apply (IH open).
Qed.

Lemma pieces_no_open (pre s : pystr) : forall d,
  has_char "(" pre = false -> (d <= 0)%Z ->
  exists d', (d' <= d)%Z /\ pieces d None (pre ++ s) = map Text pre ++ pieces d' None s.
Proof.
  induction pre as [|c t IH]; intros d Hno Hd.
  - exists d. split; [lia|reflexivity].
  - cbn [has_char existsb] in Hno. apply orb_false_iff in Hno as [Hc Hno].
    cbn [app pieces map]. rewrite Ascii.eqb_sym, Hc.
    destruct (Ascii.eqb c ")").
    + destruct (IH (d - 1)%Z Hno ltac:(lia)) as (d' & Hd' & ->).
      exists d'. split; [lia|reflexivity].
    + destruct (IH d Hno Hd) as (d' & Hd' & ->).
      exists d'. split; [lia|reflexivity].
Qed.

(** C10.  A measure label in which a closing parenthesis comes before
    every opening one, and whose later parentheses are not nested, gives up
    nothing: the definition is empty and the label is the whole text,
    trimmed, with every parenthetical still in it.  [split_row] is a total
    function, so nothing is raised. *)
Theorem stray_closing_parenthesis_extracts_nothing (pre rest : pystr) :
  has_char "(" pre = false ->
  flat_parens false rest = true ->
  Measure.split_row (pre ++ ")"%char :: rest)
  = (strip (pre ++ ")"%char :: rest), []).
Proof.
  intros Hpre Hrest. rewrite split_row_pieces.
  destruct (pieces_no_open pre (")"%char :: rest) 0%Z Hpre ltac:(lia))
    as (d' & Hd' & Hp).
  assert (Hall : pieces 0 None (pre ++ ")"%char :: rest)
                 = map Text (pre ++ ")"%char :: rest)).
  { rewrite Hp. cbn [pieces]. change (Ascii.eqb ")" "(") with false.
    change (Ascii.eqb ")" ")") with true. cbv iota.
    rewrite (pieces_flat rest false (d' - 1)%Z Hrest) by lia.
    now rewrite map_app. }
  rewrite Hall, flat_map_text, collected_text by reflexivity.
  reflexivity.
Qed.

Lemma stray_closing_parenthesis_witness :
  Measure.split_row (str "Rate) of (a) and (b)")
  = (str "Rate) of (a) and (b)", []).
Proof.
  exact (stray_closing_parenthesis_extracts_nothing (str "Rate") (str " of (a) and (b)")
           eq_refl eq_refl).
Defined.

Lemma pieces_marker_ext (m1 m2 : pystr -> bool) (ps : list piece) :
  (forall s, m1 s = m2 s) ->
  flat_map (kept_text m1) ps = flat_map (kept_text m2) ps
  /\ flat_map (collected m1) ps = flat_map (collected m2) ps.
Proof.
  intros H. induction ps as [|p ps [IH1 IH2]]; [split; reflexivity|].
  cbn [flat_map]. rewrite IH1, IH2.
  destruct p as [c|inner]; cbn [kept_text collected]; [split; reflexivity|].
  now rewrite H.
Qed.

(** The scanning loop and the removal loop of [split_row] compute the
    annotation read piece by piece. *)
Lemma split_row_measure_annotation (value : pystr) :
  Measure.split_row value = measure_annotation value.
Proof.
  rewrite split_row_pieces. unfold measure_annotation.
  destruct (pieces_marker_ext Measure.illustrative begins_with_marker
              (pieces 0 None value) illustrative_spec) as [-> ->].
  reflexivity.
Qed.

(** ** Configuration errors *)

Lemma missing_column_not_insert name where_ other :
  missing_column name where_
  <> ValueError (str "cannot insert " ++ other ++ str ", already exists").
Proof. unfold missing_column. simpl. congruence. Qed.

Ltac run_monad :=
  unfold bind, lift, raise, ret, load, store, alloc, insert, drop_column in *;
  cbn beta iota in *.

(** C7.  [remove_column_name_note_numbers] raises the error of a missing
    column exactly when the registry column is not a column of the notes
    table, and [split_column_on_delimiter] raises it exactly when the input
    column is not a column of the data table; in both cases the tables are
    as they were: the check comes before any change. *)
Theorem configuration_error_iff_column_absent
    (df_data df_notes df : loc)
    (note_number_column input_column output_column1 output_column2 : pystr)
    (delims : delimiters) (h : heap) :
  let notes := default [] (h !! df_notes) in
  let table := default [] (h !! df) in
  let r1 := remove_column_name_note_numbers df_data df_notes note_number_column h in
  let r2 := split_column_on_delimiter df input_column output_column1
              output_column2 delims h in
  (fst r1 = Raise (missing_column note_number_column (str "df_notes"))
   <-> mem_str note_number_column (columns notes) = false)
  /\ (mem_str note_number_column (columns notes) = false -> snd r1 = h)
  /\ (fst r2 = Raise (missing_column input_column (str "the DataFrame"))
      <-> mem_str input_column (columns table) = false)
  /\ (mem_str input_column (columns table) = false -> snd r2 = h).
Proof.
  cbv zeta. repeat split.
  - unfold remove_column_name_note_numbers, strip_column_names. run_monad.
    destruct (mem_str note_number_column (columns (default [] (h !! df_notes))));
      [|reflexivity].
    cbn [negb]. intros H. exfalso.
    destruct (getitem (default [] (h !! df_notes)) note_number_column) eqn:E;
      cbn in H.
    + discriminate H.
    + unfold getitem in E. repeat case_match; simplify_eq.
  - unfold remove_column_name_note_numbers. run_monad. now intros ->.
  - unfold remove_column_name_note_numbers. run_monad. now intros ->.
  - unfold split_column_on_delimiter. run_monad.
    destruct (mem_str input_column (columns (default [] (h !! df))));
      [|reflexivity].
    cbn [negb]. intros H. exfalso.
    repeat case_match; simplify_eq; cbn in *;
      try discriminate;
      try (unfold getitem in *; repeat case_match; simplify_eq; fail).
    all: try (unfold missing_column in *; simplify_eq).
  - unfold split_column_on_delimiter. run_monad. now intros ->.
  - unfold split_column_on_delimiter. run_monad. now intros ->.
Qed.

Lemma configuration_error_witness :
  fst (remove_column_name_note_numbers 0 1 (str "Note number") example_heap)
  = Raise (missing_column (str "Note number") (str "df_notes"))
  /\ snd (remove_column_name_note_numbers 0 1 (str "Note number") example_heap)
     = example_heap
  /\ fst (split_column_on_delimiter 0 (str "Measure") (str "Measure code")
            (str "Measure name") (One (str ".")) example_heap)
     = Raise (missing_column (str "Measure") (str "the DataFrame"))
  /\ snd (split_column_on_delimiter 0 (str "Measure") (str "Measure code")
            (str "Measure name") (One (str ".")) example_heap)
     = example_heap.
Proof.
  pose proof (configuration_error_iff_column_absent 0 1 0 (str "Note number")
                (str "Measure") (str "Measure code") (str "Measure name")
                (One (str ".")) example_heap) as H.
  cbv zeta in H. destruct H as (H1 & H2 & H3 & H4).
  split; [|split; [|split]].
  - apply H1. reflexivity.
  - apply H2. reflexivity.
  - apply H3. reflexivity.
  - apply H4. reflexivity.
Defined.

(** ** The notes table across [reshape_data] *)

Section Frames.
Variable l : loc.

Lemma frames_ret {A} (P : A -> Prop) (a : A) : P a -> frames P l (ret a).
Proof. intros Ha h Hl. cbn. auto. Qed.

Lemma frames_raise {A} (P : A -> Prop) (e : exn) : frames P l (raise e).
Proof. intros h Hl. cbn. auto. Qed.

Lemma frames_lift {A} (o : outcome A) : frames anything l (lift o).
Proof. intros h Hl. cbn. destruct o; cbn; auto. unfold anything. auto. Qed.

Lemma frames_load (l' : loc) : frames anything l (load l').
Proof. intros h Hl. cbn. unfold anything. auto. Qed.

Lemma frames_store (l' : loc) (df : DataFrame) :
  l' <> l -> frames anything l (store l' df).
Proof.
  intros Hne h Hl. cbn. unfold anything.
  rewrite list_lookup_insert_ne by exact Hne.
  rewrite length_insert. auto.
Qed.

Lemma frames_alloc (df : DataFrame) : frames (other_than l) l (alloc df).
Proof.
  intros h Hl. cbn. unfold other_than.
  rewrite lookup_app_l by exact Hl. rewrite length_app. cbn.
  repeat split; lia.
Qed.

Lemma frames_bind {A B} (P : A -> Prop) (Q : B -> Prop) (m : M A) (f : A -> M B) :
  frames P l m -> (forall a, P a -> frames Q l (f a)) -> frames Q l (bind m f).
Proof.
  intros Hm Hf h Hl. unfold bind.
  destruct (Hm h Hl) as (H1 & H2 & H3).
  destruct (m h) as [[a|e] h1]; cbn in *.
  - destruct (Hf a H3 h1 ltac:(lia)) as (H4 & H5 & H6).
    repeat split; [congruence|lia|exact H6].
  - auto.
Qed.

Lemma frames_weaken {A} (P Q : A -> Prop) (m : M A) :
  (forall a, P a -> Q a) -> frames P l m -> frames Q l m.
Proof.
  intros HPQ Hm h Hl. destruct (Hm h Hl) as (H1 & H2 & H3).
  repeat split; auto. destruct (fst (m h)); auto.
Qed.

Lemma frames_insert (l' : loc) i name col :
  l' <> l -> frames anything l (insert l' i name col).
Proof.
  intros Hne. unfold insert.
  apply (frames_bind anything); [apply frames_load|]. intros d _.
  destruct (mem_str name (columns d)); [apply frames_raise|].
  now apply frames_store.
Qed.

Lemma frames_drop_column (l' : loc) name :
  frames (other_than l) l (drop_column l' name).
Proof.
  unfold drop_column.
  apply (frames_bind anything); [apply frames_load|]. intros d _.
  destruct (mem_str name (columns d)); [apply frames_alloc|apply frames_raise].
Qed.

Lemma frames_strip_column_names (l' : loc) :
  l' <> l -> frames (other_than l) l (strip_column_names l').
Proof.
  intros Hne. unfold strip_column_names.
  apply (frames_bind anything); [apply frames_load|]. intros d _.
  apply (frames_bind anything); [now apply frames_store|]. intros _ _.
  now apply frames_ret.
Qed.

Lemma frames_remove_column_name_note_numbers (df_data df_notes : loc) name :
  df_data <> l ->
  frames (other_than l) l (remove_column_name_note_numbers df_data df_notes name).
Proof.
  intros Hne. unfold remove_column_name_note_numbers.
  apply (frames_bind anything); [apply frames_load|]. intros notes _.
  destruct (negb _); [apply frames_raise|].
  apply (frames_bind anything); [apply frames_lift|]. intros col _.
  apply (frames_bind anything); [apply frames_load|]. intros d _.
  apply (frames_bind anything); [now apply frames_store|]. intros _ _.
  now apply frames_strip_column_names.
Qed.

Lemma frames_split_column_on_delimiter (df : loc) input out1 out2 delims :
  df <> l ->
  frames (other_than l) l (split_column_on_delimiter df input out1 out2 delims).
Proof.
  intros Hne. unfold split_column_on_delimiter.
  apply (frames_bind anything); [apply frames_load|]. intros d _.
  destruct (negb _); [apply frames_raise|].
  apply (frames_bind anything); [apply frames_lift|]. intros col _.
  apply (frames_bind anything).
  { destruct (_ =? 0); [apply frames_raise|now apply frames_ret]. }
  intros c1 _.
  apply (frames_bind anything).
  { destruct (1 <? _); [now apply frames_ret|apply frames_raise]. }
  intros c2 _.
  apply (frames_bind anything); [now apply frames_insert|]. intros _ _.
  apply (frames_bind anything); [now apply frames_insert|]. intros _ _.
  apply frames_drop_column.
Qed.

Lemma frames_split_row_columns (df : loc) input
    (f : cell -> pystr * pystr) (d : DataFrame) (col : series) n1 n2 :
  frames (other_than l) l
    (do df' <- drop_column df input;
     do cols <- lift (apply_split_row f col);
     run insert df' (get_loc input d) n1 (fst cols);
     run insert df' (get_loc input d + 1) n2 (snd cols);
     ret df').
Proof.
  apply (frames_bind (other_than l)); [apply frames_drop_column|]. intros df' Hdf'.
  apply (frames_bind anything); [apply frames_lift|]. intros cols _.
  apply (frames_bind anything); [now apply frames_insert|]. intros _ _.
  apply (frames_bind anything); [now apply frames_insert|]. intros _ _.
  now apply frames_ret.
Qed.

Lemma frames_split_demographic_variable_name_column (df : loc) input :
  frames (other_than l) l (split_demographic_variable_name_column df input).
Proof.
  unfold split_demographic_variable_name_column.
  apply (frames_bind anything); [apply frames_load|]. intros d _.
  destruct (negb _); [apply frames_raise|].
  apply (frames_bind anything); [apply frames_lift|]. intros col _.
  apply frames_split_row_columns.
Qed.

Lemma frames_split_measure_name_column (df : loc) input :
  frames (other_than l) l (split_measure_name_column df input).
Proof.
  unfold split_measure_name_column.
  apply (frames_bind anything); [apply frames_load|]. intros d _.
  apply (frames_bind anything); [apply frames_lift|]. intros col _.
  apply frames_split_row_columns.
Qed.

Lemma frames_unpivot_dataframe (df : loc) :
  frames (other_than l) l (unpivot_dataframe df).
Proof.
  unfold unpivot_dataframe.
  apply (frames_bind anything); [apply frames_load|]. intros d _.
  apply (frames_bind anything); [apply frames_lift|]. intros r _.
  apply frames_alloc.
Qed.
End Frames.

Lemma set_columns_cells (names : list pystr) (df : DataFrame) :
  length names = length df ->
  columns (set_columns names df) = names /\ map snd (set_columns names df) = map snd df.
Proof.
  intros Hlen. unfold set_columns, columns.
  assert (Hl : length names = length (map snd df)) by now rewrite length_map.
  split.
  - revert Hl. generalize (map snd df). clear. induction names as [|n names IH];
      intros [|c cs] Hl; simpl in *; try discriminate; auto.
    f_equal. apply IH. lia.
  - revert Hl. generalize (map snd df). clear. induction names as [|n names IH];
      intros [|c cs] Hl; simpl in *; try discriminate; auto.
    f_equal. apply IH. lia.
Qed.

(** C9, as amended.  After [reshape_data] on a data table and another
    object as notes table, the cells of the notes table are as they were
    passed in, and its column labels are the labels passed in without
    their leading and trailing whitespace: [strip_column_names] renames the
    columns of the caller's object. *)
Theorem reshape_data_strips_the_notes_labels
    (df_data df_notes : loc) (delims : delimiters) (h : heap) (notes : DataFrame) :
  df_data <> df_notes ->
  h !! df_notes = Some notes ->
  exists notes',
    snd (reshape_data df_data df_notes delims h) !! df_notes = Some notes'
    /\ columns notes' = map strip (columns notes)
    /\ map snd notes' = map snd notes.
Proof.
  intros Hne Hnotes.
  assert (Hl : df_notes < length h) by (apply lookup_lt_is_Some; eauto).
  exists (set_columns (map strip (columns notes)) notes).
  split; [|apply set_columns_cells; unfold columns; now rewrite !length_map].
  unfold reshape_data.
  (* the data table is stripped first *)
  unfold bind at 1.
  destruct (frames_strip_column_names df_notes df_data Hne h Hl) as (H1 & H2 & H3).
  destruct (strip_column_names df_data h) as [[l1|e] h1] eqn:E1; cbn in H1, H2, H3.
  2:{ unfold strip_column_names, bind, load, store, ret in E1. discriminate E1. }
  (* then the notes table, in place *)
  unfold bind at 1. unfold strip_column_names at 1.
  unfold bind at 1. unfold load at 1. cbn beta iota.
  unfold bind at 1. unfold store at 1. cbn beta iota. unfold ret at 1.
  rewrite <- H1, Hnotes. cbn [default from_option]. unfold id.
  set (h2 := <[df_notes := set_columns (map strip (columns notes)) notes]> h1).
  assert (Hl2 : df_notes < length h2) by (unfold h2; rewrite length_insert; lia).
  assert (Hh2 : h2 !! df_notes = Some (set_columns (map strip (columns notes)) notes)).
  { unfold h2. apply list_lookup_insert_eq. lia. }
  rewrite <- Hh2.
  match goal with
  | |- snd (?m h2) !! _ = _ => assert (Hrest : frames (other_than df_notes) df_notes m)
  end.
  { apply (frames_bind df_notes (other_than df_notes));
      [now apply frames_remove_column_name_note_numbers|]. intros l3 Hl3.
    apply (frames_bind df_notes (other_than df_notes));
      [now apply frames_split_column_on_delimiter|]. intros l4 Hl4.
    apply (frames_bind df_notes (other_than df_notes));
      [apply frames_split_demographic_variable_name_column|]. intros l5 Hl5.
    apply (frames_bind df_notes (other_than df_notes));
      [apply frames_unpivot_dataframe|]. intros l6 Hl6.
    apply (frames_bind df_notes (other_than df_notes));
      [now apply frames_split_column_on_delimiter|]. intros l7 Hl7.
    apply (frames_bind df_notes (other_than df_notes));
      [apply frames_split_measure_name_column|]. intros l8 Hl8.
    now apply frames_ret. }
  destruct (Hrest h2 Hl2) as (H4 & _ & _). now rewrite <- H4.
Qed.

Lemma reshape_data_strips_the_notes_labels_witness :
  exists notes',
    snd (reshape_data 0 1 (One (str ".")) example_heap) !! 1 = Some notes'
    /\ columns notes' = map strip (columns example_notes)
    /\ map snd notes' = map snd example_notes.
Proof.
  apply (reshape_data_strips_the_notes_labels 0 1 (One (str ".")) example_heap
           example_notes).
  - discriminate.
  - reflexivity.
Defined.

(** C9 as stated fails: [reshape_data] returns, and the notes table has
    other column labels than it was passed in with. *)
Lemma reshape_data_changes_the_notes_table :
  (exists l, fst (reshape_data 0 1 (One (str ".")) example_heap) = Ok l)
  /\ snd (reshape_data 0 1 (One (str ".")) example_heap) !! 1
     <> example_heap !! 1.
Proof.
  split.
  - eexists. vm_compute. reflexivity.
  - vm_compute. discriminate.
Qed.

(** ** The Unpivoter *)

Lemma eqb_str_eq (a b : pystr) : eqb_str a b = true <-> a = b.
Proof.
  revert b. induction a as [|x a IH]; intros [|y b]; simpl; split; try easy.
  - intros H. apply andb_true_iff in H as [H1 H2].
    apply Ascii.eqb_eq in H1. apply IH in H2. congruence.
  - intros H. injection H as -> ->. rewrite Ascii.eqb_refl. now apply IH.
Qed.

Lemma eqb_str_refl (a : pystr) : eqb_str a a = true.
Proof. now apply eqb_str_eq. Qed.

Lemma mem_str_In (name : pystr) (names : list pystr) :
  mem_str name names = true <-> In name names.
Proof.
  unfold mem_str. rewrite existsb_exists. split.
  - intros (x & Hx & He). apply eqb_str_eq in He. now subst.
  - intros H. exists name. split; [exact H|apply eqb_str_refl].
Qed.

Lemma labelled_absent (name : pystr) (df : DataFrame) :
  ~ In name (columns df) -> labelled name df = [].
Proof.
  induction df as [|[n c] df IH]; intros Hn; [reflexivity|].
  cbn [labelled List.filter fst]. destruct (eqb_str name n) eqn:E.
  - apply eqb_str_eq in E. subst. exfalso. apply Hn. now left.
  - apply IH. intros H. apply Hn. now right.
Qed.

(** With distinct labels, selecting the labels that satisfy [p], one by
    one, gives the columns whose label satisfies [p], in table order. *)
Lemma labelled_filter (p : pystr -> bool) (df : DataFrame) :
  List.NoDup (columns df) ->
  flat_map (fun v => labelled v df) (List.filter p (columns df))
  = List.filter (fun c => p (fst c)) df.
Proof.
  induction df as [|[n c] df IH]; intros Hnd; [reflexivity|].
  cbn [columns map fst] in Hnd. apply NoDup_cons_iff in Hnd as [Hn Hnd].
  assert (Hshift : forall names, ~ In n names ->
            flat_map (fun v => labelled v ((n, c) :: df)) names
            = flat_map (fun v => labelled v df) names).
  { induction names as [|v names IHn]; intros Hv; [reflexivity|].
    cbn [flat_map]. rewrite IHn by (intros H; apply Hv; now right).
    f_equal. cbn [labelled List.filter fst].
    destruct (eqb_str v n) eqn:E; [|reflexivity].
    apply eqb_str_eq in E. subst. exfalso. apply Hv. now left. }
  cbn [columns map List.filter fst]. fold (columns df).
  destruct (p n) eqn:Hp.
  - cbn [flat_map]. rewrite Hshift.
    2:{ intros H. apply filter_In in H as [H _].
        now apply Hn. }
    rewrite IH by exact Hnd.
    cbn [labelled List.filter fst]. rewrite eqb_str_refl.
    fold (labelled n df). rewrite (labelled_absent n df Hn). reflexivity.
  - rewrite Hshift.
    2:{ intros H. apply filter_In in H as [H _].
        now apply Hn. }
    now apply IH.
Qed.

Lemma labelled_present (name : pystr) (df : DataFrame) :
  List.NoDup (columns df) -> In name (columns df) ->
  exists col, labelled name df = [(name, col)].
Proof.
  induction df as [|[n c] df IH]; intros Hnd Hin; [destruct Hin|].
  cbn [columns map fst] in Hnd, Hin. apply NoDup_cons_iff in Hnd as [Hn Hnd].
  cbn [labelled List.filter fst]. destruct (eqb_str name n) eqn:E.
  - apply eqb_str_eq in E. subst n. exists c.
    fold (labelled name df). now rewrite (labelled_absent name df Hn).
  - destruct Hin as [->|Hin]; [now rewrite eqb_str_refl in E|].
    now apply IH.
Qed.

Lemma rows_of_app (n1 n2 : nat) (parts : list (series * series)) :
  Forall (fun ab => length (fst ab) = n1) parts ->
  rows_of (n1 + n2) (map (fun ab => fst ab ++ snd ab) parts)
  = rows_of n1 (map fst parts) ++ rows_of n2 (map snd parts).
Proof.
  intros Hlen. unfold rows_of. rewrite seq_app, map_app. f_equal.
  - apply map_ext_in. intros i Hi. apply in_seq in Hi.
    unfold row_of. rewrite !map_map. apply map_ext_in. intros [a b] Hab.
    rewrite List.Forall_forall in Hlen. specialize (Hlen _ Hab). cbn in *.
    apply app_nth1. lia.
  - cbn [Nat.add]. rewrite <- (Nat.add_0_r n1) at 1.
    replace (seq (n1 + 0) n2) with (map (fun i => n1 + i) (seq 0 n2)).
    2:{ clear. generalize 0. induction n2 as [|n2 IH]; intros s; [reflexivity|].
        cbn [seq map]. f_equal. rewrite IH. f_equal. lia. }
    rewrite map_map. apply map_ext_in. intros i Hi.
    unfold row_of. rewrite !map_map. apply map_ext_in. intros [a b] Hab.
    rewrite List.Forall_forall in Hlen. specialize (Hlen _ Hab). cbn in *.
    rewrite <- Hlen. apply app_nth2_plus.
Qed.

Lemma nth_repeat_lt {A} (x d : A) (n i : nat) : i < n -> nth i (repeat x n) d = x.
Proof.
  revert i. induction n as [|n IH]; intros i Hi; [lia|].
  destruct i; [reflexivity|]. cbn. apply IH. lia.
Qed.

(** The rows of a melted table: for each value column in turn, one row
    per row of the frame. *)
Lemma melt_rows (n : nat) (idcols : list series) (ms : DataFrame) :
  Forall (fun c => length c = n) idcols ->
  Forall (fun m => length (snd m) = n) ms ->
  rows_of (n * length ms)
    (map (fun c => concat (repeat c (length ms))) idcols
     ++ [flat_map (fun m => repeat (Str (fst m)) n) ms; flat_map snd ms])
  = flat_map (fun m => map (fun i => row_of idcols i ++ [Str (fst m); nth i (snd m) NaN])
                           (seq 0 n)) ms.
Proof.
  intros Hid Hms. induction ms as [|m ms IH].
  - rewrite Nat.mul_0_r. reflexivity.
  - apply Forall_cons_iff in Hms as [Hm Hms]. cbn [length flat_map].
    replace (n * S (length ms)) with (n + n * length ms) by lia.
    set (parts := map (fun c => (c, concat (repeat c (length ms)))) idcols
                  ++ [(repeat (Str (fst m)) n,
                       flat_map (fun m => repeat (Str (fst m)) n) ms);
                      (snd m, flat_map snd ms)]).
    replace (map (fun c => concat (repeat c (S (length ms)))) idcols
             ++ [repeat (Str (fst m)) n ++ flat_map (fun m0 => repeat (Str (fst m0)) n) ms;
                 snd m ++ flat_map snd ms])
      with (map (fun ab => fst ab ++ snd ab) parts).
    2:{ unfold parts. rewrite map_app, map_map. reflexivity. }
    rewrite rows_of_app.
    2:{ unfold parts. apply Forall_app. split.
        - apply Forall_map. cbn. exact Hid.
        - repeat constructor; cbn; [apply repeat_length|exact Hm]. }
    f_equal.
    + unfold parts. rewrite map_app, map_map. cbn [map fst].
      unfold rows_of. apply map_ext_in. intros i Hi. apply in_seq in Hi.
      unfold row_of. rewrite map_app. cbn [map]. rewrite map_id.
      rewrite nth_repeat_lt by lia. reflexivity.
    + unfold parts. rewrite map_app, map_map. cbn [map snd]. now apply IH.
Qed.

Lemma select_columns (names : list pystr) (df : DataFrame) :
  List.NoDup (columns df) ->
  Forall (fun i => In i (columns df)) names ->
  map fst (flat_map (fun i => labelled i df) names) = names.
Proof.
  intros Hnd. induction names as [|i names IH]; intros Hin; [reflexivity|].
  apply Forall_cons_iff in Hin as [Hi Hin]. cbn [flat_map].
  destruct (labelled_present i df Hnd Hi) as [col ->].
  cbn. f_equal. now apply IH.
Qed.

Lemma labelled_In (name : pystr) (df : DataFrame) c :
  In c (labelled name df) -> In c df.
Proof. unfold labelled. intros H. now apply filter_In in H as [H _]. Qed.

Lemma length_flat_map_uniform {A B} (f : A -> list B) (n : nat) (l : list A) :
  Forall (fun x => length (f x) = n) l -> length (flat_map f l) = n * length l.
Proof.
  induction 1 as [|x l Hx _ IH]; [cbn; lia|].
  cbn [flat_map length]. rewrite length_app, IH, Hx. lia.
Qed.

Lemma length_concat_repeat {A} (c : list A) (k : nat) :
  length (concat (repeat c k)) = length c * k.
Proof.
  induction k as [|k IH]; cbn [repeat concat]; [cbn; lia|].
  rewrite length_app, IH. lia.
Qed.

Lemma unique_from_NoDup (seen l : list pystr) :
  List.NoDup l -> (forall x, In x l -> ~ In x seen) -> unique_from seen l = l.
Proof.
  revert seen. induction l as [|x l IH]; intros seen Hnd Hs; [reflexivity|].
  apply List.NoDup_cons_iff in Hnd as [Hx Hnd]. cbn [unique_from].
  destruct (mem_str x seen) eqn:E.
  { apply mem_str_In in E. exfalso. apply (Hs x); [now left|exact E]. }
  f_equal. apply IH; [exact Hnd|].
  intros y Hy [<-|Hin]; [contradiction|]. apply (Hs y); [now right|exact Hin].
Qed.

Lemma unique_NoDup (l : list pystr) : List.NoDup l -> unique l = l.
Proof. intros Hnd. apply unique_from_NoDup; [exact Hnd|]. intros x _ []. Qed.

Lemma labelled_at_most_one (names : list pystr) (df : DataFrame) :
  List.NoDup (columns df) ->
  existsb (fun i => 1 <? length (labelled i df)) names = false.
Proof.
  intros Hnd. induction names as [|i names IH]; [reflexivity|].
  cbn [existsb]. rewrite IH, orb_false_r.
  destruct (mem_str i (columns df)) eqn:E.
  - apply mem_str_In in E. destruct (labelled_present i df Hnd E) as [col ->].
    reflexivity.
  - rewrite labelled_absent; [reflexivity|].
    intros Hin. apply mem_str_In in Hin. congruence.
Qed.

(** C2, as amended.  On a table with distinct column labels, none of them
    [Value], [unpivot_dataframe] returns a new table whose columns are the
    identifier columns present, in the fixed order, then [Measure] and
    [Value]; it has one row for each pair of a row and a measure column,
    with the identifier values of the row, the label of the measure column
    and the cell; the rows are grouped by measure column, in the order of
    the columns, and within a measure column follow the order of the
    rows. *)
Theorem unpivot_dataframe_groups_by_measure (df : loc) (h : heap) (d : DataFrame) :
  h !! df = Some d ->
  well_formed d ->
  List.NoDup (columns d) ->
  mem_str (str "Value") (columns d) = false ->
  exists out,
    unpivot_dataframe df h = (Ok (length h), h ++ [out])
    /\ columns out = keep_columns d ++ [str "Measure"; str "Value"]
    /\ Forall (fun c => length (snd c) = nrows d * length (measure_columns d)) out
    /\ rows_of (nrows d * length (measure_columns d)) (map snd out)
       = records_by_measure d.
Proof.
  intros Hd Hwf Hnd Hvalue.
  unfold unpivot_dataframe, bind, load, lift, alloc. cbn beta iota.
  rewrite Hd. cbn [default from_option]. unfold id. fold (keep_columns d).
  unfold melt. fold (columns d). rewrite Hvalue.
  rewrite (labelled_at_most_one _ d Hnd).
  rewrite unique_NoDup by (now apply List.NoDup_filter).
  rewrite (labelled_filter (fun c => negb (mem_str c (keep_columns d))) d Hnd).
  fold (measure_columns d).
  eexists. split; [reflexivity|].
  assert (Hkeep : Forall (fun i => In i (columns d)) (keep_columns d)).
  { apply List.Forall_forall. intros i Hi. unfold keep_columns in Hi.
    apply filter_In in Hi as [_ Hi]. now apply mem_str_In. }
  assert (Hids :
    map snd (flat_map (fun i => map (fun c => (fst c,
                 concat (repeat (snd c) (length (measure_columns d)))))
               (labelled i d)) (keep_columns d))
    = map (fun c => concat (repeat c (length (measure_columns d))))
          (select (keep_columns d) d)).
  { unfold select. generalize (keep_columns d). intros names.
    induction names as [|i names IHn]; [reflexivity|].
    cbn [flat_map]. rewrite !map_app, IHn, !map_map. reflexivity. }
  assert (Hidlen : Forall (fun c => length c = nrows d) (select (keep_columns d) d)).
  { apply List.Forall_forall. intros c Hc. unfold select in Hc.
    apply in_flat_map in Hc as (i & _ & Hc). apply in_map_iff in Hc as (x & <- & Hx).
    apply labelled_In in Hx. unfold well_formed in Hwf.
    rewrite List.Forall_forall in Hwf. now apply Hwf. }
  assert (Hmlen : Forall (fun m => length (snd m) = nrows d) (measure_columns d)).
  { apply List.Forall_forall. intros m Hm. unfold measure_columns in Hm.
    apply filter_In in Hm as [Hm _]. unfold well_formed in Hwf.
    rewrite List.Forall_forall in Hwf. now apply Hwf. }
  split; [|split].
  - unfold columns. rewrite map_app. cbn [map fst]. f_equal.
    rewrite <- (select_columns (keep_columns d) d Hnd Hkeep) at 2.
    generalize (keep_columns d). intros names.
    induction names as [|i names IHn]; [reflexivity|].
    cbn [flat_map]. rewrite !map_app, IHn, !map_map. reflexivity.
  - apply Forall_app. split.
    + apply List.Forall_forall. intros c Hc.
      apply in_flat_map in Hc as (i & _ & Hc). apply in_map_iff in Hc as (x & <- & Hx).
      cbn [snd]. apply labelled_In in Hx.
      unfold well_formed in Hwf. rewrite List.Forall_forall in Hwf.
      specialize (Hwf _ Hx). rewrite length_concat_repeat, Hwf. reflexivity.
    + constructor; [|constructor; [|constructor]]; cbn [snd].
      * apply length_flat_map_uniform.
        apply List.Forall_forall. intros m _. apply repeat_length.
      * now apply length_flat_map_uniform.
  - rewrite map_app, Hids. cbn [map snd].
    rewrite (melt_rows (nrows d) _ _ Hidlen Hmlen). reflexivity.
Qed.

Lemma unpivot_dataframe_witness :
  exists out,
    unpivot_dataframe 0 [example_wide] = (Ok 1, [example_wide] ++ [out])
    /\ columns out = keep_columns example_wide ++ [str "Measure"; str "Value"]
    /\ Forall (fun c => length (snd c)
                        = nrows example_wide * length (measure_columns example_wide)) out
    /\ rows_of (nrows example_wide * length (measure_columns example_wide)) (map snd out)
       = records_by_measure example_wide.
Proof.
  apply (unpivot_dataframe_groups_by_measure 0 [example_wide] example_wide).
  - reflexivity.
  - repeat constructor.
  - repeat constructor; cbn; intuition discriminate.
  - reflexivity.
Defined.

(** C2 as stated fails: on two rows and two measure columns the output
    rows are not grouped by original row. *)
Lemma unpivot_dataframe_not_grouped_by_row :
  exists out,
    unpivot_dataframe 0 [example_wide] = (Ok 1, [example_wide; out])
    /\ rows_of (nrows out) (map snd out) <> records_by_row example_wide.
Proof.
  eexists. split; [vm_compute; reflexivity|].
  vm_compute. discriminate.
Qed.

(** ** The Delimiter Splitter *)

Lemma starts_with_app (d s : pystr) :
  starts_with d s = true -> s = d ++ skipn (length d) s.
Proof.
  revert s. induction d as [|a d IH]; intros s H; [reflexivity|].
  destruct s as [|b s]; [discriminate|]. cbn in H.
  apply andb_true_iff in H as [H1 H2]. apply Ascii.eqb_eq in H1. subst b.
  cbn. f_equal. now apply IH.
Qed.

Lemma exec_delimiters (subject : pystr) (ds : list pystr) (suf : pystr) (caps : captures) :
  ds <> [] ->
  exec subject (delimiter_pattern ds) suf caps (fun suf' caps' => Some (suf', caps'))
  = match find (fun d => starts_with d suf) ds with
    | Some d => Some (skipn (length d) suf, caps)
    | None => None
    end.
Proof.
  unfold delimiter_pattern. induction ds as [|d ds IH]; intros Hne; [congruence|].
  destruct ds as [|d' ds].
  - cbn [map alts find]. rewrite exec_lit. now destruct (starts_with d suf).
  - change (alts (map lit (d :: d' :: ds)))
      with (Alt (lit d) (alts (map lit (d' :: ds)))).
    rewrite exec_alt, exec_lit. cbn [find].
    destruct (starts_with d suf); [reflexivity|]. now apply IH.
Qed.

Lemma re_search_delimiters (ds : list pystr) (subject : pystr) :
  ds <> [] ->
  forall suf pre_rev,
    re_search_from (delimiter_pattern ds) subject pre_rev suf
    = first_occurrence ds pre_rev suf.
Proof.
  intros Hne. induction suf as [|c t IH]; intros pre_rev.
  - cbn [re_search_from first_occurrence]. unfold re_match_at.
    rewrite exec_delimiters by exact Hne.
    destruct (find (fun d => starts_with d []) ds) as [d|] eqn:E; [|reflexivity].
    apply find_some in E as [_ E]. destruct d; [reflexivity|discriminate].
  - cbn [re_search_from first_occurrence]. unfold re_match_at.
    rewrite exec_delimiters by exact Hne.
    destruct (find (fun d => starts_with d (c :: t)) ds) as [d|] eqn:E; [|apply IH].
    apply find_some in E as [_ E]. apply starts_with_app in E.
    f_equal. f_equal. f_equal.
    remember (c :: t) as s eqn:Hs. clear Hs.
    assert (Hlen : length s = length d + length (skipn (length d) s))
      by (rewrite E at 1; apply length_app).
    replace (length s - length (skipn (length d) s)) with (length d) by lia.
    rewrite E. apply take_app_length.
Qed.

Lemma first_occurrence_app (ds : list pystr) : forall s pre_rev before d after,
  first_occurrence ds pre_rev s = Some (before, d, after) ->
  In d ds /\ rev pre_rev ++ s = before ++ d ++ after.
Proof.
  induction s as [|c t IH]; intros pre_rev before d after H;
    cbn [first_occurrence] in H.
  - destruct (find (fun d => starts_with d []) ds) as [d0|] eqn:E; [|discriminate].
    injection H as <- <- <-. apply find_some in E as [Hin E].
    split; [exact Hin|]. f_equal. now apply starts_with_app.
  - destruct (find (fun d => starts_with d (c :: t)) ds) as [d0|] eqn:E.
    + injection H as <- <- <-. apply find_some in E as [Hin E].
      split; [exact Hin|]. f_equal. now apply starts_with_app.
    + apply IH in H as [Hin H]. split; [exact Hin|].
      rewrite <- H. cbn [rev]. now rewrite <- app_assoc.
Qed.

Lemma where_series_map {A} (f h : A -> cell) (g : A -> bool) (l : list A) :
  where_series (map f l) (map g l) (map h l)
  = map (fun x => if g x then f x else h x) l.
Proof. induction l as [|x l IH]; cbn; [reflexivity|]. now rewrite IH. Qed.

Lemma where_series_self (f : cell -> cell) (g : cell -> bool) (l : series) :
  where_series (map f l) (map g l) l = map (fun x => if g x then f x else x) l.
Proof. induction l as [|x l IH]; cbn; [reflexivity|]. now rewrite IH. Qed.

Lemma split_cells (ds : list pystr) (col : series) :
  ds <> [] ->
  let pattern := delimiter_pattern ds in
  let has_delim := map (fun c => succeeds (re_search pattern (cell_str c))) col in
  let split_columns := map (split_once pattern) col in
  where_scalar (str_strip (expand_column 0 split_columns)) has_delim (Str [])
  = map (fun c => fst (split_cell ds c)) col
  /\ where_series (str_strip (expand_column 1 split_columns)) has_delim col
     = map (fun c => snd (split_cell ds c)) col.
Proof.
  intros Hne. cbv zeta. unfold where_scalar, str_strip, expand_column.
  rewrite !map_map, where_series_map, where_series_self. split.
  - apply map_ext. intros c. unfold split_cell, split_once, re_search.
    destruct c as [s|]; cbn [cell_str]; rewrite !re_search_delimiters by exact Hne.
    + destruct (first_occurrence ds [] s) as [[[b d] a]|]; reflexivity.
    + destruct (first_occurrence ds [] (str "nan")) as [[[b d] a]|]; reflexivity.
  - apply map_ext. intros c. unfold split_cell, split_once, re_search.
    destruct c as [s|]; cbn [cell_str]; rewrite !re_search_delimiters by exact Hne.
    + destruct (first_occurrence ds [] s) as [[[b d] a]|]; reflexivity.
    + destruct (first_occurrence ds [] (str "nan")) as [[[b d] a]|]; reflexivity.
Qed.

Lemma expand_width_le (pattern : regex) (col : series) :
  expand_width (map (split_once pattern) col) <= 2.
Proof.
  unfold expand_width. induction col as [|c col IH]; cbn [map fold_right]; [lia|].
  assert (match split_once pattern c with Some l => length l | None => 1 end <= 2).
  { destruct c as [s|]; cbn; [|lia].
    destruct (re_search pattern s) as [[[b m] a]|]; cbn; lia. }
  lia.
Qed.

Lemma expand_width_two (ds : list pystr) (col : series) :
  ds <> [] -> some_cell_splits ds col ->
  expand_width (map (split_once (delimiter_pattern ds)) col) = 2.
Proof.
  intros Hne (s & Hin & Hs).
  pose proof (expand_width_le (delimiter_pattern ds) col) as Hle.
  enough (2 <= expand_width (map (split_once (delimiter_pattern ds)) col)) by lia.
  clear Hle. unfold expand_width.
  induction col as [|c col IH]; [destruct Hin|].
  cbn [map fold_right]. destruct Hin as [->|Hin].
  - cbn [split_once]. unfold re_search. rewrite re_search_delimiters by exact Hne.
    destruct (first_occurrence ds [] s) as [[[b d] a]|]; [cbn; lia|congruence].
  - specialize (IH Hin). lia.
Qed.

(** A table with distinct labels, around one of its columns. *)
Lemma column_split (name : pystr) (df : DataFrame) :
  List.NoDup (columns df) -> In name (columns df) ->
  exists pre col post,
    df = pre ++ (name, col) :: post
    /\ ~ In name (columns pre) /\ ~ In name (columns post).
Proof.
  induction df as [|[n c] df IH]; intros Hnd Hin; [destruct Hin|].
  cbn [columns map fst] in Hnd, Hin. apply NoDup_cons_iff in Hnd as [Hn Hnd].
  destruct (eqb_str name n) eqn:E.
  - apply eqb_str_eq in E. subst n. exists [], c, df. repeat split; auto.
  - destruct Hin as [->|Hin]; [now rewrite eqb_str_refl in E|].
    destruct (IH Hnd Hin) as (pre & col & post & -> & Hpre & Hpost).
    exists ((n, c) :: pre), col, post. repeat split; auto.
    cbn. intros [->|H]; [now rewrite eqb_str_refl in E|auto].
Qed.

Lemma mem_str_false (name : pystr) (names : list pystr) :
  ~ In name names -> mem_str name names = false.
Proof.
  intros H. destruct (mem_str name names) eqn:E; [|reflexivity].
  apply mem_str_In in E. contradiction.
Qed.

Lemma filter_absent (keep : bool) (name : pystr) (df : DataFrame) :
  ~ In name (columns df) ->
  List.filter (fun c => if keep then eqb_str name (fst c)
                        else negb (eqb_str name (fst c))) df
  = if keep then [] else df.
Proof.
  induction df as [|[n c] df IH]; intros Hn; [now destruct keep|].
  cbn [List.filter fst]. destruct (eqb_str name n) eqn:E.
  - apply eqb_str_eq in E. subst. exfalso. apply Hn. now left.
  - rewrite IH by (intros H; apply Hn; now right). now destruct keep.
Qed.

Section AroundColumn.
Variables (name : pystr) (pre post : DataFrame) (col : series).
Hypothesis Hpre : ~ In name (columns pre).
Hypothesis Hpost : ~ In name (columns post).

Lemma labelled_around : labelled name (pre ++ (name, col) :: post) = [(name, col)].
Proof.
  unfold labelled. rewrite List.filter_app. cbn [List.filter fst]. rewrite eqb_str_refl.
  rewrite (filter_absent true name pre Hpre), (filter_absent true name post Hpost).
  reflexivity.
Qed.

Lemma get_loc_around : get_loc name (pre ++ (name, col) :: post) = length pre.
Proof.
  clear Hpost. induction pre as [|[n c] p IH]; cbn [app get_loc].
  - now rewrite eqb_str_refl.
  - destruct (eqb_str name n) eqn:E.
    + apply eqb_str_eq in E. subst. exfalso. apply Hpre. now left.
    + cbn [length]. f_equal. apply IH. intros H. apply Hpre. now right.
Qed.

Lemma flat_map_absent (f : pystr * series -> DataFrame) (df : DataFrame) :
  ~ In name (columns df) ->
  flat_map (fun c => if eqb_str name (fst c) then f c else [c]) df = df.
Proof.
  induction df as [|[n c] df IH]; intros Hn; [reflexivity|].
  cbn [flat_map fst]. destruct (eqb_str name n) eqn:E.
  - apply eqb_str_eq in E. subst. exfalso. apply Hn. now left.
  - rewrite IH by (intros H; apply Hn; now right). reflexivity.
Qed.

Lemma replace_column_around (new : DataFrame) :
  replace_column name new (pre ++ (name, col) :: post) = pre ++ new ++ post.
Proof.
  unfold replace_column. rewrite flat_map_app. cbn [flat_map fst].
  rewrite eqb_str_refl.
  rewrite (flat_map_absent (fun _ => new) pre Hpre),
          (flat_map_absent (fun _ => new) post Hpost).
  reflexivity.
Qed.

Lemma insert_before_around (new : DataFrame) :
  insert_before name new (pre ++ (name, col) :: post)
  = pre ++ new ++ (name, col) :: post.
Proof.
  unfold insert_before. rewrite flat_map_app. cbn [flat_map fst].
  rewrite eqb_str_refl.
  rewrite (flat_map_absent (fun c => new ++ [c]) pre Hpre),
          (flat_map_absent (fun c => new ++ [c]) post Hpost).
  now rewrite <- !app_assoc.
Qed.

Lemma without_around (new : DataFrame) :
  ~ In name (columns new) ->
  without name (pre ++ new ++ (name, col) :: post) = pre ++ new ++ post.
Proof.
  intros Hnew. unfold without. rewrite !List.filter_app. cbn [List.filter fst].
  rewrite eqb_str_refl. cbn [negb].
  rewrite (filter_absent false name pre Hpre), (filter_absent false name post Hpost),
          (filter_absent false name new Hnew).
  reflexivity.
Qed.
End AroundColumn.

Lemma insert_at_length {A} (pre post : list A) (x : A) :
  insert_at (length pre) x (pre ++ post) = pre ++ x :: post.
Proof. unfold insert_at. now rewrite take_app_length, drop_app_length. Qed.

(** The Delimiter Splitter on a table with distinct labels, fresh output
    labels and a string cell that contains a delimiter: the returned table
    has the two output columns in place of the input column; the table
    passed in has them in front of it. *)
Lemma split_column_on_delimiter_result (df : loc) (input out1 out2 : pystr)
    (delims : delimiters) (h : heap) (d : DataFrame) :
  h !! df = Some d ->
  List.NoDup (columns d) ->
  In input (columns d) ->
  ~ In out1 (columns d) -> ~ In out2 (columns d) -> out1 <> out2 ->
  delimiter_list delims <> [] ->
  some_cell_splits (delimiter_list delims) (column input d) ->
  let ds := delimiter_list delims in
  let new := [ (out1, map (fun c => fst (split_cell ds c)) (column input d));
               (out2, map (fun c => snd (split_cell ds c)) (column input d)) ] in
  split_column_on_delimiter df input out1 out2 delims h
  = (Ok (length h),
     <[df := insert_before input new d]> h ++ [replace_column input new d]).
Proof.
  intros Hd Hnd Hin Hout1 Hout2 Hne12 Hds Hsome. cbv zeta.
  assert (Hl : df < length h) by (apply lookup_lt_is_Some; eauto).
  destruct (column_split input d Hnd Hin) as (pre & col & post & -> & Hpre & Hpost).
  assert (Hcol : column input (pre ++ (input, col) :: post) = col).
  { unfold column. now rewrite labelled_around. }
  rewrite Hcol in *.
  rewrite replace_column_around, insert_before_around by assumption.
  unfold split_column_on_delimiter.
  unfold bind at 1. unfold load at 1. cbn beta iota.
  rewrite Hd. cbn [default from_option]. unfold id.
  rewrite (proj2 (mem_str_In input _) Hin). cbn [negb].
  unfold bind at 1. unfold lift at 1, getitem. rewrite labelled_around by assumption.
  cbn beta iota.
  rewrite expand_width_two by assumption.
  cbn [Nat.eqb Nat.ltb Nat.leb].
  unfold bind at 1. unfold ret at 1. cbn beta iota.
  destruct (split_cells (delimiter_list delims) col Hds) as [-> ->].
  unfold bind at 1. unfold ret at 1. cbn beta iota.
  rewrite get_loc_around by assumption.
  (* first insertion *)
  unfold bind at 1. unfold insert at 1. unfold bind at 1. unfold load at 1.
  cbn beta iota. rewrite Hd. cbn [default from_option]. unfold id.
  rewrite (mem_str_false out1 _ Hout1). unfold store at 1. cbn beta iota.
  rewrite insert_at_length.
  set (d1 := pre ++ (out1, _) :: (input, col) :: post).
  (* second insertion *)
  unfold bind at 1. unfold insert at 1. unfold bind at 1. unfold load at 1.
  cbn beta iota. rewrite list_lookup_insert_eq by exact Hl.
  cbn [default from_option]. unfold id.
  assert (Hout2' : ~ In out2 (columns d1)).
  { unfold d1, columns. rewrite map_app. cbn [map fst]. intros H.
    apply in_app_or in H as [H|[H|H]].
    - apply Hout2. unfold columns. rewrite map_app. apply in_or_app. now left.
    - now apply Hne12.
    - apply Hout2. unfold columns. rewrite map_app. apply in_or_app. now right. }
  rewrite (mem_str_false out2 _ Hout2'). unfold store at 1. cbn beta iota.
  rewrite list_insert_insert_eq.
  unfold d1.
  replace (length pre + 1) with (length (pre ++ [(out1, map (fun c => fst (split_cell (delimiter_list delims) c)) col)]))
    by (rewrite length_app; cbn; lia).
  replace (pre ++ (out1, map (fun c => fst (split_cell (delimiter_list delims) c)) col)
               :: (input, col) :: post)
    with ((pre ++ [(out1, map (fun c => fst (split_cell (delimiter_list delims) c)) col)])
          ++ (input, col) :: post) by (now rewrite <- app_assoc).
  rewrite insert_at_length. rewrite <- app_assoc. cbn [app].
  (* the input column is dropped in a new table *)
  unfold drop_column. unfold bind at 1. unfold load at 1. cbn beta iota.
  rewrite list_lookup_insert_eq by exact Hl. cbn [default from_option]. unfold id.
  set (new := [ (out1, map (fun c => fst (split_cell (delimiter_list delims) c)) col);
                (out2, map (fun c => snd (split_cell (delimiter_list delims) c)) col) ]).
  change (pre ++ (out1, map (fun c => fst (split_cell (delimiter_list delims) c)) col)
              :: (out2, map (fun c => snd (split_cell (delimiter_list delims) c)) col)
              :: (input, col) :: post)
    with (pre ++ new ++ (input, col) :: post).
  assert (Hmem : mem_str input (columns (pre ++ new ++ (input, col) :: post)) = true).
  { apply mem_str_In. unfold columns. rewrite !map_app. apply in_or_app. right.
    apply in_or_app. right. now left. }
  rewrite Hmem. unfold alloc. rewrite length_insert.
  rewrite without_around; [reflexivity|assumption|assumption|].
  unfold new. cbn. intros [H|[H|[]]]; subst.
  - apply Hout1. exact Hin.
  - apply Hout2. exact Hin.
Qed.

Lemma starts_with_prefix (d q : pystr) : starts_with d (d ++ q) = true.
Proof. induction d as [|a d IH]; cbn; [reflexivity|]. now rewrite Ascii.eqb_refl. Qed.

(** No delimiter starts before the first occurrence. *)
Lemma first_occurrence_leftmost (ds : list pystr) : forall s pre_rev before d after,
  first_occurrence ds pre_rev s = Some (before, d, after) ->
  forall d' p q, In d' ds -> s = p ++ d' ++ q ->
    length before <= length pre_rev + length p.
Proof.
  induction s as [|c t IH]; intros pre_rev before d after H d' p q Hin Hs;
    cbn [first_occurrence] in H.
  - destruct (find (fun d => starts_with d []) ds); [|discriminate].
    injection H as <- <- <-. rewrite length_rev. lia.
  - destruct (find (fun d => starts_with d (c :: t)) ds) eqn:E.
    + injection H as <- <- <-. rewrite length_rev. lia.
    + destruct p as [|c' p].
      * exfalso. pose proof (find_none _ _ E _ Hin) as Hf. cbn beta in Hf.
        rewrite Hs in Hf. cbn [app] in Hf. now rewrite starts_with_prefix in Hf.
      * injection Hs as <- Hs.
        specialize (IH _ _ _ _ H d' p q Hin Hs). cbn [length] in *. lia.
Qed.

(** Without an occurrence, no delimiter occurs. *)
Lemma first_occurrence_none (ds : list pystr) : forall s pre_rev,
  first_occurrence ds pre_rev s = None ->
  forall d' p q, In d' ds -> s <> p ++ d' ++ q.
Proof.
  induction s as [|c t IH]; intros pre_rev H d' p q Hin Hs;
    cbn [first_occurrence] in H.
  - destruct (find (fun d => starts_with d []) ds) eqn:E; [discriminate|].
    pose proof (find_none _ _ E _ Hin) as Hf. cbn beta in Hf.
    destruct p; [|discriminate]. cbn [app] in Hs. rewrite Hs in Hf.
    now rewrite starts_with_prefix in Hf.
  - destruct (find (fun d => starts_with d (c :: t)) ds) eqn:E; [discriminate|].
    destruct p as [|c' p].
    + pose proof (find_none _ _ E _ Hin) as Hf. cbn beta in Hf.
      rewrite Hs in Hf. cbn [app] in Hf. now rewrite starts_with_prefix in Hf.
    + injection Hs as <- Hs. exact (IH _ H d' p q Hin Hs).
Qed.

Lemma take_drop_while (p : ascii -> bool) (s : pystr) :
  s = take_while p s ++ drop_while p s /\ forallb p (take_while p s) = true.
Proof.
  induction s as [|c t [IH1 IH2]]; [split; reflexivity|].
  cbn [take_while drop_while]. destruct (p c) eqn:Hc.
  - cbn [app forallb]. rewrite Hc, IH2. split; [now f_equal|reflexivity].
  - split; reflexivity.
Qed.

Lemma forallb_rev (p : ascii -> bool) (s : pystr) :
  forallb p (rev s) = forallb p s.
Proof.
  induction s as [|c s IH]; [reflexivity|].
  cbn [rev forallb]. rewrite forallb_app, IH. cbn [forallb].
  rewrite andb_true_r. apply andb_comm.
Qed.

(** What [strip] removes is whitespace at the two ends; everything between
    stays. *)
Lemma strip_decompose (s : pystr) :
  exists w1 w2, blank w1 /\ blank w2 /\ s = w1 ++ strip s ++ w2.
Proof.
  unfold strip, strip_with, blank.
  destruct (take_drop_while isspace s) as [Hs Hw1].
  destruct (take_drop_while isspace (rev (drop_while isspace s))) as [Hr Hw2].
  exists (take_while isspace s),
         (rev (take_while isspace (rev (drop_while isspace s)))).
  split; [exact Hw1|]. split; [now rewrite forallb_rev|].
  rewrite <- rev_app_distr, <- Hr, rev_involutive. exact Hs.
Qed.

(** C3, as amended.  For a non-empty list of delimiters, tried in the
    order of the list, on a table with distinct labels, output labels not
    yet in use and a text cell that contains a delimiter,
    [split_column_on_delimiter] returns a new table with the two output
    columns in the place of the input column and the other columns in
    their order.  A text cell with a delimiter is split once, at the
    leftmost place where a delimiter begins, and both parts are trimmed:
    the second output is everything after that place, later delimiters
    included, without the whitespace at its two ends.  A cell whose text
    has no delimiter gives the empty text and the cell itself. *)
Theorem split_column_on_delimiter_replaces_the_column (df : loc)
    (input out1 out2 : pystr) (delims : delimiters) (h : heap) (d : DataFrame) :
  h !! df = Some d ->
  List.NoDup (columns d) ->
  In input (columns d) ->
  ~ In out1 (columns d) -> ~ In out2 (columns d) -> out1 <> out2 ->
  delimiter_list delims <> [] ->
  some_cell_splits (delimiter_list delims) (column input d) ->
  let ds := delimiter_list delims in
  let new := [ (out1, map (fun c => fst (split_cell ds c)) (column input d));
               (out2, map (fun c => snd (split_cell ds c)) (column input d)) ] in
  fst (split_column_on_delimiter df input out1 out2 delims h) = Ok (length h)
  /\ snd (split_column_on_delimiter df input out1 out2 delims h) !! length h
     = Some (replace_column input new d)
  /\ (forall s before dl after,
        first_occurrence ds [] s = Some (before, dl, after) ->
        split_cell ds (Str s) = (Str (strip before), Str (strip after))
        /\ In dl ds /\ s = before ++ dl ++ after
        /\ (forall d' p q, In d' ds -> s = p ++ d' ++ q -> length before <= length p)
        /\ (exists w1 w2, blank w1 /\ blank w2 /\ after = w1 ++ strip after ++ w2))
  /\ (forall c, first_occurrence ds [] (cell_str c) = None ->
        split_cell ds c = (Str [], c)
        /\ (forall d' p q, In d' ds -> cell_str c <> p ++ d' ++ q)).
Proof.
  intros Hd Hnd Hin Hout1 Hout2 Hne Hds Hsome. cbv zeta.
  rewrite (split_column_on_delimiter_result df input out1 out2 delims h d)
    by assumption.
  cbn [fst snd]. split; [reflexivity|]. split.
  - rewrite lookup_app_r by (rewrite length_insert; lia).
    rewrite length_insert, Nat.sub_diag. reflexivity.
  - split.
    + intros s before dl after Hocc. unfold split_cell. cbn [cell_str]. rewrite Hocc.
      split; [reflexivity|].
      destruct (first_occurrence_app _ _ _ _ _ _ Hocc) as [Hdl Hs].
      split; [exact Hdl|]. split; [exact Hs|]. split; [|apply strip_decompose].
      intros d' p q Hd' Hp.
      exact (first_occurrence_leftmost _ _ _ _ _ _ Hocc d' p q Hd' Hp).
    + intros c Hnone. unfold split_cell. rewrite Hnone. split; [reflexivity|].
      exact (first_occurrence_none _ _ _ Hnone).
Qed.

Lemma split_column_on_delimiter_witness :
  fst (split_column_on_delimiter 0 (str "Measure") (str "Measure code")
         (str "Measure name") (One (str ".")) [example_composite]) = Ok 1
  /\ snd (split_column_on_delimiter 0 (str "Measure") (str "Measure code")
            (str "Measure name") (One (str ".")) [example_composite]) !! 1
     = Some [ (str "Measure code", [Str (str "B1"); Str []]);
              (str "Measure name", [Str (str "Score"); Str (str "B2")]);
              (str "Value", [Str (str "1"); NaN]) ].
Proof.
  assert (Hsome : some_cell_splits [str "."] (column (str "Measure") example_composite)).
  { exists (str "B1. Score"). split; [now left|vm_compute; discriminate]. }
  destruct (split_column_on_delimiter_replaces_the_column 0 (str "Measure")
              (str "Measure code") (str "Measure name") (One (str "."))
              [example_composite] example_composite eq_refl)
    as (H1 & H2 & _).
  - repeat constructor; cbn; intuition discriminate.
  - cbn. now left.
  - cbn. intuition discriminate.
  - cbn. intuition discriminate.
  - discriminate.
  - discriminate.
  - exact Hsome.
  - split; [exact H1|exact H2].
Defined.

(** C3 as stated fails: the order of the delimiters matters.  The lists
    ["-"; "--"] and ["--"; "-"] are the same set of delimiters, and split
    the cell "A--B" differently. *)
Lemma delimiter_order_matters :
  let h := [[(str "Measure", [Str (str "A--B")])]] in
  snd (split_column_on_delimiter 0 (str "Measure") (str "Measure code")
         (str "Measure name") (Many [str "-"; str "--"]) h) !! 1
  = Some [ (str "Measure code", [Str (str "A")]);
           (str "Measure name", [Str (str "-B")]) ]
  /\ snd (split_column_on_delimiter 0 (str "Measure") (str "Measure code")
            (str "Measure name") (Many [str "--"; str "-"]) h) !! 1
     = Some [ (str "Measure code", [Str (str "A")]);
              (str "Measure name", [Str (str "B")]) ].
Proof. split; vm_compute; reflexivity. Qed.

(** A later delimiter does not always stay in the second output: with the
    delimiters "." and line break, the line break after the first
    delimiter is whitespace at the front of the rest, and is trimmed. *)
Lemma later_delimiter_is_trimmed_away :
  snd (split_column_on_delimiter 0 (str "Measure") (str "Measure code")
         (str "Measure name") (Many [str "."; ["010"%char]])
         [[(str "Measure", [Str (str "B01." ++ "010"%char :: str "I like my work")])]])
    !! 1
  = Some [ (str "Measure code", [Str (str "B01")]);
           (str "Measure name", [Str (str "I like my work")]) ].
Proof. vm_compute. reflexivity. Qed.

(** When no cell of the column contains a delimiter, the expanded split
    has one column, [new_col2] is the string [""], and [new_col2.where]
    raises. *)
Lemma split_column_on_delimiter_without_any_delimiter :
  split_column_on_delimiter 0 (str "Demographic variable")
    (str "Demographic variable code") (str "Demographic variable name")
    (One (str ".")) [[(str "Demographic variable", [Str (str "NoDelimiterHere")])]]
  = (Raise (AttributeError (str "'str' object has no attribute 'where'")),
     [[(str "Demographic variable", [Str (str "NoDelimiterHere")])]]).
Proof. vm_compute. reflexivity. Qed.

(** C4, as amended.  For a text cell that contains a delimiter, the two
    outputs of [split_column_on_delimiter] are the text before and the text
    after the first delimiter found, both trimmed; when neither has leading
    or trailing whitespace, the first output, that delimiter and the second
    output together are the cell's text again. *)
Theorem delimiter_round_trip_up_to_trimming (df : loc)
    (input out1 out2 : pystr) (delims : delimiters) (h : heap) (d : DataFrame) :
  h !! df = Some d ->
  List.NoDup (columns d) ->
  In input (columns d) ->
  ~ In out1 (columns d) -> ~ In out2 (columns d) -> out1 <> out2 ->
  delimiter_list delims <> [] ->
  some_cell_splits (delimiter_list delims) (column input d) ->
  let ds := delimiter_list delims in
  snd (split_column_on_delimiter df input out1 out2 delims h) !! length h
  = Some (replace_column input
            [ (out1, map (fun c => fst (split_cell ds c)) (column input d));
              (out2, map (fun c => snd (split_cell ds c)) (column input d)) ] d)
  /\ forall s, first_occurrence ds [] s <> None ->
       exists before dl after,
         split_cell ds (Str s) = (Str (strip before), Str (strip after))
         /\ In dl ds
         /\ s = before ++ dl ++ after
         /\ (strip before = before -> strip after = after ->
             strip before ++ dl ++ strip after = s).
Proof.
  intros Hd Hnd Hin Hout1 Hout2 Hne Hds Hsome. cbv zeta.
  rewrite (split_column_on_delimiter_result df input out1 out2 delims h d)
    by assumption.
  cbn [snd]. split.
  - rewrite lookup_app_r by (rewrite length_insert; lia).
    rewrite length_insert, Nat.sub_diag. reflexivity.
  - intros s Hs.
    destruct (first_occurrence (delimiter_list delims) [] s) as [[[before dl] after]|] eqn:Hocc;
      [|congruence].
    exists before, dl, after. unfold split_cell. cbn [cell_str]. rewrite Hocc.
    split; [reflexivity|].
    destruct (first_occurrence_app _ _ _ _ _ _ Hocc) as [Hdl Hbs].
    cbn [rev app] in Hbs.
    split; [exact Hdl|]. split; [exact Hbs|].
    intros Hb Ha. rewrite Hb, Ha. symmetry. exact Hbs.
Qed.

Lemma delimiter_round_trip_witness :
  snd (split_column_on_delimiter 0 (str "Measure") (str "Measure code")
         (str "Measure name") (One (str ".")) [example_composite]) !! 1
  = Some [ (str "Measure code", [Str (str "B1"); Str []]);
           (str "Measure name", [Str (str "Score"); Str (str "B2")]);
           (str "Value", [Str (str "1"); NaN]) ].
Proof.
  assert (Hsome : some_cell_splits [str "."] (column (str "Measure") example_composite)).
  { exists (str "B1. Score"). split; [now left|vm_compute; discriminate]. }
  destruct (delimiter_round_trip_up_to_trimming 0 (str "Measure")
              (str "Measure code") (str "Measure name") (One (str "."))
              [example_composite] example_composite eq_refl)
    as (H1 & _).
  - repeat constructor; cbn; intuition discriminate.
  - cbn. now left.
  - cbn. intuition discriminate.
  - cbn. intuition discriminate.
  - discriminate.
  - discriminate.
  - exact Hsome.
  - exact H1.
Defined.

(** C4 as stated fails: the outputs are trimmed, so the blank after the
    delimiter is lost. *)
Lemma delimiter_round_trip_loses_whitespace :
  exists left right,
    snd (split_column_on_delimiter 0 (str "Demographic variable")
           (str "Demographic variable code") (str "Demographic variable name")
           (One (str ".")) [[(str "Demographic variable", [Str (str "A1. Age")])]]) !! 1
    = Some [ (str "Demographic variable code", [Str left]);
             (str "Demographic variable name", [Str right]) ]
    /\ left ++ str "." ++ right <> str "A1. Age".
Proof.
  exists (str "A1"), (str "Age"). split; [vm_compute; reflexivity|].
  vm_compute. discriminate.
Qed.

(** ** The Variable Annotation Parser *)

Lemma isspace_newline (c : ascii) : is_newline c = true -> isspace c = true.
Proof. unfold is_newline. intros H. apply Ascii.eqb_eq in H. now subst. Qed.

Lemma isspace_not_open (c : ascii) : isspace c = true -> Ascii.eqb "(" c = false.
Proof. destruct c as [[] [] [] [] [] [] [] []]; vm_compute; congruence. Qed.

Section Annotation.
Variable subject : pystr.

Let K0 : cont (pystr * captures) := fun suf caps => Some (suf, caps).

(** [\s*$] *)
Lemma exec_trailing_whitespace (r : pystr) (caps : captures) :
  exec subject (Cat (Star true ws) Eol) r caps K0
  = if forallb isspace r then Some ([], caps) else None.
Proof.
  rewrite exec_cat. unfold ws. rewrite exec_star_greedy.
  induction r as [|c t IH]; [reflexivity|].
  cbn [greedy_class forallb]. destruct (isspace c) eqn:Hc; cbn [andb].
  - rewrite IH. destruct (forallb isspace t) eqn:Ht; [reflexivity|].
    cbn [exec]. destruct t as [|c' t']; [discriminate Ht|reflexivity].
  - cbn [exec]. destruct t as [|c' t']; [|reflexivity].
    destruct (Ascii.eqb c "010") eqn:E; [|reflexivity].
    rewrite (isspace_newline c E) in Hc. discriminate.
Qed.

(** [\)\s*$] *)
Lemma exec_closing (suf : pystr) (caps : captures) :
  exec subject (cats [chr ")"; Star true ws; Eol]) suf caps K0
  = if closes suf then Some ([], caps) else None.
Proof.
  cbn [cats]. rewrite exec_cat. unfold chr at 1. rewrite exec_class.
  destruct suf as [|c r]; [reflexivity|]. cbn [closes].
  rewrite (Ascii.eqb_sym ")" c). destruct (Ascii.eqb c ")"); [|reflexivity].
  cbn [andb]. apply exec_trailing_whitespace.
Qed.

(** [(.*?)\)\s*$] after the text [pre] of the group *)
Lemma lazy_content (n : nat) : forall suf pre caps,
  lazy_class (fun c => negb (Ascii.eqb c "010"))
    (fun suf' caps' =>
       exec subject (cats [chr ")"; Star true ws; Eol]) suf'
         ((n, firstn (length (pre ++ suf) - length suf') (pre ++ suf)) :: caps') K0)
    suf caps
  = match shortest_content pre suf with
    | Some content => Some ([], (n, content) :: caps)
    | None => None
    end.
Proof.
  induction suf as [|c t IH]; intros pre caps.
  - cbn [lazy_class shortest_content]. rewrite exec_closing. reflexivity.
  - cbn [lazy_class shortest_content]. rewrite exec_closing.
    destruct (closes (c :: t)).
    + rewrite length_app. replace (length pre + length (c :: t) - length (c :: t))
        with (length pre) by lia.
      now rewrite take_app_length.
    + unfold is_newline. destruct (Ascii.eqb c "010"); cbn [negb]; [reflexivity|].
      rewrite <- (IH (pre ++ [c]) caps).
      f_equal. rewrite <- app_assoc. reflexivity.
Qed.

(** [\s*\((.*?)\)\s*$] *)
Lemma exec_parenthetical (suf : pystr) (caps : captures) :
  exec subject
    (cats [Star true ws; chr "("; Group 2 (Star false dot); chr ")"; Star true ws; Eol])
    suf caps K0
  = match parenthetical_at suf with
    | Some content => Some ([], (2, content) :: caps)
    | None => None
    end.
Proof.
  change (cats [Star true ws; chr "("; Group 2 (Star false dot); chr ")"; Star true ws; Eol])
    with (Cat (Star true ws)
              (Cat (chr "(") (Cat (Group 2 (Star false dot))
                                  (cats [chr ")"; Star true ws; Eol])))).
  rewrite exec_cat. unfold ws. rewrite exec_star_greedy, greedy_class_skip.
  2:{ intros c t caps' Hc. rewrite exec_cat. unfold chr. rewrite exec_class.
      now rewrite (isspace_not_open c Hc). }
  unfold parenthetical_at. rewrite exec_cat. unfold chr at 1. rewrite exec_class.
  destruct (drop_while isspace suf) as [|c s']; [reflexivity|].
  rewrite (Ascii.eqb_sym "(" c). destruct (Ascii.eqb c "("); [|reflexivity].
  rewrite exec_cat, exec_group. unfold dot. rewrite exec_star_lazy.
  exact (lazy_content 2 s' [] caps).
Qed.
End Annotation.

(** [(.+?)] followed by the rest, after the text [pre] of the group *)
Lemma lazy_main (subject : pystr) : forall suf pre,
  lazy_class (fun c => negb (Ascii.eqb c "010"))
    (fun suf' caps' =>
       exec subject
         (cats [Star true ws; chr "("; Group 2 (Star false dot); chr ")"; Star true ws; Eol])
         suf' ((1, firstn (length (pre ++ suf) - length suf') (pre ++ suf)) :: caps')
         (fun s c => Some (s, c)))
    suf []
  = match shortest_main pre suf with
    | Some (main, content) => Some ([], [(2, content); (1, main)])
    | None => None
    end.
Proof.
  induction suf as [|c t IH]; intros pre.
  - cbn [lazy_class shortest_main]. rewrite exec_parenthetical.
    destruct (parenthetical_at []); [|reflexivity].
    rewrite app_nil_r, Nat.sub_0_r, firstn_all. reflexivity.
  - cbn [lazy_class shortest_main]. rewrite exec_parenthetical.
    destruct (parenthetical_at (c :: t)).
    + rewrite length_app. replace (length pre + length (c :: t) - length (c :: t))
        with (length pre) by lia.
      now rewrite take_app_length.
    + unfold is_newline. destruct (Ascii.eqb c "010"); cbn [negb]; [reflexivity|].
      rewrite <- (IH (pre ++ [c])).
      f_equal. rewrite <- app_assoc. reflexivity.
Qed.

Lemma annotation_pattern_match (value : pystr) :
  re_match Demographic.annotation_pattern value
  = match parse_annotation value with
    | Some (main, content) => Some ([], [(2, content); (1, main)])
    | None => None
    end.
Proof.
  unfold re_match, re_match_at, Demographic.annotation_pattern.
  change (cats [Bol; Group 1 (plus false dot); Star true ws; chr "(";
                Group 2 (Star false dot); chr ")"; Star true ws; Eol])
    with (Cat Bol (Cat (Group 1 (plus false dot))
                       (cats [Star true ws; chr "("; Group 2 (Star false dot);
                              chr ")"; Star true ws; Eol]))).
  rewrite exec_cat, exec_bol, Nat.eqb_refl, exec_cat, exec_group.
  unfold plus. rewrite exec_cat. unfold dot at 1. rewrite exec_class.
  unfold parse_annotation, is_newline.
  destruct value as [|c t]; [reflexivity|].
  destruct (Ascii.eqb c "010"); cbn [negb]; [reflexivity|].
  unfold dot. rewrite exec_star_lazy.
  exact (lazy_main (c :: t) t [c]).
Qed.

Lemma re_sub_phrase (p subject : pystr) :
  p <> [] ->
  forall fuel suf,
    re_sub_from fuel (lit_ci p) subject suf = remove_phrase_from fuel p suf.
Proof.
  intros Hp. induction fuel as [|fuel IH]; intros suf; [reflexivity|].
  cbn [re_sub_from remove_phrase_from]. unfold re_match_at. rewrite exec_lit_ci.
  destruct (starts_with_ci p suf) eqn:E.
  - replace (length (skipn (length p) suf) <? length suf) with true; [apply IH|].
    symmetry. apply Nat.ltb_lt. rewrite length_skipn.
    destruct p as [|a p]; [congruence|].
    destruct suf as [|b t]; [discriminate E|]. cbn [length]. lia.
  - destruct suf as [|c t]; [reflexivity|]. f_equal. apply IH.
Qed.

Lemma split_row_variable_annotation (value : cell) :
  Demographic.split_row value = variable_annotation (cell_str value).
Proof.
  unfold Demographic.split_row, variable_annotation.
  rewrite annotation_pattern_match.
  destruct (parse_annotation (cell_str value)) as [[main content]|]; [|reflexivity].
  cbn [group Nat.eqb].
  destruct (contains (str "derived from") (str_lower (strip content))); [|reflexivity].
  f_equal. f_equal. unfold re_sub, remove_phrase, Demographic.derived_from_pattern.
  apply re_sub_phrase. discriminate.
Qed.

Lemma drop_while_blank (w r : pystr) (c : ascii) :
  forallb isspace w = true -> isspace c = false ->
  drop_while isspace (w ++ c :: r) = c :: r.
Proof.
  intros Hw Hc. induction w as [|x w IH]; cbn [app drop_while].
  - now rewrite Hc.
  - cbn [forallb] in Hw. apply andb_true_iff in Hw as [Hx Hw]. rewrite Hx. now apply IH.
Qed.

Lemma single_line_app (a b : pystr) :
  single_line (a ++ b) <-> single_line a /\ single_line b.
Proof. unfold single_line. rewrite forallb_app. apply andb_true_iff. Qed.

Lemma shortest_content_sound : forall s pre content,
  shortest_content pre s = Some content ->
  exists x w2, content = pre ++ x /\ s = x ++ ")"%char :: w2
               /\ single_line x /\ blank w2.
Proof.
  induction s as [|c t IH]; intros pre content H; cbn [shortest_content] in H.
  - cbn [closes] in H. discriminate.
  - destruct (closes (c :: t)) eqn:Hcl.
    + injection H as <-. cbn [closes] in Hcl.
      apply andb_true_iff in Hcl as [Hc Hw]. apply Ascii.eqb_eq in Hc. subst c.
      exists [], t. rewrite app_nil_r. repeat split; auto.
    + destruct (is_newline c) eqn:Hn; [discriminate|].
      apply IH in H as (x & w2 & -> & -> & Hx & Hw).
      exists (c :: x), w2. rewrite <- app_assoc. repeat split; auto.
      unfold single_line in *. cbn [forallb]. now rewrite Hn, Hx.
Qed.

Lemma shortest_content_complete : forall x pre w2,
  single_line x -> blank w2 ->
  shortest_content pre (x ++ ")"%char :: w2) <> None.
Proof.
  induction x as [|c x IH]; intros pre w2 Hx Hw.
  - cbn [app shortest_content closes]. rewrite Ascii.eqb_refl, Hw. discriminate.
  - cbn [app shortest_content]. destruct (closes (c :: x ++ ")"%char :: w2));
      [discriminate|].
    unfold single_line in Hx. cbn [forallb] in Hx.
    apply andb_true_iff in Hx as [Hc Hx]. apply negb_true_iff in Hc. rewrite Hc.
    now apply IH.
Qed.

Lemma parenthetical_at_sound (s content : pystr) :
  parenthetical_at s = Some content ->
  exists w1 w2, s = w1 ++ "("%char :: content ++ ")"%char :: w2
                /\ single_line content /\ blank w1 /\ blank w2.
Proof.
  unfold parenthetical_at. intros H.
  destruct (take_drop_while isspace s) as [Hs Hw1].
  destruct (drop_while isspace s) as [|c s'] eqn:Hd; [discriminate|].
  destruct (Ascii.eqb c "(") eqn:Hc; [|discriminate].
  apply Ascii.eqb_eq in Hc. subst c.
  apply shortest_content_sound in H as (x & w2 & -> & -> & Hx & Hw2).
  exists (take_while isspace s), w2. cbn [app]. repeat split; auto.
Qed.

Lemma parenthetical_at_complete (w1 content w2 : pystr) :
  blank w1 -> single_line content -> blank w2 ->
  parenthetical_at (w1 ++ "("%char :: content ++ ")"%char :: w2) <> None.
Proof.
  intros Hw1 Hc Hw2. unfold parenthetical_at.
  rewrite drop_while_blank by (exact Hw1 || reflexivity).
  rewrite Ascii.eqb_refl. now apply shortest_content_complete.
Qed.

Lemma shortest_main_sound : forall s pre main content,
  shortest_main pre s = Some (main, content) ->
  exists x rest, main = pre ++ x /\ s = x ++ rest /\ single_line x
                 /\ parenthetical_at rest = Some content.
Proof.
  induction s as [|c t IH]; intros pre main content H; cbn [shortest_main] in H.
  - destruct (parenthetical_at []) as [c0|] eqn:Hp; [|discriminate].
    injection H as <- <-. exists [], []. rewrite app_nil_r. repeat split; auto.
  - destruct (parenthetical_at (c :: t)) as [c0|] eqn:Hp.
    + injection H as <- <-. exists [], (c :: t). rewrite app_nil_r. repeat split; auto.
    + destruct (is_newline c) eqn:Hn; [discriminate|].
      apply IH in H as (x & rest & -> & -> & Hx & Hr).
      exists (c :: x), rest. rewrite <- app_assoc. repeat split; auto.
      unfold single_line in *. cbn [forallb]. now rewrite Hn, Hx.
Qed.

Lemma shortest_main_complete : forall x pre rest,
  single_line x -> parenthetical_at rest <> None ->
  exists main content,
    shortest_main pre (x ++ rest) = Some (main, content)
    /\ length main <= length (pre ++ x).
Proof.
  induction x as [|c x IH]; intros pre rest Hx Hr.
  - cbn [app]. destruct (parenthetical_at rest) as [content|] eqn:Hp; [|congruence].
    exists pre, content. split; [|rewrite app_nil_r; lia].
    destruct rest; cbn [shortest_main]; now rewrite Hp.
  - cbn [app shortest_main].
    destruct (parenthetical_at (c :: x ++ rest)) as [content|].
    + exists pre, content. split; [reflexivity|]. rewrite length_app. lia.
    + unfold single_line in Hx. cbn [forallb] in Hx.
      apply andb_true_iff in Hx as [Hc Hx]. apply negb_true_iff in Hc. rewrite Hc.
      destruct (IH (pre ++ [c]) rest Hx Hr) as (main & content & H & Hl).
      exists main, content. split; [exact H|].
      rewrite <- app_assoc in Hl. exact Hl.
Qed.

Lemma parse_annotation_sound (value main content : pystr) :
  parse_annotation value = Some (main, content) -> annotated value main content.
Proof.
  unfold parse_annotation. intros H. destruct value as [|c t]; [discriminate|].
  destruct (is_newline c) eqn:Hn; [discriminate|].
  apply shortest_main_sound in H as (x & rest & -> & -> & Hx & Hr).
  apply parenthetical_at_sound in Hr as (w1 & w2 & -> & Hc & Hw1 & Hw2).
  exists w1, w2. split; [|split; [|split; [|split; [|split]]]]; auto; try discriminate.
  unfold single_line in *. cbn [app forallb]. now rewrite Hn, Hx.
Qed.

Lemma parse_annotation_complete (value main content : pystr) :
  annotated value main content ->
  exists main' content',
    parse_annotation value = Some (main', content')
    /\ length main' <= length main.
Proof.
  intros (w1 & w2 & -> & Hne & Hm & Hc & Hw1 & Hw2).
  destruct main as [|c x]; [congruence|].
  unfold single_line in Hm. cbn [forallb] in Hm.
  apply andb_true_iff in Hm as [Hcn Hx]. apply negb_true_iff in Hcn.
  cbn [app parse_annotation]. rewrite Hcn.
  apply (shortest_main_complete x [c]); [exact Hx|].
  now apply parenthetical_at_complete.
Qed.

(** C5.  The docstring of [split_demographic_variable_name_column] says
    that a parenthetical that contains "derived from" is extracted.  The
    label below is a main text followed by such a parenthetical, and
    nothing is extracted from it: the main text has a line break, which
    [.] does not match, so the pattern fails and the whole text stays the
    label, with an empty provenance. *)
Lemma line_break_defeats_the_annotation :
  example_two_lines
  = (str "Age" ++ ["010"%char] ++ str "group") ++ str " ("
    ++ str "derived from: DOB" ++ str ")"
  /\ contains (str "derived from") (str_lower (str "derived from: DOB")) = true
  /\ Demographic.split_row (Str example_two_lines) = (example_two_lines, [])
  /\ split_demographic_variable_name_column 0 (str "Demographic variable name")
       [[(str "Demographic variable name", [Str example_two_lines])]]
     = (Ok 1,
        [ [(str "Demographic variable name", [Str example_two_lines])];
          [ (str "Demographic variable name", [Str example_two_lines]);
            (str "Derived from", [Str []]) ] ]).
Proof.
  split; [reflexivity|]. split; [reflexivity|].
  split; vm_compute; reflexivity.
Qed.

(** ** The Value Cleaner *)

Lemma exec_england (subject suf : pystr) (caps : captures) :
  exec subject england_pattern suf caps (fun s c => Some (s, c))
  = match england_tail suf with
    | Some r => Some (r, caps)
    | None => None
    end.
Proof.
  unfold england_pattern. cbn [cats]. rewrite exec_cat. unfold ws.
  rewrite exec_star_greedy, greedy_class_skip.
  2:{ intros c t caps' Hc. rewrite exec_cat, exec_lit.
      cbn [str list_ascii_of_string starts_with].
      now rewrite (isspace_not_open c Hc). }
  rewrite exec_cat, exec_lit. unfold england_tail. fold england.
  destruct (starts_with england (drop_while isspace suf)); [|reflexivity].
  cbn [exec]. destruct (skipn (length england) (drop_while isspace suf)) as [|c [|c' t]];
    try reflexivity.
  unfold is_newline. now destruct (Ascii.eqb c "010").
Qed.

Lemma england_tail_shape (s r : pystr) :
  england_tail s = Some r ->
  drop_while isspace s = england ++ r /\ (r = [] \/ r = ["010"%char]).
Proof.
  unfold england_tail. intros H.
  destruct (starts_with england (drop_while isspace s)) eqn:E; [|discriminate].
  apply starts_with_app in E. rewrite E at 1.
  destruct (skipn (length england) (drop_while isspace s)) as [|c [|c' t]];
    try discriminate.
  - injection H as <-. auto.
  - destruct (is_newline c) eqn:Hn; [|discriminate]. injection H as <-.
    apply Ascii.eqb_eq in Hn. subst. auto.
Qed.

Lemma re_sub_england (subject : pystr) : forall fuel suf,
  length suf < fuel ->
  re_sub_from fuel england_pattern subject suf = remove_england suf.
Proof.
  induction fuel as [|fuel IH]; intros suf Hf; [lia|].
  cbn [re_sub_from]. unfold re_match_at. rewrite exec_england.
  destruct (england_tail suf) as [r|] eqn:E.
  - destruct (england_tail_shape _ _ E) as [Hd Hr].
    assert (Hlen : length r < length suf).
    { destruct (take_drop_while isspace suf) as [Hs _].
      rewrite Hs, Hd, !length_app. cbn [england str list_ascii_of_string length].
      destruct Hr as [-> | ->]; cbn; lia. }
    apply Nat.ltb_lt in Hlen. rewrite Hlen.
    destruct suf as [|c t]; cbn [remove_england]; rewrite E.
    + destruct Hr as [-> | ->]; destruct fuel as [|[|f]]; reflexivity.
    + destruct Hr as [-> | ->]; destruct fuel as [|[|f]]; reflexivity.
  - destruct suf as [|c t]; cbn [remove_england]; rewrite E; [reflexivity|].
    f_equal. apply IH. cbn [length] in Hf. lia.
Qed.

Lemma str_replace_england (c : cell) :
  str_replace_cell england_pattern c
  = match c with Str s => Str (remove_england s) | NaN => NaN end.
Proof.
  destruct c as [s|]; [|reflexivity]. cbn [str_replace_cell]. f_equal.
  unfold re_sub. apply re_sub_england. lia.
Qed.

(** The suffix is removed with the whitespace in front of it. *)
Lemma remove_england_suffix (base w : pystr) :
  ends_without_whitespace base -> blank w ->
  remove_england (base ++ w ++ england) = base.
Proof.
  intros Hbase Hw. induction base as [|c b IH].
  - cbn [app].
    assert (E : england_tail (w ++ england) = Some []).
    { unfold england_tail.
      change (w ++ england) with (w ++ "("%char :: str "England)").
      rewrite (drop_while_blank w _ "("%char Hw eq_refl). reflexivity. }
    destruct (w ++ england); cbn [remove_england]; now rewrite E.
  - cbn [app remove_england].
    assert (E : england_tail (c :: b ++ w ++ england) = None).
    { destruct (england_tail (c :: b ++ w ++ england)) as [r|] eqn:E; [|reflexivity].
      exfalso. destruct (england_tail_shape _ _ E) as [Hd Hr].
      (* the value without its leading whitespace still has a solid part *)
      assert (Hx : exists x, x <> [] /\
                 drop_while isspace ((c :: b) ++ w ++ england) = x ++ w ++ england).
      { clear Hd E IH. remember (c :: b) as l eqn:Hl.
        assert (Hl' : l <> []) by (subst; discriminate). clear Hl.
        induction l as [|a l IHl]; [congruence|].
        cbn [app drop_while]. destruct (isspace a) eqn:Ha.
        - destruct l as [|a' l'].
          + exfalso. specialize (Hbase [] [a] eq_refl ltac:(discriminate)).
            cbn in Hbase. now rewrite Ha in Hbase.
          + apply IHl; [|discriminate].
            intros p q Hpq Hq. apply (Hbase (a :: p) q); [|exact Hq].
            cbn. now f_equal.
        - exists (a :: l). split; [discriminate|reflexivity]. }
      destruct Hx as (x & Hx & Hdx). cbn [app] in Hdx. rewrite Hdx in Hd.
      destruct Hr as [-> | ->].
      + rewrite app_nil_r in Hd. apply (f_equal (@length ascii)) in Hd.
        rewrite !length_app in Hd. destruct x; [congruence|]. cbn [length] in Hd. lia.
      + apply (f_equal (@rev ascii)) in Hd. rewrite !rev_app_distr in Hd.
        cbn in Hd. discriminate Hd. }
    rewrite E. f_equal. apply IH.
    intros p q Hpq Hq. apply (Hbase (c :: p) q); [|exact Hq]. cbn. now f_equal.
Qed.

(** A value that does not end with the suffix, nor with the suffix and a
    line break, stays. *)
Lemma remove_england_other (s : pystr) :
  ~ ends_with england s -> ~ ends_with (england ++ ["010"%char]) s ->
  remove_england s = s.
Proof.
  intros H1 H2.
  assert (Htail : forall p q, s = p ++ q -> england_tail q = None).
  { intros p q Hs. destruct (england_tail q) as [r|] eqn:E; [|reflexivity].
    exfalso. destruct (england_tail_shape _ _ E) as [Hd Hr].
    destruct (take_drop_while isspace q) as [Hq _]. rewrite Hd in Hq.
    destruct Hr as [-> | ->].
    - apply H1. exists (p ++ take_while isspace q).
      rewrite Hs, Hq at 1. rewrite app_nil_r. now rewrite <- app_assoc.
    - apply H2. exists (p ++ take_while isspace q).
      rewrite Hs, Hq at 1. now rewrite <- app_assoc. }
  clear H1 H2. induction s as [|c t IH].
  - cbn [remove_england]. now rewrite (Htail [] [] eq_refl).
  - cbn [remove_england]. rewrite (Htail [] (c :: t) eq_refl). f_equal.
    apply IH. intros p q Hs. apply (Htail (c :: p) q). cbn. now f_equal.
Qed.

Lemma transform_response_recase (val : cell) : transform_response val = recase val.
Proof.
  unfold transform_response, recase.
  destruct (split_ws (cell_str val)) as [|first rest]; [reflexivity|].
  destruct rest as [|w rest]; cbn [map join]; [now rewrite app_nil_r|reflexivity].
Qed.

Lemma replace_cell_empty (c : cell) : replace_cell ∅ c = c.
Proof. destruct c as [s|]; [|reflexivity]. cbn. now rewrite lookup_empty. Qed.

Lemma replace_cell_lookup (m : gmap pystr pystr) (c : cell) :
  replace_cell m c
  = match c with
    | Str s => Str (default s (m !! s))
    | NaN => NaN
    end.
Proof.
  destruct c as [s|]; [|reflexivity]. cbn [replace_cell].
  now destruct (m !! s).
Qed.

Lemma labelled_assign (n m : pystr) (col : series) (df : DataFrame) :
  labelled n (assign m col df)
  = if eqb_str m n then map (fun c => (fst c, col)) (labelled n df)
    else labelled n df.
Proof.
  unfold labelled, assign. induction df as [|[l c] df IH].
  - now destruct (eqb_str m n).
  - cbn [map List.filter fst]. destruct (eqb_str m l) eqn:Eml; cbn [fst].
    + apply eqb_str_eq in Eml. subst l.
      destruct (eqb_str n m) eqn:Enm.
      * apply eqb_str_eq in Enm. subst n. rewrite eqb_str_refl in *.
        cbn [map fst]. now rewrite IH.
      * rewrite IH. destruct (eqb_str m n) eqn:Emn; [|reflexivity].
        apply eqb_str_eq in Emn. subst. now rewrite eqb_str_refl in Enm.
    + destruct (eqb_str n l) eqn:Enl.
      * apply eqb_str_eq in Enl. subst l. rewrite Eml in *. now rewrite IH.
      * rewrite IH. reflexivity.
Qed.

Lemma assign_assign (m : pystr) (c1 c2 : series) (df : DataFrame) :
  assign m c2 (assign m c1 df) = assign m c2 df.
Proof.
  unfold assign. rewrite map_map. apply map_ext. intros [l c]. cbn [fst].
  destruct (eqb_str m l) eqn:E; cbn [fst]; now rewrite E.
Qed.

Lemma assign_same (m : pystr) (col : series) (df : DataFrame) :
  labelled m df = [(m, col)] -> assign m col df = df.
Proof.
  intros H. unfold assign. rewrite <- (map_id df) at 2. apply map_ext_in.
  intros [l c] Hin. cbn [fst]. destruct (eqb_str m l) eqn:E; [|reflexivity].
  assert (Hl : In (l, c) (labelled m df)).
  { unfold labelled. apply filter_In. split; [exact Hin|exact E]. }
  rewrite H in Hl. destruct Hl as [Hl|[]]. now injection Hl as <- <-.
Qed.

Lemma getitem_unique (df : DataFrame) (n : pystr) (col : series) :
  labelled n df = [(n, col)] -> getitem df n = Ok col.
Proof. unfold getitem. now intros ->. Qed.

Lemma where_series_rows (f : cell -> cell) (g : cell -> bool) :
  forall (names rs : series),
    where_series (map f rs) (map g names) rs
    = clean_rows (fun n r => if g n then f r else r) names rs.
Proof.
  induction names as [|n ns IH]; intros [|r rs]; cbn; try reflexivity.
  now rewrite IH.
Qed.

Lemma clean_rows_ext (f g : cell -> cell -> cell) :
  (forall n r, f n r = g n r) ->
  forall names rs, clean_rows f names rs = clean_rows g names rs.
Proof.
  intros H. induction names as [|n ns IH]; intros [|r rs]; cbn; try reflexivity.
  now rewrite H, IH.
Qed.

Lemma clean_rows_map (f : cell -> cell -> cell) (k : cell -> cell) :
  forall names rs, clean_rows f names (map k rs)
                   = clean_rows (fun n r => f n (k r)) names rs.
Proof.
  induction names as [|n ns IH]; intros [|r rs]; cbn; try reflexivity.
  now rewrite IH.
Qed.

(** The first two steps of [clean_data]. *)
Lemma clean_data_first_steps (df : loc) (mapping : option (gmap pystr pystr))
    (h : heap) (d : DataFrame) (responses : series) (k : M loc) :
  h !! df = Some d ->
  labelled (str "Response") d = [(str "Response", responses)] ->
  let cleaned := map (clean_response mapping None NaN) responses in
  (run (match nonempty_mapping mapping with
        | Some m =>
            do d <- load df;
            do response <- lift (getitem d (str "Response"));
            store df (assign (str "Response") (map (replace_cell m) response) d)
        | None => ret tt
        end);
   do d <- load df;
   do response <- lift (getitem d (str "Response"));
   run store df (assign (str "Response")
                   (map (str_replace_cell england_pattern) response) d);
   k) h
  = k (<[df := assign (str "Response") cleaned d]> h).
Proof.
  intros Hd Hresp. cbv zeta.
  assert (Hl : df < length h) by (apply lookup_lt_is_Some; eauto).
  set (r1 := map (replace_cell (default ∅ mapping)) responses).
  assert (Hstep1 :
    (match nonempty_mapping mapping with
     | Some m =>
         do d <- load df;
         do response <- lift (getitem d (str "Response"));
         store df (assign (str "Response") (map (replace_cell m) response) d)
     | None => ret tt
     end) h = (Ok tt, <[df := assign (str "Response") r1 d]> h)).
  { unfold nonempty_mapping, r1. destruct mapping as [m|].
    - destruct (decide (m = ∅)) as [->|Hm].
      + unfold ret. f_equal. cbn [default from_option]. unfold id.
        rewrite (map_ext _ (fun c => c)) by apply replace_cell_empty.
        rewrite map_id, (assign_same _ _ _ Hresp).
        symmetry. now apply list_insert_id.
      + unfold bind, load, lift, store. cbn beta iota. rewrite Hd.
        cbn [default from_option]. unfold id.
        now rewrite (getitem_unique _ _ _ Hresp).
    - unfold ret. f_equal. cbn [default from_option].
      rewrite (map_ext _ (fun c => c)) by apply replace_cell_empty.
      rewrite map_id, (assign_same _ _ _ Hresp).
      symmetry. now apply list_insert_id. }
  unfold bind at 1. rewrite Hstep1. cbn beta iota.
  unfold bind at 1. unfold load at 1. cbn beta iota.
  rewrite list_lookup_insert_eq by exact Hl. cbn [default from_option]. unfold id.
  unfold bind at 1. unfold lift at 1.
  rewrite (getitem_unique _ _ r1).
  2:{ rewrite labelled_assign, eqb_str_refl, Hresp. reflexivity. }
  cbn beta iota. unfold bind at 1. unfold store at 1. cbn beta iota.
  rewrite list_insert_insert_eq, assign_assign.
  f_equal. f_equal. f_equal. unfold r1. rewrite map_map. apply map_ext.
  intros c. rewrite str_replace_england, replace_cell_lookup. reflexivity.
Qed.

(** X20.  [clean_data] changes the Response column only, in
    the table it was given, in three steps: a Response equal to a key of
    the mapping becomes its value; "(England)" and the whitespace in front
    of it are removed at the end of a text Response (or in front of its one
    final line break); and, when a non-empty target is given, in the rows
    whose Demographic variable name is the target the text of the Response
    keeps its first word, has its other words in lower case and single
    spaces between them, where a Response whose text has no words stays and
    a missing Response has the text [nan]. *)
Theorem clean_data_cleans_the_response (df : loc)
    (mapping : option (gmap pystr pystr)) (target : option pystr)
    (h : heap) (d : DataFrame) (responses names : series) :
  h !! df = Some d ->
  labelled (str "Response") d = [(str "Response", responses)] ->
  (nonempty_str target <> None ->
   labelled (str "Demographic variable name") d
   = [(str "Demographic variable name", names)]) ->
  clean_data df mapping target h
  = (Ok df,
     <[df := assign (str "Response")
               (clean_column mapping target names responses) d]> h)
  /\ (forall n col, n <> str "Response" ->
        labelled n (assign (str "Response") col d) = labelled n d)
  /\ (forall base w, ends_without_whitespace base -> blank w ->
        remove_england (base ++ w ++ england) = base)
  /\ (forall s, ~ ends_with england s -> ~ ends_with (england ++ ["010"%char]) s ->
        remove_england s = s).
Proof.
  intros Hd Hresp Hnames.
  assert (Hl : df < length h) by (apply lookup_lt_is_Some; eauto).
  split; [|split; [|split]].
  - unfold clean_data. rewrite (clean_data_first_steps df mapping h d responses _ Hd Hresp).
    cbv zeta. unfold clean_column.
    destruct (nonempty_str target) as [t|] eqn:Ht; [|reflexivity].
    specialize (Hnames ltac:(congruence)).
    set (r2 := map (clean_response mapping None NaN) responses).
    unfold lowercase_response_except_first_word.
    unfold bind at 1. unfold load at 1. cbn beta iota.
    rewrite list_lookup_insert_eq by exact Hl. cbn [default from_option]. unfold id.
    unfold bind at 1. unfold lift at 1.
    rewrite (getitem_unique _ _ names).
    2:{ rewrite labelled_assign. now change (eqb_str (str "Response")
                                             (str "Demographic variable name")) with false. }
    cbn beta iota. unfold bind at 1. unfold lift at 1.
    rewrite (getitem_unique _ _ r2).
    2:{ rewrite labelled_assign, eqb_str_refl, Hresp. reflexivity. }
    cbn beta iota. unfold bind at 1. unfold store at 1, ret. cbn beta iota.
    rewrite list_insert_insert_eq, assign_assign.
    f_equal. f_equal. f_equal.
    rewrite (where_series_rows transform_response
               (fun c => match c with Str s => eqb_str s t | NaN => false end)).
    unfold r2. rewrite clean_rows_map. apply clean_rows_ext.
    intros n r. unfold nonempty_str in Ht.
    destruct target as [[|c t']|]; try discriminate. injection Ht as <-.
    unfold clean_response. cbn [default from_option].
    rewrite transform_response_recase.
    destruct n as [s|]; reflexivity.
  - intros n col Hn. rewrite labelled_assign.
    destruct (eqb_str (str "Response") n) eqn:E; [|reflexivity].
    apply eqb_str_eq in E. congruence.
  - apply remove_england_suffix.
  - apply remove_england_other.
Qed.

Lemma clean_data_witness :
  clean_data 0 (Some example_mapping) (Some (str "Work")) [example_long]
  = (Ok 0,
     [[ (str "Demographic variable name",
         [Str (str "Grade"); Str (str "Work"); Str (str "Region")]);
        (str "Response",
         [Str (str "HEO/SEO"); Str (str "FULL time work"); Str (str "London")]);
        (str "Value", [Str (str "1"); Str (str "2"); NaN]) ]]).
Proof.
  destruct (clean_data_cleans_the_response 0 (Some example_mapping)
              (Some (str "Work")) [example_long] example_long
              [Str (str "SEO/HEO"); Str (str "FULL TIME WORK"); Str (str "London (England)")]
              [Str (str "Grade"); Str (str "Work"); Str (str "Region")]
              eq_refl eq_refl (fun _ => eq_refl)) as [H _].
  rewrite H. vm_compute. reflexivity.
Defined.

(** C8.  [lowercase_response_except_first_word] returns a value without
    words as it is ([if not words: return val]), and a missing Response has
    no words.  In a row of the target demographic the missing Response
    does not stay as it is: the value is turned into text before the words
    are counted, so the guard is passed and the Response becomes the text
    "nan". *)
Lemma missing_response_becomes_text :
  clean_data 0 None (Some (str "Work"))
    [[ (str "Demographic variable name", [Str (str "Work"); Str (str "Work")]);
       (str "Response", [Str (str "Part time"); NaN]) ]]
  = (Ok 0, [[ (str "Demographic variable name", [Str (str "Work"); Str (str "Work")]);
              (str "Response", [Str (str "Part time"); Str (str "nan")]) ]]).
Proof. vm_compute. reflexivity. Qed.

(** The suffix is also removed in front of a final line break, which
    stays. *)
Lemma england_before_a_final_line_break :
  clean_data 0 None None
    [[ (str "Response", [Str (str "London (England)" ++ ["010"%char])]) ]]
  = (Ok 0, [[ (str "Response", [Str (str "London" ++ ["010"%char])]) ]])
  /\ ~ ends_with england (str "London (England)" ++ ["010"%char]).
Proof.
  split; [vm_compute; reflexivity|].
  intros [p Hp]. apply (f_equal (@rev ascii)) in Hp.
  rewrite !rev_app_distr in Hp.
  change (rev england) with (")"%char :: rev (str "(England")) in Hp.
  cbn [rev app] in Hp. discriminate Hp.
Qed.

(** An empty target counts as no target. *)
Lemma empty_target_is_no_target :
  clean_data 0 None (Some [])
    [[ (str "Demographic variable name", [Str []]);
       (str "Response", [Str (str "FULL TIME")]) ]]
  = (Ok 0, [[ (str "Demographic variable name", [Str []]);
              (str "Response", [Str (str "FULL TIME")]) ]]).
Proof. vm_compute. reflexivity. Qed.

(** ** The language of a pattern *)

Section Language.
Context {A : Type}.
Variable subject : pystr.

(** A successful run of the matcher reads a text of the language. *)
Lemma exec_sound (r : regex) : forall suf caps (k : cont A) x,
  exec subject r suf caps k = Some x ->
  exists m rest caps',
    suf = m ++ rest /\ matches r m /\ k rest caps' = Some x.
Proof.
  induction r as [|p|r1 IH1 r2 IH2|r1 IH1 r2 IH2|g r1 IH1|n r1 IH1| |];
    intros suf caps k x H.
  - exists [], suf, caps. repeat split; [constructor|exact H].
  - cbn [exec] in H. destruct suf as [|c t]; [discriminate|].
    destruct (p c) eqn:Hp; [|discriminate].
    exists [c], t, caps. repeat split; [now constructor|exact H].
  - cbn [exec] in H. apply IH1 in H as (m1 & rest1 & caps1 & -> & Hm1 & H).
    apply IH2 in H as (m2 & rest2 & caps2 & -> & Hm2 & H).
    exists (m1 ++ m2), rest2, caps2. rewrite <- app_assoc.
    repeat split; [now constructor|exact H].
  - cbn [exec] in H. destruct (exec subject r1 suf caps k) as [y|] eqn:E.
    + injection H as <-. apply IH1 in E as (m & rest & caps' & -> & Hm & E).
      exists m, rest, caps'. repeat split; [now apply matches_alt_l|exact E].
    + apply IH2 in H as (m & rest & caps' & -> & Hm & H).
      exists m, rest, caps'. repeat split; [now apply matches_alt_r|exact H].
  - cbn [exec] in H. revert H. generalize (length suf) as fuel.
    intros fuel. revert suf caps x.
    induction fuel as [|fuel IHf]; intros suf caps x H; cbn [star_loop] in H.
    + exists [], suf, caps. repeat split; [constructor|exact H].
    + assert (Hagain : forall y,
        exec subject r1 suf caps
          (fun suf' caps' => if length suf' <? length suf
                             then star_loop g (exec subject r1) k fuel suf' caps'
                             else None) = Some y ->
        exists m rest caps', suf = m ++ rest /\ matches (Star g r1) m
                             /\ k rest caps' = Some y).
      { intros y Hy. apply IH1 in Hy as (m1 & rest1 & caps1 & -> & Hm1 & Hy).
        destruct (length rest1 <? length (m1 ++ rest1)) eqn:L; [|discriminate].
        apply Nat.ltb_lt in L. rewrite length_app in L.
        apply IHf in Hy as (m2 & rest2 & caps2 & -> & Hm2 & Hy).
        exists (m1 ++ m2), rest2, caps2. rewrite <- app_assoc.
        repeat split; [|exact Hy].
        apply matches_star_cons; [|exact Hm1|exact Hm2].
        destruct m1; [cbn in L; lia|discriminate]. }
      destruct g.
      * destruct (exec subject r1 suf caps _) as [y|] eqn:E.
        -- injection H as <-. now apply Hagain.
        -- exists [], suf, caps. repeat split; [constructor|exact H].
      * destruct (k suf caps) as [y|] eqn:E.
        -- injection H as <-. exists [], suf, caps.
           repeat split; [constructor|exact E].
        -- now apply Hagain.
  - cbn [exec] in H. apply IH1 in H as (m & rest & caps' & -> & Hm & H).
    eexists m, rest, _. repeat split; [now constructor|exact H].
  - cbn [exec] in H. destruct (length suf =? length subject); [|discriminate].
    exists [], suf, caps. repeat split; [constructor|exact H].
  - cbn [exec] in H. exists [], suf, caps. repeat split; [constructor|].
    destruct suf as [|c [|c' t]]; try discriminate; [exact H|].
    destruct (Ascii.eqb c "010"); [exact H|discriminate].
Qed.

(** On a text of the language followed by a text on which the
    continuation succeeds, the matcher succeeds. *)
Lemma exec_complete (r : regex) : unanchored r = true ->
  forall m rest caps (k : cont A),
    matches r m -> (forall caps', k rest caps' <> None) ->
    exec subject r (m ++ rest) caps k <> None.
Proof.
  induction r as [|p|r1 IH1 r2 IH2|r1 IH1 r2 IH2|g r1 IH1|n r1 IH1| |];
    intros Hu m rest caps k Hm Hk; cbn [unanchored] in Hu; try discriminate.
  - inversion Hm; subst. apply Hk.
  - inversion Hm as [|p' c Hpc| | | | | | | |]; subst. cbn [app exec]. rewrite Hpc. apply Hk.
  - apply andb_true_iff in Hu as [Hu1 Hu2].
    inversion Hm; subst. cbn [exec]. rewrite <- app_assoc.
    apply IH1; [exact Hu1|assumption|].
    intros caps'. now apply IH2.
  - apply andb_true_iff in Hu as [Hu1 Hu2]. cbn [exec].
    inversion Hm as [| | |ra rb m' Hma|ra rb m' Hmb| | | | |]; subst.
    + pose proof (IH1 Hu1 m rest caps k Hma Hk) as H.
      destruct (exec subject r1 (m ++ rest) caps k); [discriminate|congruence].
    + destruct (exec subject r1 (m ++ rest) caps k); [discriminate|].
      now apply IH2.
  - cbn [exec].
    assert (Hloop : forall fuel m caps,
              matches (Star g r1) m -> length (m ++ rest) <= fuel ->
              star_loop g (exec subject r1) k fuel (m ++ rest) caps <> None).
    { clear m caps Hm. induction fuel as [|fuel IHf]; intros m caps Hm Hf.
      - cbn [star_loop]. destruct m; [|cbn in Hf; lia]. apply Hk.
      - cbn [star_loop].
        inversion Hm as [| | | | |g' r'|g' r' m1 m2 Hne Hm1 Hm2| | |]; subst.
        + cbn [app]. destruct g.
          * destruct (exec subject r1 rest caps _); [discriminate|apply Hk].
          * pose proof (Hk caps).
            destruct (k rest caps); [discriminate|congruence].
        + assert (Hbody :
            exec subject r1 ((m1 ++ m2) ++ rest) caps
              (fun suf' caps' =>
                 if length suf' <? length ((m1 ++ m2) ++ rest)
                 then star_loop g (exec subject r1) k fuel suf' caps' else None)
            <> None).
          { rewrite <- app_assoc. apply IH1; [exact Hu|exact Hm1|].
            intros caps'.
            replace (length (m2 ++ rest) <? length (m1 ++ m2 ++ rest)) with true.
            2:{ symmetry. apply Nat.ltb_lt. rewrite (length_app m1).
                destruct m1; [congruence|cbn; lia]. }
            apply IHf; [exact Hm2|].
            rewrite <- app_assoc, (length_app m1) in Hf.
            destruct m1; [congruence|cbn in Hf; lia]. }
          destruct g.
          * destruct (exec subject r1 ((m1 ++ m2) ++ rest) caps _);
              [discriminate|congruence].
          * destruct (k ((m1 ++ m2) ++ rest) caps); [discriminate|exact Hbody]. }
    now apply Hloop.
  - inversion Hm; subst. cbn [exec]. apply IH1; [exact Hu|assumption|].
    intros caps'. apply Hk.
Qed.
End Language.

(** ** The Footnote Stripper *)

Lemma matches_cat_iff (r1 r2 : regex) (m : pystr) :
  matches (Cat r1 r2) m
  <-> exists m1 m2, m = m1 ++ m2 /\ matches r1 m1 /\ matches r2 m2.
Proof.
  split.
  - intros H. inversion H; subst. eauto.
  - intros (m1 & m2 & -> & H1 & H2). now constructor.
Qed.

Lemma matches_chr_iff (c : ascii) (m : pystr) : matches (chr c) m <-> m = [c].
Proof.
  unfold chr. split.
  - intros H. inversion H as [|p c' Hc| | | | | | | |]; subst.
    apply Ascii.eqb_eq in Hc. now subst.
  - intros ->. constructor. apply Ascii.eqb_refl.
Qed.

Lemma matches_lit_ci_iff (p m : pystr) : matches (lit_ci p) m <-> ci_equal p m.
Proof.
  unfold ci_equal. revert m. induction p as [|a p IH]; intros m; cbn [lit_ci].
  - split.
    + intros H. inversion H; subst. constructor.
    + intros H. inversion H; subst. constructor.
  - rewrite matches_cat_iff. split.
    + intros (m1 & m2 & -> & H1 & H2). unfold chr_ci in H1.
      inversion H1 as [|q c Hc| | | | | | | |]; subst. constructor; [exact Hc|].
      now apply IH.
    + intros H. inversion H as [|a' c p' m' Hc Hm]; subst.
      exists [c], m'. split; [reflexivity|]. split; [now constructor|now apply IH].
Qed.

Lemma matches_star_class_iff (g : bool) (p : ascii -> bool) (m : pystr) :
  matches (Star g (Class p)) m <-> forallb p m = true.
Proof.
  split.
  - intros H. remember (Star g (Class p)) as r eqn:Hr.
    induction H; try discriminate; [reflexivity|].
    injection Hr as -> ->.
    match goal with
    | H : matches (Class p) _ |- _ => inversion H as [|q c Hc| | | | | | | |]; subst
    end.
    cbn [app forallb]. rewrite Hc. now apply IHmatches2.
  - induction m as [|c m IH]; intros H; [constructor|].
    cbn [forallb] in H. apply andb_true_iff in H as [Hc Hm].
    change (c :: m) with ([c] ++ m).
    apply matches_star_cons; [discriminate|now constructor|now apply IH].
Qed.

Lemma matches_plus_class_iff (g : bool) (p : ascii -> bool) (m : pystr) :
  matches (plus g (Class p)) m <-> m <> [] /\ forallb p m = true.
Proof.
  unfold plus. rewrite matches_cat_iff. split.
  - intros (m1 & m2 & -> & H1 & H2).
    inversion H1 as [|q c Hc| | | | | | | |]; subst.
    apply matches_star_class_iff in H2. cbn [app forallb]. rewrite Hc, H2.
    split; [discriminate|reflexivity].
  - intros [Hne H]. destruct m as [|c m]; [congruence|].
    cbn [forallb] in H. apply andb_true_iff in H as [Hc Hm].
    exists [c], m. split; [reflexivity|].
    split; [now constructor|now apply matches_star_class_iff].
Qed.

Lemma matches_opt_iff (r : regex) (m : pystr) :
  matches (opt r) m <-> matches r m \/ m = [].
Proof.
  unfold opt. split.
  - intros H. inversion H as [| | |a b m' Ha|a b m' Hb| | | | |]; subst; [now left|].
    inversion Hb; subst. now right.
  - intros [H| ->]; [now apply matches_alt_l|apply matches_alt_r; constructor].
Qed.

Lemma matches_alts_iff (rs : list regex) (m : pystr) :
  rs <> [] -> (matches (alts rs) m <-> exists r, In r rs /\ matches r m).
Proof.
  induction rs as [|r rs IH]; intros Hne; [congruence|].
  destruct rs as [|r' rs].
  - cbn [alts]. split.
    + intros H. exists r. split; [now left|exact H].
    + intros (x & [<-|[]] & H). exact H.
  - change (alts (r :: r' :: rs)) with (Alt r (alts (r' :: rs))). split.
    + intros H. inversion H as [| | |a b m' Ha|a b m' Hb| | | | |]; subst.
      * exists r. split; [now left|assumption].
      * apply IH in Hb as (x & Hx & Hm); [|discriminate].
        exists x. split; [now right|assumption].
    + intros (x & [<-|Hx] & Hm); [now apply matches_alt_l|].
      apply matches_alt_r. apply IH; [discriminate|eauto].
Qed.

(** The combined pattern matches the footnote references. *)
Lemma matches_combined (ids : list pystr) (m : pystr) :
  matches (combined_pattern ids) m <-> reference ids m.
Proof.
  unfold combined_pattern. rewrite matches_alts_iff by (now destruct (flat_map _ ids)).
  split.
  - intros (r & Hr & Hm). apply in_app_or in Hr as [Hr|Hr].
    + apply in_flat_map in Hr as (id & Hid & Hr).
      destruct Hr as [<-|[<-|[]]].
      * cbn [cats] in Hm. apply matches_cat_iff in Hm as (m1 & m2 & -> & H1 & Hm).
        apply matches_cat_iff in Hm as (m3 & m4 & -> & H3 & H4).
        apply matches_chr_iff in H1, H4. subst.
        apply matches_lit_ci_iff in H3. now apply reference_id with (id := id).
      * cbn [cats] in Hm. apply matches_cat_iff in Hm as (m1 & m2 & -> & H1 & Hm).
        apply matches_cat_iff in Hm as (n & m3 & -> & Hn & Hm).
        apply matches_cat_iff in Hm as (w & m4 & -> & Hw & Hm).
        apply matches_cat_iff in Hm as (body & m5 & -> & Hb & H4).
        apply matches_chr_iff in H1, H4. subst.
        apply matches_lit_ci_iff in Hn, Hb. apply matches_star_class_iff in Hw.
        now apply reference_note with (id := id).
    + destruct Hr as [<-|[<-|[]]].
      * unfold composite_note_pattern in Hm. cbn [cats] in Hm.
        apply matches_cat_iff in Hm as (m1 & m2 & -> & H1 & Hm).
        apply matches_cat_iff in Hm as (n & m3 & -> & Hn & Hm).
        apply matches_cat_iff in Hm as (s & m4 & -> & Hs & Hm).
        apply matches_cat_iff in Hm as (w & m5 & -> & Hw & Hm).
        apply matches_cat_iff in Hm as (span & m6 & -> & Hspan & H4).
        apply matches_chr_iff in H1, H4. subst.
        apply matches_lit_ci_iff in Hn. apply matches_opt_iff in Hs.
        apply matches_plus_class_iff in Hw as [Hw1 Hw2].
        apply matches_plus_class_iff in Hspan as [Hr1 Hr2].
        apply reference_composite; auto.
        destruct Hs as [Hs|Hs]; [right|now left].
        unfold chr_ci in Hs. inversion Hs as [|q c Hc| | | | | | | |]; subst.
        repeat constructor. exact Hc.
      * unfold number_list_pattern in Hm. cbn [cats] in Hm.
        apply matches_cat_iff in Hm as (m1 & m2 & -> & H1 & Hm).
        apply matches_cat_iff in Hm as (span & m3 & -> & Hspan & H4).
        apply matches_chr_iff in H1, H4. subst.
        apply matches_plus_class_iff in Hspan as [Hr1 Hr2].
        now apply reference_numbers.
  - intros H. destruct H as [id body Hid Hb|id n w body Hid Hn Hw Hb
                            |n s w span Hn Hs Hw Hw' Hr Hr'|span Hr Hr'].
    + exists (cats [lbracket; lit_ci id; rbracket]). split.
      * apply in_or_app. left. apply in_flat_map. exists id. split; [exact Hid|now left].
      * cbn [cats]. change ("["%char :: body ++ ["]"%char])
          with (["["%char] ++ body ++ ["]"%char]).
        repeat (apply matches_cat).
        -- now apply matches_chr_iff.
        -- now apply matches_lit_ci_iff.
        -- now apply matches_chr_iff.
    + exists (cats [lbracket; lit_ci (str "note"); Star true ws; lit_ci id; rbracket]).
      split.
      * apply in_or_app. left. apply in_flat_map. exists id.
        split; [exact Hid|right; now left].
      * cbn [cats]. change ("["%char :: n ++ w ++ body ++ ["]"%char])
          with (["["%char] ++ n ++ w ++ body ++ ["]"%char]).
        repeat (apply matches_cat).
        -- now apply matches_chr_iff.
        -- now apply matches_lit_ci_iff.
        -- now apply matches_star_class_iff.
        -- now apply matches_lit_ci_iff.
        -- now apply matches_chr_iff.
    + exists composite_note_pattern. split.
      * apply in_or_app. right. now left.
      * unfold composite_note_pattern. cbn [cats].
        change ("["%char :: n ++ s ++ w ++ span ++ ["]"%char])
          with (["["%char] ++ n ++ s ++ w ++ span ++ ["]"%char]).
        repeat (apply matches_cat).
        -- now apply matches_chr_iff.
        -- now apply matches_lit_ci_iff.
        -- apply matches_opt_iff. destruct Hs as [->|Hs]; [now right|left].
           inversion Hs as [|a c p' m' Hc Hm]; subst. inversion Hm; subst.
           unfold chr_ci. now constructor.
        -- now apply matches_plus_class_iff.
        -- now apply matches_plus_class_iff.
        -- now apply matches_chr_iff.
    + exists number_list_pattern. split.
      * apply in_or_app. right. right. now left.
      * unfold number_list_pattern. cbn [cats].
        change ("["%char :: span ++ ["]"%char]) with (["["%char] ++ span ++ ["]"%char]).
        repeat (apply matches_cat).
        -- now apply matches_chr_iff.
        -- now apply matches_plus_class_iff.
        -- now apply matches_chr_iff.
Qed.

Lemma is_bracket_lower (c : ascii) : is_bracket (lower c) = is_bracket c.
Proof. destruct c as [[] [] [] [] [] [] [] []]; vm_compute; reflexivity. Qed.

Lemma isspace_not_bracket (c : ascii) : isspace c = true -> is_bracket c = false.
Proof. destruct c as [[] [] [] [] [] [] [] []]; vm_compute; congruence. Qed.

Lemma composite_not_bracket (c : ascii) :
  composite_class c = true -> is_bracket c = false.
Proof. destruct c as [[] [] [] [] [] [] [] []]; vm_compute; congruence. Qed.

Lemma number_not_bracket (c : ascii) : number_class c = true -> is_bracket c = false.
Proof. destruct c as [[] [] [] [] [] [] [] []]; vm_compute; congruence. Qed.

Lemma bracket_free_app (a b : pystr) :
  bracket_free (a ++ b) <-> bracket_free a /\ bracket_free b.
Proof. unfold bracket_free. rewrite forallb_app. apply andb_true_iff. Qed.

Lemma bracket_free_ci (p t : pystr) : ci_equal p t -> bracket_free p -> bracket_free t.
Proof.
  unfold bracket_free. induction 1 as [|a b p t Hab _ IH]; intros Hp; [reflexivity|].
  cbn [forallb] in *. apply andb_true_iff in Hp as [Ha Hp].
  rewrite IH by exact Hp. rewrite andb_true_r.
  unfold eqb_ci in Hab. apply Ascii.eqb_eq in Hab.
  rewrite <- is_bracket_lower, <- Hab, is_bracket_lower. exact Ha.
Qed.

Lemma bracket_free_class (p : ascii -> bool) (s : pystr) :
  (forall c, p c = true -> is_bracket c = false) ->
  forallb p s = true -> bracket_free s.
Proof.
  intros Hp. unfold bracket_free. induction s as [|c s IH]; intros H; [reflexivity|].
  cbn [forallb] in *. apply andb_true_iff in H as [Hc Hs].
  now rewrite (Hp c Hc), IH.
Qed.

(** A reference is a bracket-free text in brackets. *)
Lemma reference_shape (ids : list pystr) (r : pystr) :
  Forall bracket_free ids -> reference ids r ->
  exists body, r = "["%char :: body ++ ["]"%char] /\ bracket_free body.
Proof.
  intros Hids H.
  assert (Hid : forall id, In id ids -> bracket_free id)
    by (now apply List.Forall_forall).
  assert (Hnote : forall n, ci_equal (str "note") n -> bracket_free n)
    by (intros n Hn; now apply (bracket_free_ci _ _ Hn)).
  assert (Hblank : forall w, blank w -> bracket_free w)
    by (intros w; apply bracket_free_class; apply isspace_not_bracket).
  destruct H as [id body Hin Hb|id n w body Hin Hn Hw Hb
                |n s w span Hn Hs Hw Hw' Hr Hr'|span Hr Hr'].
  - exists body. split; [reflexivity|]. apply (bracket_free_ci _ _ Hb). auto.
  - exists (n ++ w ++ body). rewrite <- !app_assoc. split; [reflexivity|].
    repeat (apply bracket_free_app; split); auto.
    apply (bracket_free_ci _ _ Hb). auto.
  - exists (n ++ s ++ w ++ span). rewrite <- !app_assoc. split; [reflexivity|].
    repeat (apply bracket_free_app; split); auto.
    + destruct Hs as [->|Hs]; [reflexivity|]. now apply (bracket_free_ci _ _ Hs).
    + apply (bracket_free_class composite_class);
        [apply composite_not_bracket|exact Hr'].
  - exists span. split; [reflexivity|].
    apply (bracket_free_class number_class); [apply number_not_bracket|exact Hr'].
Qed.

Lemma bracketed_unique : forall b1 b2 x y,
  bracket_free b1 -> bracket_free b2 ->
  b1 ++ "]"%char :: x = b2 ++ "]"%char :: y -> b1 = b2 /\ x = y.
Proof.
  unfold bracket_free.
  induction b1 as [|c b1 IH]; intros [|c' b2] x y H1 H2 H; cbn [app forallb] in *.
  - injection H as <-. auto.
  - injection H as <- _. discriminate H2.
  - injection H as -> _. discriminate H1.
  - injection H as <- H.
    apply andb_true_iff in H1 as [_ H1]. apply andb_true_iff in H2 as [_ H2].
    destruct (IH b2 x y H1 H2 H) as [-> ->]. auto.
Qed.

(** At most one reference starts at a position. *)
Lemma reference_unique (ids : list pystr) (r1 r2 x y : pystr) :
  Forall bracket_free ids -> reference ids r1 -> reference ids r2 ->
  r1 ++ x = r2 ++ y -> r1 = r2 /\ x = y.
Proof.
  intros Hids H1 H2 H.
  destruct (reference_shape ids r1 Hids H1) as (b1 & -> & Hb1).
  destruct (reference_shape ids r2 Hids H2) as (b2 & -> & Hb2).
  cbn [app] in H. injection H as H. rewrite <- !app_assoc in H. cbn [app] in H.
  destruct (bracketed_unique b1 b2 x y Hb1 Hb2 H) as [-> ->]. auto.
Qed.

Lemma unanchored_lit_ci (p : pystr) : unanchored (lit_ci p) = true.
Proof. induction p as [|a p IH]; [reflexivity|]. cbn. exact IH. Qed.

Lemma unanchored_alts (rs : list regex) :
  forallb unanchored rs = true -> unanchored (alts rs) = true.
Proof.
  induction rs as [|r rs IH]; intros H; [reflexivity|].
  cbn [forallb] in H. apply andb_true_iff in H as [Hr Hrs].
  destruct rs as [|r' rs]; [exact Hr|].
  change (alts (r :: r' :: rs)) with (Alt r (alts (r' :: rs))).
  cbn [unanchored]. now rewrite Hr, IH.
Qed.

Lemma unanchored_combined (ids : list pystr) :
  unanchored (combined_pattern ids) = true.
Proof.
  unfold combined_pattern. apply unanchored_alts. rewrite forallb_app.
  apply andb_true_iff. split; [|reflexivity].
  induction ids as [|id ids IH]; [reflexivity|].
  cbn [flat_map note_patterns app forallb cats unanchored lbracket rbracket chr ws].
  rewrite !unanchored_lit_ci. exact IH.
Qed.

Section Stripping.
Variable ids : list pystr.
Hypothesis Hids : Forall bracket_free ids.
Variable subject : pystr.

Lemma match_reference (r rest : pystr) :
  reference ids r ->
  exists caps, re_match_at (combined_pattern ids) subject (r ++ rest) = Some (rest, caps).
Proof.
  intros Hr. unfold re_match_at.
  destruct (exec subject (combined_pattern ids) (r ++ rest) []
              (fun suf' caps => Some (suf', caps))) as [[suf' caps]|] eqn:E.
  - apply exec_sound in E as (m & rest' & caps' & Hs & Hm & E).
    injection E as <- <-. apply matches_combined in Hm.
    destruct (reference_unique ids r m rest rest' Hids Hr Hm Hs) as [_ ->].
    now exists caps'.
  - exfalso. revert E. apply exec_complete.
    + apply unanchored_combined.
    + now apply matches_combined.
    + discriminate.
Qed.

Lemma match_no_reference (s : pystr) :
  (forall r rest, reference ids r -> s <> r ++ rest) ->
  re_match_at (combined_pattern ids) subject s = None.
Proof.
  intros Hno. unfold re_match_at.
  destruct (exec subject (combined_pattern ids) s []
              (fun suf' caps => Some (suf', caps))) as [[suf' caps]|] eqn:E;
    [|reflexivity].
  apply exec_sound in E as (m & rest' & caps' & Hs & Hm & E).
  apply matches_combined in Hm. now destruct (Hno m rest' Hm).
Qed.

Lemma reference_not_empty (r : pystr) : reference ids r -> r <> [].
Proof. intros H. now destruct H. Qed.

(** [re.sub] deletes the references. *)
Lemma re_sub_stripped (s out : pystr) :
  stripped ids s out ->
  forall fuel, length s < fuel ->
    re_sub_from fuel (combined_pattern ids) subject s = out.
Proof.
  induction 1 as [|r s out Hr Hs IH|c s out Hno Hs IH]; intros fuel Hf.
  - destruct fuel as [|fuel]; [reflexivity|]. cbn [re_sub_from].
    destruct (re_match_at (combined_pattern ids) subject []) as [[suf' caps]|];
      [|reflexivity].
    now destruct (length suf' <? length (@nil ascii)) eqn:L;
      [apply Nat.ltb_lt in L; cbn in L; lia|].
  - destruct fuel as [|fuel]; [lia|]. cbn [re_sub_from].
    destruct (match_reference r s Hr) as [caps ->].
    pose proof (reference_not_empty r Hr) as Hne.
    assert (Hpos : 0 < length r) by (destruct r; [congruence|cbn; lia]).
    replace (length s <? length (r ++ s)) with true.
    2:{ symmetry. apply Nat.ltb_lt. rewrite length_app. lia. }
    apply IH. rewrite length_app in Hf. lia.
  - destruct fuel as [|fuel]; [lia|]. cbn [re_sub_from].
    rewrite (match_no_reference (c :: s) Hno). f_equal.
    apply IH. cbn [length] in Hf. lia.
Qed.

(** Every name reads in that way. *)
Lemma stripped_total : forall n s, length s <= n -> exists out, stripped ids s out.
Proof.
  induction n as [|n IH]; intros s Hn.
  - destruct s; [|cbn in Hn; lia]. exists []. constructor.
  - destruct s as [|c t]; [exists []; constructor|].
    destruct (re_match_at (combined_pattern ids) subject (c :: t))
      as [[suf' caps]|] eqn:E.
    + unfold re_match_at in E.
      apply exec_sound in E as (m & rest' & caps' & Hs & Hm & E).
      injection E as <- <-. apply matches_combined in Hm.
      pose proof (reference_not_empty m Hm) as Hne.
      destruct (IH rest') as [out Hout].
      { apply (f_equal (@length ascii)) in Hs. rewrite length_app in Hs.
        cbn [length] in Hs, Hn. destruct m; [congruence|cbn in Hs; lia]. }
      exists out. rewrite Hs. now constructor.
    + destruct (IH t) as [out Hout]; [cbn [length] in Hn; lia|].
      exists (c :: out). constructor; [|exact Hout].
      intros r rest Hr Hs.
      destruct (match_reference r rest Hr) as [caps Hm].
      rewrite <- Hs in Hm. congruence.
Qed.
End Stripping.

Lemma set_columns_twice (n1 n2 : list pystr) (df : DataFrame) :
  length n1 = length df ->
  set_columns n2 (set_columns n1 df) = set_columns n2 df.
Proof.
  intros H. unfold set_columns at 1 3. f_equal.
  now destruct (set_columns_cells n1 df H) as [_ ->].
Qed.

(** X21.  For registry identifiers without square brackets,
    [remove_column_name_note_numbers] gives every column of the data table
    its label without any footnote reference, trimmed.  A reference is, in
    brackets and in any case: an identifier; [note], optional whitespace and
    an identifier; [note] or [notes], whitespace and a non-empty span of
    digits, whitespace, commas and the letters a, n, d; or a non-empty span
    of digits, whitespace and commas.  Every reference goes, from left to
    right. *)
Theorem remove_column_name_note_numbers_strips_references
    (df_data df_notes : loc) (note_number_column : pystr) (h : heap)
    (d notes : DataFrame) (col : series) :
  h !! df_data = Some d ->
  h !! df_notes = Some notes ->
  labelled note_number_column notes = [(note_number_column, col)] ->
  Forall bracket_free (dropna_str col) ->
  let ids := dropna_str col in
  remove_column_name_note_numbers df_data df_notes note_number_column h
  = (Ok df_data,
     <[df_data := set_columns (map (new_column_name ids) (columns d)) d]> h)
  /\ (forall name out, stripped ids name out -> new_column_name ids name = strip out)
  /\ (forall name, exists out, stripped ids name out).
Proof.
  intros Hd Hnotes Hcol Hids. cbv zeta.
  assert (Hl : df_data < length h) by (apply lookup_lt_is_Some; eauto).
  split; [|split].
  - unfold remove_column_name_note_numbers, strip_column_names.
    unfold bind at 1. unfold load at 1. cbn beta iota.
    rewrite Hnotes. cbn [default from_option]. unfold id.
    assert (Hmem : mem_str note_number_column (columns notes) = true).
    { apply mem_str_In.
      assert (Hin : In (note_number_column, col) (labelled note_number_column notes))
        by (rewrite Hcol; now left).
      apply labelled_In in Hin. unfold columns.
      apply in_map_iff. now exists (note_number_column, col). }
    rewrite Hmem. cbn [negb].
    unfold bind at 1. unfold lift at 1. rewrite (getitem_unique _ _ _ Hcol).
    cbn beta iota. unfold bind at 1. unfold load at 1. cbn beta iota.
    rewrite Hd. cbn [default from_option]. unfold id.
    unfold bind at 1. unfold store at 1. cbn beta iota.
    unfold bind at 1. unfold load at 1. cbn beta iota.
    rewrite list_lookup_insert_eq by exact Hl. cbn [default from_option]. unfold id.
    unfold bind at 1. unfold store at 1, ret. cbn beta iota.
    rewrite list_insert_insert_eq. f_equal. f_equal.
    assert (Hlen : length (map (re_sub (combined_pattern (dropna_str col))) (columns d))
                   = length d) by (unfold columns; now rewrite !length_map).
    destruct (set_columns_cells _ d Hlen) as [-> _].
    rewrite set_columns_twice by exact Hlen.
    unfold new_column_name. now rewrite map_map.
  - intros name out Hs. unfold new_column_name, re_sub. f_equal.
    apply (re_sub_stripped _ Hids); [exact Hs|lia].
  - intros name. apply (stripped_total _ Hids name (length name) name). lia.
Qed.

Lemma remove_column_name_note_numbers_witness :
  remove_column_name_note_numbers 0 1 (str "Note number")
    [example_footnotes; example_registry]
  = (Ok 0,
     [ [ (str "Q1", [Str (str "a")]);
         (str "Q2  %", [Str (str "b")]);
         (str "Q3", [Str (str "c")]);
         (str "Q4 [abc]", [Str (str "d")]) ];
       example_registry ]).
Proof.
  destruct (remove_column_name_note_numbers_strips_references 0 1 (str "Note number")
              [example_footnotes; example_registry] example_footnotes example_registry
              [Str (str "1"); NaN; Str (str "2")] eq_refl eq_refl eq_refl)
    as [H _].
  - repeat constructor.
  - rewrite H. vm_compute. reflexivity.
Defined.

(** C6.  The composite patterns are meant to remove any bracketed
    content that contains "note" (the comment above them in the source says
    so).  The reference "[notes 8 or 9]" is [notes], whitespace and a run of
    word characters, digits and spaces, and it stays in the name: the class
    after [notes] takes digits, whitespace, commas and the letters a, n, d
    only, so the letters o and r stop it. *)
Lemma composite_reference_with_other_letters_stays :
  forallb word_class (str "8 or 9") = true
  /\ remove_column_name_note_numbers 0 1 (str "Note number")
       [[(str "Q1 [notes 8 or 9]", [Str (str "a")])]; example_registry]
     = (Ok 0, [[(str "Q1 [notes 8 or 9]", [Str (str "a")])]; example_registry]).
Proof. split; vm_compute; reflexivity. Qed.

(** ** The Measure Annotation Parser on a table *)

Lemma store_new (h : heap) (old new : DataFrame) :
  <[length h := new]> (h ++ [old]) = h ++ [new].
Proof.
  rewrite insert_app_r_alt by lia. now rewrite Nat.sub_diag.
Qed.

Lemma load_new (h : heap) (new : DataFrame) : (h ++ [new]) !! length h = Some new.
Proof. rewrite lookup_app_r by lia. now rewrite Nat.sub_diag. Qed.

(** [col.apply(split_row)] put in the place of the column, for both
    annotation parsers. *)
Lemma split_row_columns_result (df : loc) (input n1 n2 : pystr)
    (f : cell -> pystr * pystr) (h : heap) (pre post : DataFrame) (col : series) :
  h !! df = Some (pre ++ (input, col) :: post) ->
  ~ In input (columns pre) -> ~ In input (columns post) ->
  col <> [] ->
  ~ In n1 (columns (pre ++ post)) -> ~ In n2 (columns (pre ++ post)) -> n1 <> n2 ->
  (do df' <- drop_column df input;
   do cols <- lift (apply_split_row f col);
   run insert df' (length pre) n1 (fst cols);
   run insert df' (length pre + 1) n2 (snd cols);
   ret df') h
  = (Ok (length h),
     h ++ [pre ++ [ (n1, map (fun c => Str (fst (f c))) col);
                    (n2, map (fun c => Str (snd (f c))) col) ] ++ post]).
Proof.
  intros Hd Hpre Hpost Hcol Hn1 Hn2 Hne.
  unfold bind at 1. unfold drop_column. unfold bind at 1. unfold load at 1.
  cbn beta iota. rewrite Hd. cbn [default from_option]. unfold id.
  assert (Hmem : mem_str input (columns (pre ++ (input, col) :: post)) = true).
  { apply mem_str_In. unfold columns. rewrite map_app. apply in_or_app. right. now left. }
  rewrite Hmem. unfold alloc. cbn beta iota.
  pose proof (without_around input pre post col Hpre Hpost [] ltac:(intros [])) as W.
  cbn [app] in W. rewrite W. clear W.
  unfold bind at 1. unfold lift at 1, apply_split_row.
  destruct col as [|c0 col0]; [congruence|]. set (col := c0 :: col0) in *.
  cbn beta iota.
  (* first insertion *)
  unfold bind at 1. unfold insert at 1. unfold bind at 1. unfold load at 1.
  cbn beta iota. rewrite load_new. cbn [default from_option fst snd]. unfold id.
  rewrite (mem_str_false n1 _ Hn1). unfold store at 1. cbn beta iota.
  rewrite store_new, insert_at_length.
  (* second insertion *)
  unfold bind at 1. unfold insert at 1. unfold bind at 1. unfold load at 1.
  cbn beta iota. rewrite load_new. cbn [default from_option]. unfold id.
  set (c1 := map (fun c => Str (fst (f c))) col).
  set (c2 := map (fun c => Str (snd (f c))) col).
  assert (Hn2' : ~ In n2 (columns (pre ++ (n1, c1) :: post))).
  { unfold columns in *. rewrite map_app in *. cbn [map fst]. intros H.
    apply in_app_or in H as [H|[H|H]].
    - apply Hn2. apply in_or_app. now left.
    - now apply Hne.
    - apply Hn2. apply in_or_app. now right. }
  rewrite (mem_str_false n2 _ Hn2'). unfold store at 1, ret. cbn beta iota.
  rewrite store_new.
  replace (length pre + 1) with (length (pre ++ [(n1, c1)]))
    by (rewrite length_app; cbn; lia).
  replace (pre ++ (n1, c1) :: post) with ((pre ++ [(n1, c1)]) ++ post)
    by (now rewrite <- app_assoc).
  rewrite insert_at_length. rewrite <- app_assoc. reflexivity.
Qed.

(** C1.  On a table with distinct labels and at least one
    row, [split_measure_name_column] returns a new table with the columns
    [Measure name] and [Definition] in the place of the input column.  For
    each cell, the text is scanned from left to right with a depth counter;
    a top-level span is extracted unless its trimmed content begins, in any
    case, with [e.g.] or [eg] (periods optional) or with [for example]
    (the two words separated by whitespace), followed by the end,
    whitespace, a colon or a comma.  The definition is the trimmed contents of the extracted
    spans joined with "; ", the label is the rest of the text, trimmed;
    spans with a marker stay in the label, and nested parentheses belong to
    the span around them. *)
Theorem split_measure_name_column_annotations (df : loc) (input : pystr)
    (h : heap) (d : DataFrame) :
  h !! df = Some d ->
  List.NoDup (columns d) ->
  In input (columns d) ->
  column input d <> [] ->
  ~ In (str "Measure name") (columns (without input d)) ->
  ~ In (str "Definition") (columns (without input d)) ->
  split_measure_name_column df input h
  = (Ok (length h),
     h ++ [replace_column input
             [ (str "Measure name",
                map (fun c => Str (fst (measure_annotation (cell_str c))))
                    (column input d));
               (str "Definition",
                map (fun c => Str (snd (measure_annotation (cell_str c))))
                    (column input d)) ] d])
  /\ forall value, Measure.split_row value = measure_annotation value.
Proof.
  intros Hd Hnd Hin Hcol Hn1 Hn2. split; [|apply split_row_measure_annotation].
  destruct (column_split input d Hnd Hin) as (pre & col & post & -> & Hpre & Hpost).
  assert (Hc : column input (pre ++ (input, col) :: post) = col).
  { unfold column. now rewrite labelled_around. }
  rewrite Hc in *.
  pose proof (without_around input pre post col Hpre Hpost [] ltac:(intros [])) as W.
  cbn [app] in W. rewrite W in Hn1, Hn2. clear W.
  rewrite replace_column_around by assumption.
  unfold split_measure_name_column.
  unfold bind at 1. unfold load at 1. cbn beta iota.
  rewrite Hd. cbn [default from_option]. unfold id.
  unfold bind at 1. unfold lift at 1, getitem. rewrite labelled_around by assumption.
  cbn beta iota. rewrite get_loc_around by assumption.
  rewrite (split_row_columns_result df input (str "Measure name") (str "Definition")
             (fun c => Measure.split_row (cell_str c)) h pre post col Hd Hpre Hpost Hcol
             Hn1 Hn2 ltac:(discriminate)).
  cbn beta.
  rewrite (map_ext (fun c => Str (fst (Measure.split_row (cell_str c))))
                   (fun c => Str (fst (measure_annotation (cell_str c)))))
    by (intros c; now rewrite split_row_measure_annotation).
  rewrite (map_ext (fun c => Str (snd (Measure.split_row (cell_str c))))
                   (fun c => Str (snd (measure_annotation (cell_str c)))))
    by (intros c; now rewrite split_row_measure_annotation).
  reflexivity.
Qed.

Lemma split_measure_name_column_witness :
  split_measure_name_column 0 (str "Measure name") [example_measures]
  = (Ok 1,
     [ example_measures;
       [ (str "Response", [Str (str "Yes"); Str (str "No")]);
         (str "Measure name", [Str (str "Response rate"); Str (str "Score (e.g. 1-5)")]);
         (str "Definition",
          [Str (str "base: all respondents; excludes non-responders"); Str []]);
         (str "Value", [Str (str "1"); NaN]) ] ]).
Proof.
  destruct (split_measure_name_column_annotations 0 (str "Measure name")
              [example_measures] example_measures eq_refl) as [H _].
  - repeat constructor; cbn; intuition discriminate.
  - cbn. intuition.
  - discriminate.
  - cbn. intuition discriminate.
  - cbn. intuition discriminate.
  - rewrite H. vm_compute. reflexivity.
Defined.

(** * Further properties of the pipeline *)

(** ** Errors of the annotation splitters *)

(** X1.  [split_demographic_variable_name_column] raises the error of a missing
    column exactly when the input column is not a column of the table, and
    then no table has changed. *)
Theorem split_demographic_variable_name_column_missing_column
    (df : loc) (input_column : pystr) (h : heap) :
  let table := default [] (h !! df) in
  let r := split_demographic_variable_name_column df input_column h in
  (fst r = Raise (missing_column input_column (str "the DataFrame"))
   <-> mem_str input_column (columns table) = false)
  /\ (mem_str input_column (columns table) = false -> snd r = h).
Proof.
  cbv zeta. split; [split|].
  - unfold split_demographic_variable_name_column. run_monad.
    destruct (mem_str input_column (columns (default [] (h !! df))));
      [|reflexivity].
    cbn [negb]. intros H. exfalso.
    unfold apply_split_row in H.
    repeat case_match; simplify_eq; cbn in *;
      try discriminate;
      try (unfold getitem in *; repeat case_match; simplify_eq; fail).
    all: try (unfold missing_column in *; simplify_eq).
  - unfold split_demographic_variable_name_column. run_monad. now intros ->.
  - unfold split_demographic_variable_name_column. run_monad. now intros ->.
Qed.

Lemma split_demographic_variable_name_column_missing_column_witness :
  split_demographic_variable_name_column 0 (str "Demographic variable name")
    example_heap
  = (Raise (missing_column (str "Demographic variable name") (str "the DataFrame")),
     example_heap).
Proof.
  pose proof (split_demographic_variable_name_column_missing_column 0
                (str "Demographic variable name") example_heap) as H.
  cbv zeta in H. destruct H as [[_ H1] H2].
  specialize (H1 eq_refl). specialize (H2 eq_refl).
  destruct (split_demographic_variable_name_column 0
              (str "Demographic variable name") example_heap) as [o h'].
  cbn [fst snd] in H1, H2. now subst.
Defined.

(** X2.  [split_measure_name_column] has no check of its own: on a table
    without the input column it is the selection [df[input_column]] that
    raises, a [KeyError], and no table has changed; the error of a missing
    column is never raised. *)
Theorem split_measure_name_column_missing_column
    (df : loc) (input_column : pystr) (h : heap) :
  (mem_str input_column (columns (default [] (h !! df))) = false ->
   split_measure_name_column df input_column h = (Raise (KeyError input_column), h))
  /\ (forall name where_,
        fst (split_measure_name_column df input_column h)
        <> Raise (missing_column name where_)).
Proof.
  split.
  - intros Habs. unfold split_measure_name_column. run_monad.
    unfold getitem. rewrite labelled_absent; [reflexivity|].
    intros Hin. apply mem_str_In in Hin. congruence.
  - intros name where_. unfold split_measure_name_column.
    do 3 run_monad. unfold apply_split_row, getitem.
    repeat case_match; simplify_eq; cbn [fst snd]; try discriminate.
    all: intros H; injection H as H; symmetry in H;
      now apply missing_column_not_insert in H.
Qed.

Lemma split_measure_name_column_missing_column_witness :
  split_measure_name_column 0 (str "Measure name") example_heap
  = (Raise (KeyError (str "Measure name")), example_heap).
Proof.
  apply (split_measure_name_column_missing_column 0 (str "Measure name") example_heap).
  reflexivity.
Defined.

(** ** The Delimiter Splitter: what it needs, and what it does to its
    argument *)

Lemma expand_width_one (ds : list pystr) (col : series) :
  ds <> [] -> col <> [] ->
  (forall s, In (Str s) col -> first_occurrence ds [] s = None) ->
  expand_width (map (split_once (delimiter_pattern ds)) col) = 1.
Proof.
  intros Hds Hcol Hnone. unfold expand_width.
  induction col as [|c col IH]; [congruence|].
  cbn [map fold_right].
  assert (Hc : match split_once (delimiter_pattern ds) c with
               | Some l => length l
               | None => 1
               end = 1).
  { destruct c as [s|]; [|reflexivity]. cbn [split_once]. unfold re_search.
    rewrite re_search_delimiters by exact Hds.
    rewrite (Hnone s) by now left. reflexivity. }
  rewrite Hc. destruct col as [|c' col]; [reflexivity|].
  rewrite IH; [reflexivity|discriminate|].
  intros s Hs. apply Hnone. now right.
Qed.

Lemma labelled_mem (name : pystr) (df : DataFrame) (col : series) :
  labelled name df = [(name, col)] -> mem_str name (columns df) = true.
Proof.
  intros H. apply mem_str_In.
  assert (Hin : In (name, col) (labelled name df)) by (rewrite H; now left).
  apply labelled_In in Hin. unfold columns. apply in_map_iff.
  now exists (name, col).
Qed.

(** X3.  When the input column has rows and none of its text cells contains a
    delimiter, the expanded split has a single column, the second output
    is the string [""] instead of a Series, and [split_column_on_delimiter]
    raises an [AttributeError]; no table has changed. *)
Theorem split_column_on_delimiter_needs_a_delimited_cell (df : loc)
    (input out1 out2 : pystr) (delims : delimiters) (h : heap)
    (d : DataFrame) (col : series) :
  h !! df = Some d ->
  labelled input d = [(input, col)] ->
  col <> [] ->
  delimiter_list delims <> [] ->
  (forall s, In (Str s) col -> first_occurrence (delimiter_list delims) [] s = None) ->
  split_column_on_delimiter df input out1 out2 delims h
  = (Raise (AttributeError (str "'str' object has no attribute 'where'")), h).
Proof.
  intros Hd Hlab Hcol Hds Hnone. unfold split_column_on_delimiter.
  unfold bind at 1. unfold load at 1. cbn beta iota.
  rewrite Hd. cbn [default from_option]. unfold id.
  rewrite (labelled_mem _ _ _ Hlab). cbn [negb].
  unfold bind at 1. unfold lift at 1. rewrite (getitem_unique _ _ _ Hlab).
  cbn beta iota.
  rewrite (expand_width_one _ _ Hds Hcol Hnone).
  reflexivity.
Qed.

Lemma split_column_on_delimiter_needs_a_delimited_cell_witness :
  split_column_on_delimiter 0 (str "Response") (str "Code") (str "Name")
    (One (str ".")) example_heap
  = (Raise (AttributeError (str "'str' object has no attribute 'where'")),
     example_heap).
Proof.
  apply (split_column_on_delimiter_needs_a_delimited_cell 0 (str "Response")
           (str "Code") (str "Name") (One (str ".")) example_heap example_data
           [Str (str "16-24"); Str (str "Male")]).
  - reflexivity.
  - reflexivity.
  - discriminate.
  - discriminate.
  - intros s [H|[H|[]]]; injection H as <-; reflexivity.
Defined.

(** X4.  [split_column_on_delimiter] inserts the two output columns into the
    table it was given and drops the input column in a copy: after the
    call the caller's table has the output columns in front of the input
    column, which it keeps; the table returned is a new object, and every
    other table is as it was. *)
Theorem split_column_on_delimiter_changes_its_argument (df : loc)
    (input out1 out2 : pystr) (delims : delimiters) (h : heap) (d : DataFrame) :
  h !! df = Some d ->
  List.NoDup (columns d) ->
  In input (columns d) ->
  ~ In out1 (columns d) -> ~ In out2 (columns d) -> out1 <> out2 ->
  delimiter_list delims <> [] ->
  some_cell_splits (delimiter_list delims) (column input d) ->
  let ds := delimiter_list delims in
  let new := [ (out1, map (fun c => fst (split_cell ds c)) (column input d));
               (out2, map (fun c => snd (split_cell ds c)) (column input d)) ] in
  let r := split_column_on_delimiter df input out1 out2 delims h in
  fst r = Ok (length h)
  /\ length h <> df
  /\ snd r !! df = Some (insert_before input new d)
  /\ columns (insert_before input new d) <> columns d
  /\ (forall l, l <> df -> l < length h -> snd r !! l = h !! l).
Proof.
  intros Hd Hnd Hin Hout1 Hout2 Hne Hds Hsome. cbv zeta.
  assert (Hl : df < length h) by (apply lookup_lt_is_Some; eauto).
  rewrite (split_column_on_delimiter_result df input out1 out2 delims h d)
    by assumption.
  cbn [fst snd]. split; [reflexivity|]. split; [lia|]. split; [|split].
  - rewrite lookup_app_l by (rewrite length_insert; exact Hl).
    now apply list_lookup_insert_eq.
  - destruct (column_split input d Hnd Hin) as (pre & col & post & -> & Hpre & Hpost).
    rewrite insert_before_around by assumption.
    intros H. apply (f_equal (@length pystr)) in H.
    unfold columns in H. rewrite !length_map, !length_app in H.
    cbn [length app] in H. lia.
  - intros l Hne' Hlt.
    rewrite lookup_app_l by (rewrite length_insert; exact Hlt).
    now apply list_lookup_insert_ne.
Qed.

Lemma split_column_on_delimiter_changes_its_argument_witness :
  snd (split_column_on_delimiter 0 (str "Measure") (str "Measure code")
         (str "Measure name") (One (str ".")) [example_composite]) !! 0
  = Some [ (str "Measure code", [Str (str "B1"); Str []]);
           (str "Measure name", [Str (str "Score"); Str (str "B2")]);
           (str "Measure", [Str (str "B1. Score"); Str (str "B2")]);
           (str "Value", [Str (str "1"); NaN]) ].
Proof.
  assert (Hsome : some_cell_splits [str "."] (column (str "Measure") example_composite)).
  { exists (str "B1. Score"). split; [now left|vm_compute; discriminate]. }
  destruct (split_column_on_delimiter_changes_its_argument 0 (str "Measure")
              (str "Measure code") (str "Measure name") (One (str "."))
              [example_composite] example_composite eq_refl)
    as (_ & _ & H & _).
  - repeat constructor; cbn; intuition discriminate.
  - cbn. now left.
  - cbn. intuition discriminate.
  - cbn. intuition discriminate.
  - discriminate.
  - discriminate.
  - exact Hsome.
  - exact H.
Defined.

(** ** Functions that work on a copy *)

Lemma frames_fresh (m : M loc) (h : heap) :
  (forall l, frames (other_than l) l m) ->
  (forall l, l < length h -> snd (m h) !! l = h !! l)
  /\ (forall l', fst (m h) = Ok l' -> length h <= l').
Proof.
  intros Hm. split.
  - intros l Hl. destruct (Hm l h Hl) as (H & _ & _). now symmetry.
  - intros l' Hok. destruct (Nat.le_gt_cases (length h) l') as [Hle|Hlt]; [exact Hle|].
    destruct (Hm l' h Hlt) as (_ & _ & H). rewrite Hok in H. now contradiction H.
Qed.

(** X5.  [split_demographic_variable_name_column], [split_measure_name_column]
    and [unpivot_dataframe] never change a table that exists when they are
    called, whether they return or raise: they drop, or melt, into a new
    object first, and a table they return is that new object. *)
Theorem annotation_splitters_and_unpivoter_work_on_a_copy
    (df : loc) (input_column : pystr) (h : heap) :
  let r1 := split_demographic_variable_name_column df input_column h in
  let r2 := split_measure_name_column df input_column h in
  let r3 := unpivot_dataframe df h in
  (forall l, l < length h ->
     snd r1 !! l = h !! l /\ snd r2 !! l = h !! l /\ snd r3 !! l = h !! l)
  /\ (forall l', fst r1 = Ok l' \/ fst r2 = Ok l' \/ fst r3 = Ok l' -> length h <= l').
Proof.
  cbv zeta.
  destruct (frames_fresh (split_demographic_variable_name_column df input_column) h
              (fun l => frames_split_demographic_variable_name_column l df input_column))
    as [H1 H1'].
  destruct (frames_fresh (split_measure_name_column df input_column) h
              (fun l => frames_split_measure_name_column l df input_column))
    as [H2 H2'].
  destruct (frames_fresh (unpivot_dataframe df) h
              (fun l => frames_unpivot_dataframe l df))
    as [H3 H3'].
  split.
  - intros l Hl. split; [|split]; auto.
  - intros l' [H|[H|H]]; auto.
Qed.

Lemma annotation_splitters_and_unpivoter_work_on_a_copy_witness :
  snd (split_demographic_variable_name_column 0 (str "Demographic variable")
         example_heap) !! 0 = Some example_data
  /\ snd (split_measure_name_column 0 (str "Response") example_heap) !! 0
     = Some example_data
  /\ snd (unpivot_dataframe 0 example_heap) !! 0 = Some example_data.
Proof.
  destruct (annotation_splitters_and_unpivoter_work_on_a_copy 0
              (str "Demographic variable") example_heap) as [H _].
  destruct (annotation_splitters_and_unpivoter_work_on_a_copy 0
              (str "Response") example_heap) as [H' _].
  cbv zeta in H, H'.
  destruct (H 0 ltac:(cbn; lia)) as (H1 & _ & H3).
  destruct (H' 0 ltac:(cbn; lia)) as (_ & H2 & _).
  split; [exact H1|split; [exact H2|exact H3]].
Defined.

(** ** Trimming *)

Lemma drop_while_head (p : ascii -> bool) (s : pystr) :
  match drop_while p s with
  | c :: _ => p c = false
  | [] => True
  end.
Proof.
  induction s as [|c t IH]; cbn [drop_while]; [exact I|].
  destruct (p c) eqn:E; [exact IH|exact E].
Qed.

Lemma drop_while_fixed (p : ascii -> bool) (s : pystr) :
  match s with c :: _ => p c = false | [] => True end -> drop_while p s = s.
Proof. destruct s as [|c t]; [reflexivity|]. cbn [drop_while]. now intros ->. Qed.

(** What [strip_with] returns begins and ends with a character that
    stays. *)
Lemma strip_with_ends (p : ascii -> bool) (s : pystr) :
  drop_while p (strip_with p s) = strip_with p s
  /\ drop_while p (rev (strip_with p s)) = rev (strip_with p s).
Proof.
  unfold strip_with. set (a := drop_while p s).
  assert (Ha : match a with c :: _ => p c = false | [] => True end)
    by apply drop_while_head.
  split.
  - destruct (take_drop_while p (rev a)) as [Hsplit _].
    apply (f_equal (@rev ascii)) in Hsplit.
    rewrite rev_involutive, rev_app_distr in Hsplit.
    apply drop_while_fixed.
    destruct (rev (drop_while p (rev a))) as [|c t]; [exact I|].
    rewrite Hsplit in Ha. exact Ha.
  - rewrite rev_involutive. apply drop_while_fixed. apply drop_while_head.
Qed.

Lemma strip_with_idempotent (p : ascii -> bool) (s : pystr) :
  strip_with p (strip_with p s) = strip_with p s.
Proof.
  destruct (strip_with_ends p s) as [H1 H2].
  unfold strip_with at 1. rewrite H1, H2. apply rev_involutive.
Qed.

Lemma strip_idempotent (s : pystr) : strip (strip s) = strip s.
Proof. apply strip_with_idempotent. Qed.

(** X6.  [strip_column_names] always returns the table it was given, keeps the
    cells and the number of columns, and doing it again changes nothing
    more. *)
Theorem strip_column_names_idempotent (df : loc) (h : heap) :
  let r := strip_column_names df h in
  fst r = Ok df
  /\ strip_column_names df (snd r) = r
  /\ length (snd r) = length h
  /\ map snd (default [] (snd r !! df)) = map snd (default [] (h !! df))
  /\ columns (default [] (snd r !! df)) = map strip (columns (default [] (h !! df))).
Proof.
  cbv zeta. unfold strip_column_names. run_monad. cbn [fst snd].
  set (d := default [] (h !! df)).
  assert (Hlen : length (map strip (columns d)) = length d)
    by (unfold columns; now rewrite !length_map).
  destruct (set_columns_cells _ d Hlen) as [Hcols Hcells].
  split; [reflexivity|].
  destruct (Nat.lt_ge_cases df (length h)) as [Hl|Hl].
  - rewrite list_lookup_insert_eq by exact Hl. cbn [default from_option]. unfold id.
    split; [|split; [apply length_insert|split; assumption]].
    f_equal. rewrite list_insert_insert_eq. f_equal.
    rewrite Hcols, map_map.
    rewrite (map_ext (fun x => strip (strip x)) strip) by apply strip_idempotent.
    apply set_columns_twice. exact Hlen.
  - assert (Hd : d = []).
    { unfold d. now rewrite lookup_ge_None_2 by exact Hl. }
    rewrite Hd. cbn [columns map set_columns combine].
    rewrite !list_insert_ge by (rewrite ?length_insert; exact Hl).
    fold d. rewrite Hd. auto.
Qed.

(** X7.  The labels the two annotation parsers return have no whitespace at
    either end, and the provenance begins and ends with none of the
    characters [ :,-]: trimming them again changes nothing. *)
Theorem split_row_outputs_are_trimmed (value : pystr) (c : cell) :
  strip (fst (Measure.split_row value)) = fst (Measure.split_row value)
  /\ strip (fst (Demographic.split_row c)) = fst (Demographic.split_row c)
  /\ strip_chars (str " :,-") (snd (Demographic.split_row c))
     = snd (Demographic.split_row c).
Proof.
  split; [|split].
  - unfold Measure.split_row. cbn [fst]. apply strip_idempotent.
  - unfold Demographic.split_row.
    destruct (re_match Demographic.annotation_pattern (cell_str c)) as [[r caps]|];
      [|apply strip_idempotent].
    destruct (contains _ _); apply strip_idempotent.
  - unfold Demographic.split_row.
    destruct (re_match Demographic.annotation_pattern (cell_str c)) as [[r caps]|];
      [|reflexivity].
    destruct (contains _ _); [|reflexivity].
    cbn [snd]. unfold strip_chars. apply strip_with_idempotent.
Qed.

(** ** The words of a Response *)

Lemma isspace_lower (c : ascii) : isspace (lower c) = isspace c.
Proof.
  destruct c as [b0 b1 b2 b3 b4 b5 b6 b7].
  destruct b0, b1, b2, b3, b4, b5, b6, b7; reflexivity.
Qed.

Lemma lower_lower (c : ascii) : lower (lower c) = lower c.
Proof.
  destruct c as [b0 b1 b2 b3 b4 b5 b6 b7].
  destruct b0, b1, b2, b3, b4, b5, b6, b7; reflexivity.
Qed.

Lemma str_lower_idempotent (s : pystr) : str_lower (str_lower s) = str_lower s.
Proof.
  unfold str_lower. rewrite map_map. apply map_ext. intros c. apply lower_lower.
Qed.

Lemma split_ws_aux_word (w : pystr) : forall cur s,
  is_word w -> split_ws_aux cur (w ++ s) = split_ws_aux (rev w ++ cur) s.
Proof.
  induction w as [|c w IH]; intros cur s Hw; [reflexivity|].
  unfold is_word in Hw. cbn [forallb] in Hw. apply andb_true_iff in Hw as [Hc Hw].
  apply negb_true_iff in Hc.
  cbn [app split_ws_aux]. rewrite Hc. rewrite IH by exact Hw.
  cbn [rev]. now rewrite <- app_assoc.
Qed.

Lemma split_ws_aux_words (s : pystr) : forall cur,
  is_word cur ->
  Forall (fun w => w <> [] /\ is_word w) (split_ws_aux cur s).
Proof.
  assert (Hrev : forall cur, is_word cur -> is_word (rev cur)).
  { intros cur H. unfold is_word in *. rewrite forallb_forall in *.
    intros x Hx. apply H. now apply in_rev. }
  induction s as [|c t IH]; intros cur Hcur; cbn [split_ws_aux].
  - destruct cur as [|x cur]; [constructor|].
    constructor; [|constructor]. split; [|now apply Hrev].
    cbn [rev]. intros H. now apply app_eq_nil in H as [_ H].
  - destruct (isspace c) eqn:Hc.
    + destruct cur as [|x cur]; [now apply IH|].
      constructor; [|now apply IH].
      split; [|now apply Hrev].
      cbn [rev]. intros H. now apply app_eq_nil in H as [_ H].
    + apply IH. unfold is_word in *. cbn [forallb]. now rewrite Hc, Hcur.
Qed.

Lemma split_ws_words (s : pystr) :
  Forall (fun w => w <> [] /\ is_word w) (split_ws s).
Proof. apply split_ws_aux_words. reflexivity. Qed.

(** Words joined with single spaces split into the same words. *)
Lemma split_ws_join (ws : list pystr) :
  Forall (fun w => w <> [] /\ is_word w) ws ->
  split_ws (join (str " ") ws) = ws.
Proof.
  unfold split_ws. induction ws as [|w ws IH]; intros H; [reflexivity|].
  apply Forall_cons in H as [[Hne Hw] H].
  destruct ws as [|w' ws].
  - cbn [join]. rewrite <- (app_nil_r w) at 1.
    rewrite split_ws_aux_word by exact Hw. rewrite app_nil_r. cbn [split_ws_aux].
    destruct (rev w) as [|x r] eqn:E.
    + apply (f_equal (@rev ascii)) in E. rewrite rev_involutive in E. now subst.
    + now rewrite <- E, rev_involutive.
  - change (join (str " ") (w :: w' :: ws))
      with (w ++ " "%char :: join (str " ") (w' :: ws)).
    rewrite split_ws_aux_word by exact Hw. rewrite app_nil_r.
    cbn [split_ws_aux]. change (isspace " ") with true. cbv iota.
    destruct (rev w) as [|x r] eqn:E.
    + apply (f_equal (@rev ascii)) in E. rewrite rev_involutive in E. now subst.
    + rewrite <- E, rev_involutive. f_equal. now apply IH.
Qed.

Lemma is_word_lower (w : pystr) : is_word w -> is_word (str_lower w).
Proof.
  unfold is_word, str_lower. induction w as [|c w IH]; [reflexivity|].
  cbn [map forallb]. rewrite isspace_lower. intros H.
  apply andb_true_iff in H as [-> H]. now apply IH.
Qed.

Lemma recase_words (val : cell) (first : pystr) (rest : list pystr) :
  split_ws (cell_str val) = first :: rest ->
  split_ws (cell_str (recase val)) = first :: map str_lower rest.
Proof.
  intros H. unfold recase. rewrite H. cbn [cell_str].
  apply split_ws_join.
  pose proof (split_ws_words (cell_str val)) as Hw. rewrite H in Hw.
  apply Forall_cons in Hw as [Hf Hr]. constructor; [exact Hf|].
  apply Forall_map. eapply Forall_impl; [exact Hr|].
  cbn. intros w [Hne Hw]. split; [|now apply is_word_lower].
  destruct w; [congruence|discriminate].
Qed.

Lemma transform_response_twice (val : cell) :
  transform_response (transform_response val) = transform_response val.
Proof.
  rewrite !transform_response_recase.
  destruct (split_ws (cell_str val)) as [|first rest] eqn:E.
  - unfold recase at 2. rewrite E. unfold recase. now rewrite E.
  - pose proof (recase_words val first rest E) as E'.
    unfold recase at 1. rewrite E'.
    unfold recase. rewrite E. cbn [map].
    now rewrite (map_map str_lower str_lower),
      (map_ext _ _ str_lower_idempotent).
Qed.

Lemma where_series_twice (f : cell -> cell) :
  (forall x, f (f x) = f x) ->
  forall (rs : series) (mask : list bool),
    let once := where_series (map f rs) mask rs in
    where_series (map f once) mask once = once.
Proof.
  intros Hf. cbv zeta. induction rs as [|r rs IH]; intros [|b mask]; cbn; try reflexivity.
  rewrite IH. destruct b; [now rewrite Hf|reflexivity].
Qed.

Lemma getitem_assign_other (n m : pystr) (col : series) (df : DataFrame) :
  eqb_str m n = false -> getitem (assign m col df) n = getitem df n.
Proof. intros H. unfold getitem. now rewrite labelled_assign, H. Qed.

Lemma getitem_assign_same (m : pystr) (col old : series) (df : DataFrame) :
  getitem df m = Ok old -> getitem (assign m col df) m = Ok col.
Proof.
  unfold getitem. rewrite labelled_assign, eqb_str_refl.
  destruct (labelled m df) as [|[n c] [|x l]]; try discriminate. reflexivity.
Qed.

Lemma lowercase_response_except_first_word_result
    (df : loc) (name : pystr) (h : heap) :
  let d := default [] (h !! df) in
  lowercase_response_except_first_word df name h
  = match getitem d (str "Demographic variable name") with
    | Raise e => (Raise e, h)
    | Ok names =>
        match getitem d (str "Response") with
        | Raise e => (Raise e, h)
        | Ok response =>
            (Ok df,
             <[df := assign (str "Response")
                       (where_series (map transform_response response)
                          (map (fun c => match c with
                                         | Str s => eqb_str s name
                                         | NaN => false
                                         end) names)
                          response) d]> h)
        end
    end.
Proof.
  cbv zeta. unfold lowercase_response_except_first_word. run_monad.
  destruct (getitem _ (str "Demographic variable name")); [|reflexivity].
  destruct (getitem _ (str "Response")); reflexivity.
Qed.

(** X8.  [lowercase_response_except_first_word] is idempotent: the words of a
    Response it has written are the first word and lower-case words, with
    single spaces, which it writes again; a second run, on the table the
    first returns, changes nothing and returns or raises as the first. *)
Theorem lowercase_response_except_first_word_idempotent
    (df : loc) (demographic_variable_name : pystr) (h : heap) :
  (forall val, transform_response (transform_response val) = transform_response val)
  /\ (do df' <- lowercase_response_except_first_word df demographic_variable_name;
      lowercase_response_except_first_word df' demographic_variable_name) h
     = lowercase_response_except_first_word df demographic_variable_name h.
Proof.
  split; [apply transform_response_twice|].
  unfold bind. rewrite lowercase_response_except_first_word_result. cbv zeta.
  set (d := default [] (h !! df)).
  destruct (getitem d (str "Demographic variable name")) as [names|e] eqn:En;
    [|reflexivity].
  destruct (getitem d (str "Response")) as [rs|e] eqn:Er; [|reflexivity].
  assert (Hl : df < length h).
  { destruct (Nat.lt_ge_cases df (length h)) as [Hl|Hl]; [exact Hl|].
    exfalso. unfold d in En. rewrite lookup_ge_None_2 in En by exact Hl.
    discriminate En. }
  rewrite lowercase_response_except_first_word_result. cbv zeta.
  rewrite list_lookup_insert_eq by exact Hl. cbn [default from_option]. unfold id.
  rewrite getitem_assign_other by reflexivity. rewrite En.
  rewrite (getitem_assign_same _ _ rs) by exact Er.
  rewrite list_insert_insert_eq, assign_assign.
  now rewrite (where_series_twice transform_response transform_response_twice).
Qed.

(** ** Errors of [clean_data] *)

(** X9.  Without a [Response] column [clean_data] raises a [KeyError] at its
    first selection of the column, whatever the mapping and the target
    are, and the table is as it was. *)
Theorem clean_data_without_response (df : loc)
    (mapping : option (gmap pystr pystr)) (target : option pystr) (h : heap) :
  mem_str (str "Response") (columns (default [] (h !! df))) = false ->
  clean_data df mapping target h = (Raise (KeyError (str "Response")), h).
Proof.
  intros Habs.
  assert (Hget : getitem (default [] (h !! df)) (str "Response")
                 = Raise (KeyError (str "Response"))).
  { unfold getitem. rewrite labelled_absent; [reflexivity|].
    intros Hin. apply mem_str_In in Hin. congruence. }
  unfold clean_data. destruct (nonempty_mapping mapping) as [m|];
    run_monad; now rewrite Hget.
Qed.

Lemma clean_data_without_response_witness :
  clean_data 1 None (Some (str "Work")) example_heap
  = (Raise (KeyError (str "Response")), example_heap).
Proof.
  apply (clean_data_without_response 1 None (Some (str "Work")) example_heap).
  reflexivity.
Defined.

(** X10.  With a target and no [Demographic variable name] column [clean_data]
    raises a [KeyError] in its last step, when the first two steps have
    already rewritten the [Response] column of the caller's table. *)
Theorem clean_data_raises_after_rewriting_the_response (df : loc)
    (mapping : option (gmap pystr pystr)) (target : pystr)
    (h : heap) (d : DataFrame) (responses : series) :
  h !! df = Some d ->
  labelled (str "Response") d = [(str "Response", responses)] ->
  target <> [] ->
  mem_str (str "Demographic variable name") (columns d) = false ->
  clean_data df mapping (Some target) h
  = (Raise (KeyError (str "Demographic variable name")),
     <[df := assign (str "Response")
               (map (str_replace_cell england_pattern)
                    (map (replace_cell (default ∅ mapping)) responses)) d]> h).
Proof.
  intros Hd Hresp Htarget Habs.
  assert (Hl : df < length h) by (apply lookup_lt_is_Some; eauto).
  unfold clean_data.
  rewrite (clean_data_first_steps df mapping h d responses _ Hd Hresp). cbv zeta.
  destruct target as [|c t]; [congruence|]. cbn [nonempty_str].
  rewrite lowercase_response_except_first_word_result. cbv zeta.
  rewrite list_lookup_insert_eq by exact Hl. cbn [default from_option]. unfold id.
  rewrite getitem_assign_other by reflexivity.
  unfold getitem at 1. rewrite labelled_absent.
  2:{ intros Hin. apply mem_str_In in Hin. congruence. }
  f_equal. f_equal. f_equal. rewrite map_map. apply map_ext. intros r.
  unfold clean_response. now rewrite str_replace_england, replace_cell_lookup.
Qed.

Lemma clean_data_raises_after_rewriting_the_response_witness :
  clean_data 0 None (Some (str "Work"))
    [[(str "Response", [Str (str "London (England)"); Str (str "FULL TIME")])]]
  = (Raise (KeyError (str "Demographic variable name")),
     [[(str "Response", [Str (str "London"); Str (str "FULL TIME")])]]).
Proof.
  rewrite (clean_data_raises_after_rewriting_the_response 0 None (str "Work")
             [[(str "Response", [Str (str "London (England)"); Str (str "FULL TIME")])]]
             [(str "Response", [Str (str "London (England)"); Str (str "FULL TIME")])]
             [Str (str "London (England)"); Str (str "FULL TIME")]
             eq_refl eq_refl ltac:(discriminate) eq_refl).
  vm_compute. reflexivity.
Defined.

(** ** The Footnote Stripper on labels without brackets *)

Lemma remove_column_name_note_numbers_result
    (df_data df_notes : loc) (note_number_column : pystr) (h : heap)
    (d notes : DataFrame) (col : series) :
  h !! df_data = Some d ->
  h !! df_notes = Some notes ->
  labelled note_number_column notes = [(note_number_column, col)] ->
  remove_column_name_note_numbers df_data df_notes note_number_column h
  = (Ok df_data,
     <[df_data := set_columns (map (new_column_name (dropna_str col)) (columns d)) d]> h).
Proof.
  intros Hd Hnotes Hcol.
  assert (Hl : df_data < length h) by (apply lookup_lt_is_Some; eauto).
  unfold remove_column_name_note_numbers, strip_column_names.
  unfold bind at 1. unfold load at 1. cbn beta iota.
  rewrite Hnotes. cbn [default from_option]. unfold id.
  rewrite (labelled_mem _ _ _ Hcol). cbn [negb].
  unfold bind at 1. unfold lift at 1. rewrite (getitem_unique _ _ _ Hcol).
  cbn beta iota. unfold bind at 1. unfold load at 1. cbn beta iota.
  rewrite Hd. cbn [default from_option]. unfold id.
  unfold bind at 1. unfold store at 1. cbn beta iota.
  unfold bind at 1. unfold load at 1. cbn beta iota.
  rewrite list_lookup_insert_eq by exact Hl. cbn [default from_option]. unfold id.
  unfold bind at 1. unfold store at 1, ret. cbn beta iota.
  rewrite list_insert_insert_eq. f_equal. f_equal.
  assert (Hlen : length (map (re_sub (combined_pattern (dropna_str col))) (columns d))
                 = length d) by (unfold columns; now rewrite !length_map).
  destruct (set_columns_cells _ d Hlen) as [-> _].
  rewrite set_columns_twice by exact Hlen.
  unfold new_column_name. now rewrite map_map.
Qed.

Lemma reference_begins_with_a_bracket (ids : list pystr) (r : pystr) :
  reference ids r -> exists body, r = "["%char :: body.
Proof. intros H. destruct H; eauto. Qed.

Lemma re_sub_without_bracket (ids : list pystr) (subject : pystr) :
  forall fuel suf,
    has_char "[" suf = false ->
    re_sub_from fuel (combined_pattern ids) subject suf = suf.
Proof.
  induction fuel as [|fuel IH]; intros suf Hno; [reflexivity|].
  cbn [re_sub_from]. rewrite match_no_reference.
  - destruct suf as [|c t]; [reflexivity|]. f_equal. apply IH.
    cbn [has_char existsb] in Hno. now apply orb_false_iff in Hno as [_ Hno].
  - intros r rest Hr ->.
    destruct (reference_begins_with_a_bracket ids r Hr) as [body ->].
    cbn in Hno. discriminate Hno.
Qed.

(** X11.  Every pattern of the Footnote Stripper begins with an opening square
    bracket: a label without one is only trimmed, whatever the registry
    holds.  The cells and the number of columns of the data table stay. *)
Theorem remove_column_name_note_numbers_keeps_plain_labels
    (df_data df_notes : loc) (note_number_column : pystr) (h : heap)
    (d notes : DataFrame) (col : series) :
  h !! df_data = Some d ->
  h !! df_notes = Some notes ->
  labelled note_number_column notes = [(note_number_column, col)] ->
  exists d',
    remove_column_name_note_numbers df_data df_notes note_number_column h
    = (Ok df_data, <[df_data := d']> h)
    /\ map snd d' = map snd d
    /\ length (columns d') = length (columns d)
    /\ forall i name,
         columns d !! i = Some name -> has_char "[" name = false ->
         columns d' !! i = Some (strip name).
Proof.
  intros Hd Hnotes Hcol.
  exists (set_columns (map (new_column_name (dropna_str col)) (columns d)) d).
  split; [now apply (remove_column_name_note_numbers_result _ _ _ _ _ notes)|].
  assert (Hlen : length (map (new_column_name (dropna_str col)) (columns d)) = length d)
    by (unfold columns; now rewrite !length_map).
  destruct (set_columns_cells _ d Hlen) as [Hcols Hcells].
  split; [exact Hcells|]. rewrite Hcols. split; [apply length_map|].
  intros i name Hi Hno. rewrite list_lookup_fmap, Hi.
  cbn [fmap option_fmap option_map]. f_equal.
  unfold new_column_name, re_sub. now rewrite re_sub_without_bracket.
Qed.

Lemma remove_column_name_note_numbers_keeps_plain_labels_witness :
  exists d',
    remove_column_name_note_numbers 0 1 (str "Note number")
      [example_footnotes; example_registry]
    = (Ok 0, <[0 := d']> [example_footnotes; example_registry])
    /\ map snd d' = map snd example_footnotes
    /\ length (columns d') = length (columns example_footnotes)
    /\ forall i name,
         columns example_footnotes !! i = Some name -> has_char "[" name = false ->
         columns d' !! i = Some (strip name).
Proof.
  apply (remove_column_name_note_numbers_keeps_plain_labels 0 1 (str "Note number")
           [example_footnotes; example_registry] example_footnotes example_registry
           [Str (str "1"); NaN; Str (str "2")]); reflexivity.
Defined.

(** ** Errors of [reshape_data] *)

Lemma strip_column_names_result (df : loc) (h : heap) :
  strip_column_names df h
  = (Ok df,
     <[df := set_columns (map strip (columns (default [] (h !! df))))
               (default [] (h !! df))]> h).
Proof. reflexivity. Qed.

(** X12.  [reshape_data] strips the labels of both tables before it looks for
    the registry column: when the notes table has no column whose
    stripped label is [Note number], the error of a missing column is
    raised with the labels of both tables already stripped in place. *)
Theorem reshape_data_missing_registry_column
    (df_data df_notes : loc) (delims : delimiters) (h : heap)
    (d notes : DataFrame) :
  h !! df_data = Some d ->
  h !! df_notes = Some notes ->
  df_data <> df_notes ->
  mem_str (str "Note number") (map strip (columns notes)) = false ->
  reshape_data df_data df_notes delims h
  = (Raise (missing_column (str "Note number") (str "df_notes")),
     <[df_notes := set_columns (map strip (columns notes)) notes]>
       (<[df_data := set_columns (map strip (columns d)) d]> h)).
Proof.
  intros Hd Hnotes Hne Habs.
  assert (Hl : df_notes < length h) by (apply lookup_lt_is_Some; eauto).
  unfold reshape_data.
  unfold bind at 1. rewrite strip_column_names_result, Hd.
  cbn [default from_option]. unfold id.
  unfold bind at 1. rewrite strip_column_names_result.
  rewrite list_lookup_insert_ne by exact Hne. rewrite Hnotes.
  cbn [default from_option]. unfold id.
  unfold bind at 1. unfold remove_column_name_note_numbers.
  unfold bind at 1. unfold load at 1. cbn beta iota.
  rewrite list_lookup_insert_eq by (rewrite length_insert; exact Hl).
  cbn [default from_option]. unfold id.
  assert (Hlen : length (map strip (columns notes)) = length notes)
    by (unfold columns; now rewrite !length_map).
  destruct (set_columns_cells _ notes Hlen) as [-> _].
  rewrite Habs. reflexivity.
Qed.

Lemma reshape_data_missing_registry_column_witness :
  reshape_data 0 1 (One (str "."))
    [example_data; [(str " Notes ", [Str (str "1")])]]
  = (Raise (missing_column (str "Note number") (str "df_notes")),
     [example_data; [(str "Notes", [Str (str "1")])]]).
Proof.
  rewrite (reshape_data_missing_registry_column 0 1 (One (str "."))
             [example_data; [(str " Notes ", [Str (str "1")])]]
             example_data [(str " Notes ", [Str (str "1")])]
             eq_refl eq_refl ltac:(discriminate) eq_refl).
  reflexivity.
Defined.

(** ** Labels without a parenthetical *)

Lemma pieces_without_closing (s : pystr) : forall d open,
  has_char ")" s = false -> exists t, pieces d open s = map Text t.
Proof.
  induction s as [|c s IH]; intros d open Hno.
  - destruct open as [body|]; cbn [pieces].
    + exists ("("%char :: rev body). reflexivity.
    + exists []. reflexivity.
  - cbn [has_char existsb] in Hno. apply orb_false_iff in Hno as [Hc Hno].
    rewrite Ascii.eqb_sym in Hc. cbn [pieces]. rewrite Hc.
    destruct open as [body|].
    + destruct (Ascii.eqb c "("); apply IH; exact Hno.
    + destruct (Ascii.eqb c "(").
      * destruct (d =? 0)%Z; [apply IH; exact Hno|].
        destruct (IH (d + 1)%Z None Hno) as [t ->]. now exists (c :: t).
      * destruct (IH d None Hno) as [t ->]. now exists (c :: t).
Qed.

Lemma has_char_app (c : ascii) (a b : pystr) :
  has_char c (a ++ b) = has_char c a || has_char c b.
Proof. unfold has_char. apply existsb_app. Qed.

(** X13.  A measure label without a closing parenthesis and a variable label
    without an opening parenthesis have no parenthetical: the label is the
    trimmed text, and the definition or provenance is empty, also when a
    parenthesis is left open. *)
Theorem labels_without_parenthetical_are_only_trimmed (value : pystr) (c : cell) :
  (has_char ")" value = false -> Measure.split_row value = (strip value, []))
  /\ (has_char "(" (cell_str c) = false ->
      Demographic.split_row c = (strip (cell_str c), [])).
Proof.
  split.
  - intros Hno. rewrite split_row_pieces.
    destruct (pieces_without_closing value 0%Z None Hno) as [t Ht].
    pose proof (render_pieces value 0%Z None) as Hr. cbv iota in Hr.
    rewrite Ht in *. rewrite flat_map_text in Hr by reflexivity. subst t.
    now rewrite flat_map_text, collected_text by reflexivity.
  - intros Hno. rewrite split_row_variable_annotation. unfold variable_annotation.
    destruct (parse_annotation (cell_str c)) as [[main content]|] eqn:E;
      [|reflexivity].
    exfalso. apply parse_annotation_sound in E.
    destruct E as (w1 & w2 & Hs & _).
    rewrite Hs, !has_char_app in Hno. cbn [has_char existsb] in Hno.
    change (Ascii.eqb "(" "(") with true in Hno.
    rewrite orb_true_l, !orb_true_r in Hno. discriminate Hno.
Qed.

Lemma labels_without_parenthetical_witness :
  Measure.split_row (str " Rate (base: all ") = (str "Rate (base: all", [])
  /\ Demographic.split_row (Str (str "Age group) ")) = (str "Age group)", []).
Proof.
  destruct (labels_without_parenthetical_are_only_trimmed
              (str " Rate (base: all ") (Str (str "Age group) "))) as [H1 H2].
  split; [exact (H1 eq_refl)|exact (H2 eq_refl)].
Defined.

(** ** The columns of what [reshape_data] returns *)

(** A computation that returns: its steps returned. *)
Lemma bind_ok {A B} (m : M A) (f : A -> M B) (h h' : heap) (b : B) :
  bind m f h = (Ok b, h') ->
  exists a h1, m h = (Ok a, h1) /\ f a h1 = (Ok b, h').
Proof.
  unfold bind. destruct (m h) as [[a|e] h1]; [|discriminate].
  intros H. now exists a, h1.
Qed.

Lemma insert_ok (l : loc) (i : nat) (name : pystr) (col : series)
    (h h' : heap) (u : unit) :
  insert l i name col h = (Ok u, h') ->
  mem_str name (columns (default [] (h !! l))) = false
  /\ h' = <[l := insert_at i (name, col) (default [] (h !! l))]> h.
Proof.
  unfold insert, bind, load, store, raise.
  destruct (mem_str name (columns (default [] (h !! l)))); [discriminate|].
  intros H. injection H as _ <-. auto.
Qed.

Lemma drop_column_ok (l l' : loc) (name : pystr) (h h' : heap) :
  drop_column l name h = (Ok l', h') ->
  l' = length h /\ h' = h ++ [without name (default [] (h !! l))].
Proof.
  unfold drop_column, bind, load, alloc, raise.
  destruct (mem_str name (columns (default [] (h !! l)))); [|discriminate].
  intros H. injection H as <- <-. auto.
Qed.

Lemma labelled_single (name : pystr) (df : DataFrame) (x : pystr * series) :
  labelled name df = [x] ->
  exists pre post col,
    df = pre ++ (name, col) :: post /\ x = (name, col)
    /\ ~ In name (columns pre) /\ ~ In name (columns post).
Proof.
  induction df as [|[n c] df IH]; [discriminate|].
  cbn [labelled List.filter fst]. fold (labelled name df).
  destruct (eqb_str name n) eqn:E.
  - apply eqb_str_eq in E. subst n. intros H. injection H as <- Hrest.
    exists [], df, c. repeat split; [intros []|].
    intros Hin. apply mem_str_In in Hin. unfold mem_str in Hin.
    apply existsb_exists in Hin as (y & Hy & Ey).
    unfold columns in Hy. apply in_map_iff in Hy as ([n' c'] & <- & Hy).
    assert (Hl : In (n', c') (labelled name df)).
    { unfold labelled. apply filter_In. split; [exact Hy|exact Ey]. }
    rewrite Hrest in Hl. destruct Hl.
  - intros H. destruct (IH H) as (pre & post & col & -> & -> & Hpre & Hpost).
    exists ((n, c) :: pre), post, col. repeat split; [|exact Hpost].
    cbn [columns map fst]. intros [Hn|Hin]; [|now apply Hpre].
    subst n. now rewrite eqb_str_refl in E.
Qed.

Lemma getitem_ok (df : DataFrame) (name : pystr) (col : series) :
  getitem df name = Ok col ->
  exists pre post,
    df = pre ++ (name, col) :: post
    /\ ~ In name (columns pre) /\ ~ In name (columns post).
Proof.
  unfold getitem. destruct (labelled name df) as [|[n c] [|y l]] eqn:E;
    try discriminate.
  intros H. injection H as ->.
  destruct (labelled_single _ _ _ E) as (pre & post & c' & -> & Hx & Hpre & Hpost).
  injection Hx as -> ->. now exists pre, post.
Qed.

Lemma lookup_default (h : heap) (l : loc) (x : pystr * series) (d : DataFrame) :
  default [] (h !! l) = x :: d -> h !! l = Some (x :: d).
Proof. destruct (h !! l); cbn; [now intros ->|discriminate]. Qed.

Lemma columns_app (a b : DataFrame) : columns (a ++ b) = columns a ++ columns b.
Proof. apply map_app. Qed.

Lemma not_in_columns (name : pystr) (df : DataFrame) :
  mem_str name (columns df) = false -> ~ In name (columns df).
Proof. intros H Hin. apply mem_str_In in Hin. congruence. Qed.

Lemma where_series_length (n : nat) : forall (s : series) (cond : list bool) (other : series),
  length s = n -> length cond = n -> length other = n ->
  length (where_series s cond other) = n.
Proof.
  induction n as [|n IH]; intros [|x s] [|b cond] [|y other] H1 H2 H3;
    cbn in *; try discriminate; try reflexivity.
  f_equal. apply IH; lia.
Qed.

(** When [split_column_on_delimiter] returns, the input label occurred
    once, the output labels were new, and the table returned is a new
    object with the output labels in the place of the input label. *)
Lemma split_column_on_delimiter_ok (df l : loc) (input out1 out2 : pystr)
    (delims : delimiters) (h h' : heap) :
  split_column_on_delimiter df input out1 out2 delims h = (Ok l, h') ->
  exists d p q out,
    h !! df = Some d
    /\ columns d = p ++ input :: q
    /\ ~ In input p /\ ~ In input q
    /\ ~ In out1 (columns d) /\ ~ In out2 (columns d) /\ out1 <> out2
    /\ l = length h /\ h' !! l = Some out
    /\ columns out = p ++ out1 :: out2 :: q
    /\ (exists d', h' !! df = Some d'
                   /\ columns d' = p ++ out1 :: out2 :: input :: q)
    /\ forall n, rows_all n d -> rows_all n out.
Proof.
  unfold split_column_on_delimiter. intros H.
  apply bind_ok in H as (d & h1 & Hload & H). injection Hload as <- <-.
  set (d := default [] (h !! df)) in *.
  destruct (mem_str input (columns d)) eqn:Hmem; [|discriminate H].
  cbn [negb] in H.
  apply bind_ok in H as (col & h1 & Hget & H). unfold lift in Hget.
  injection Hget as Hget <-.
  destruct (getitem_ok _ _ _ Hget) as (pre & post & Hd & Hpre & Hpost).
  assert (Hdf : h !! df = Some d).
  { destruct pre; rewrite Hd; apply lookup_default; fold d; rewrite Hd; reflexivity. }
  clearbody d.
  assert (Hl : df < length h) by (apply lookup_lt_is_Some; eauto).
  apply bind_ok in H as (c1 & h1 & Hc1 & H).
  destruct (_ =? 0) in Hc1; [discriminate Hc1|]. injection Hc1 as <- <-.
  apply bind_ok in H as (c2 & h1 & Hc2 & H).
  destruct (1 <? _) in Hc2; [|discriminate Hc2]. injection Hc2 as <- <-.
  apply bind_ok in H as (u1 & h1 & Hi1 & H).
  apply insert_ok in Hi1 as [Ho1 ->].
  apply bind_ok in H as (u2 & h2 & Hi2 & H).
  apply insert_ok in Hi2 as [Ho2 ->].
  apply drop_column_ok in H as [-> ->].
  rewrite list_insert_insert_eq.
  rewrite list_lookup_insert_eq in Ho2 by exact Hl.
  rewrite list_lookup_insert_eq, length_insert by exact Hl.
  rewrite Hdf in *. cbn [default from_option] in *. unfold id in *.
  subst d.
  rewrite get_loc_around in * by assumption.
  rewrite insert_at_length in *.
  set (x1 := (out1, _)) in *.
  replace (length pre + 1) with (length (pre ++ [x1])) in *
    by (rewrite length_app; cbn; lia).
  replace (pre ++ x1 :: (input, col) :: post)
    with ((pre ++ [x1]) ++ (input, col) :: post) in *
    by (now rewrite <- app_assoc).
  rewrite insert_at_length in *.
  apply not_in_columns in Ho1, Ho2.
  assert (Hc : forall a b x, columns (a ++ x :: b) = columns a ++ fst x :: columns b).
  { intros a b x. now rewrite columns_app. }
  assert (Hout2 : ~ In out2 (columns (pre ++ (input, col) :: post))).
  { intros Hin. apply Ho2. rewrite Hc in *. rewrite columns_app.
    rewrite in_app_iff in *. cbn [In fst] in *. rewrite in_app_iff. tauto. }
  assert (Hne : out1 <> out2).
  { intros ->. apply Ho2. rewrite Hc, columns_app, !in_app_iff. cbn. tauto. }
  rewrite ?list_lookup_insert_eq by exact Hl. cbn [default from_option]. unfold id.
  set (x2 := (out2, _)).
  replace ((pre ++ [x1]) ++ x2 :: (input, col) :: post)
    with (pre ++ [x1; x2] ++ (input, col) :: post)
    by (rewrite <- app_assoc; reflexivity).
  rewrite without_around; [ | assumption | assumption | ].
  2:{ cbn [columns map fst x1 x2]. intros [Hin|[Hin|[]]]; subst.
      - apply Ho1. rewrite Hc, in_app_iff. cbn. tauto.
      - apply Hout2. rewrite Hc, in_app_iff. cbn. tauto. }
  exists (pre ++ (input, col) :: post), (columns pre), (columns post).
  eexists. split; [reflexivity|]. split; [apply Hc|].
  split; [exact Hpre|]. split; [exact Hpost|].
  split; [exact Ho1|]. split; [exact Hout2|]. split; [exact Hne|].
  split; [reflexivity|].
  split.
  { rewrite lookup_app_r by (rewrite length_insert; lia).
    rewrite length_insert, Nat.sub_diag. reflexivity. }
  split; [rewrite !columns_app; reflexivity|].
  split.
  { eexists. split.
    - rewrite lookup_app_l by (rewrite length_insert; exact Hl).
      now apply list_lookup_insert_eq.
    - rewrite !columns_app. reflexivity. }
  intros n Hn. unfold rows_all in *.
  apply Forall_app in Hn as [Hn1 Hn2]. apply Forall_cons in Hn2 as [Hn2 Hn3].
  cbn [snd] in Hn2.
  apply Forall_app. split; [exact Hn1|].
  apply Forall_app. split; [|exact Hn3].
  constructor; [|constructor; [|constructor]]; cbn [snd x1 x2].
  - unfold where_scalar. apply where_series_length;
      unfold str_strip, expand_column; now rewrite !length_map.
  - apply where_series_length; [| |exact Hn2];
      unfold str_strip, expand_column; now rewrite !length_map.
Qed.

Lemma split_row_columns_ok (df l : loc) (input n1 n2 : pystr)
    (f : cell -> pystr * pystr) (h h' : heap) (pre post : DataFrame) (col : series) :
  h !! df = Some (pre ++ (input, col) :: post) ->
  ~ In input (columns pre) -> ~ In input (columns post) ->
  (do df' <- drop_column df input;
   do cols <- lift (apply_split_row f col);
   run insert df' (length pre) n1 (fst cols);
   run insert df' (length pre + 1) n2 (snd cols);
   ret df') h = (Ok l, h') ->
  ~ In n1 (columns pre ++ columns post)
  /\ ~ In n2 (columns pre ++ columns post)
  /\ n1 <> n2
  /\ l = length h
  /\ exists out, h' !! l = Some out
                 /\ columns out = columns pre ++ n1 :: n2 :: columns post
                 /\ forall n, rows_all n (pre ++ (input, col) :: post) ->
                              rows_all n out.
Proof.
  intros Hd Hpre Hpost H.
  apply bind_ok in H as (df' & h1 & Hdrop & H).
  apply drop_column_ok in Hdrop as [-> ->].
  rewrite Hd in H. cbn [default from_option] in H. unfold id in H.
  pose proof (without_around input pre post col Hpre Hpost [] ltac:(intros [])) as W.
  cbn [app] in W. rewrite W in H. clear W.
  apply bind_ok in H as (cols & h1 & Hcols & H).
  unfold lift in Hcols. injection Hcols as Hcols <-.
  apply bind_ok in H as (u1 & h1 & Hi1 & H).
  apply insert_ok in Hi1 as [Ho1 ->].
  rewrite load_new in *. cbn [default from_option] in *. unfold id in *.
  rewrite store_new, insert_at_length in H.
  apply bind_ok in H as (u2 & h2 & Hi2 & H).
  apply insert_ok in Hi2 as [Ho2 ->].
  rewrite load_new in *. cbn [default from_option] in *. unfold id in *.
  rewrite store_new in H.
  set (x1 := (n1, fst cols)) in *.
  replace (length pre + 1) with (length (pre ++ [x1])) in H
    by (rewrite length_app; cbn; lia).
  replace (pre ++ x1 :: post) with ((pre ++ [x1]) ++ post) in H
    by (now rewrite <- app_assoc).
  rewrite insert_at_length in H.
  unfold ret in H. injection H as <- <-.
  apply not_in_columns in Ho1, Ho2.
  rewrite columns_app in Ho1. rewrite !columns_app in Ho2.
  cbn [columns map fst x1] in Ho2. fold (columns pre) in Ho2.
  fold (columns post) in Ho2.
  rewrite in_app_iff in Ho1. rewrite !in_app_iff in Ho2. cbn [In] in Ho2.
  split; [rewrite in_app_iff; tauto|].
  split; [rewrite in_app_iff; tauto|].
  split; [intros ->; tauto|]. split; [reflexivity|].
  eexists. split; [apply load_new|]. split.
  { rewrite !columns_app. cbn [columns map fst x1 app].
    rewrite <- app_assoc. reflexivity. }
  intros n Hn. unfold rows_all in *.
  apply Forall_app in Hn as [Hn1 Hn2]. apply Forall_cons in Hn2 as [Hn2 Hn3].
  cbn [snd] in Hn2.
  assert (Hc : length (fst cols) = n /\ length (snd cols) = n).
  { unfold apply_split_row in Hcols. destruct col as [|c col]; [discriminate Hcols|].
    injection Hcols as <-. cbn [fst snd map length] in *.
    rewrite !length_map. auto. }
  rewrite <- app_assoc. apply Forall_app. split; [exact Hn1|].
  constructor; [exact (proj1 Hc)|]. constructor; [exact (proj2 Hc)|exact Hn3].
Qed.

Lemma split_demographic_variable_name_column_ok (df l : loc) (input : pystr)
    (h h' : heap) :
  split_demographic_variable_name_column df input h = (Ok l, h') ->
  exists d p q out,
    h !! df = Some d
    /\ columns d = p ++ input :: q
    /\ ~ In input p /\ ~ In input q
    /\ ~ In (str "Demographic variable name") (p ++ q)
    /\ ~ In (str "Derived from") (p ++ q)
    /\ l = length h /\ h' !! l = Some out
    /\ columns out
       = p ++ str "Demographic variable name" :: str "Derived from" :: q
    /\ forall n, rows_all n d -> rows_all n out.
Proof.
  unfold split_demographic_variable_name_column. intros H.
  apply bind_ok in H as (d & h1 & Hload & H). injection Hload as <- <-.
  destruct (mem_str input (columns (default [] (h !! df)))) eqn:Hmem;
    [|discriminate H].
  cbn [negb] in H.
  apply bind_ok in H as (col & h1 & Hget & H). unfold lift in Hget.
  injection Hget as Hget <-.
  destruct (getitem_ok _ _ _ Hget) as (pre & post & Hd & Hpre & Hpost).
  assert (Hdf : h !! df = Some (pre ++ (input, col) :: post)).
  { destruct pre; apply lookup_default; rewrite Hd; reflexivity. }
  rewrite Hd in H. rewrite get_loc_around in H by assumption.
  destruct (split_row_columns_ok _ _ _ _ _ _ _ _ _ _ _ Hdf Hpre Hpost H)
    as (H1 & H2 & _ & -> & out & Hout & Hcols & Hrows).
  exists (pre ++ (input, col) :: post), (columns pre), (columns post), out.
  rewrite columns_app. repeat split; assumption.
Qed.

Lemma split_measure_name_column_ok (df l : loc) (input : pystr) (h h' : heap) :
  split_measure_name_column df input h = (Ok l, h') ->
  exists d p q out,
    h !! df = Some d
    /\ columns d = p ++ input :: q
    /\ ~ In input p /\ ~ In input q
    /\ ~ In (str "Measure name") (p ++ q)
    /\ ~ In (str "Definition") (p ++ q)
    /\ l = length h /\ h' !! l = Some out
    /\ columns out = p ++ str "Measure name" :: str "Definition" :: q
    /\ forall n, rows_all n d -> rows_all n out.
Proof.
  unfold split_measure_name_column. intros H.
  apply bind_ok in H as (d & h1 & Hload & H). injection Hload as <- <-.
  apply bind_ok in H as (col & h1 & Hget & H). unfold lift in Hget.
  injection Hget as Hget <-.
  destruct (getitem_ok _ _ _ Hget) as (pre & post & Hd & Hpre & Hpost).
  assert (Hdf : h !! df = Some (pre ++ (input, col) :: post)).
  { destruct pre; apply lookup_default; rewrite Hd; reflexivity. }
  rewrite Hd in H. rewrite get_loc_around in H by assumption.
  destruct (split_row_columns_ok _ _ _ _ _ _ _ _ _ _ _ Hdf Hpre Hpost H)
    as (H1 & H2 & _ & -> & out & Hout & Hcols & Hrows).
  exists (pre ++ (input, col) :: post), (columns pre), (columns post), out.
  rewrite columns_app. repeat split; assumption.
Qed.

Lemma labelled_labels (name : pystr) (df : DataFrame) :
  map fst (labelled name df) = List.filter (eqb_str name) (columns df).
Proof.
  unfold labelled, columns. induction df as [|[n c] df IH]; [reflexivity|].
  cbn [List.filter map fst]. destruct (eqb_str name n); cbn [map fst]; now rewrite IH.
Qed.

Lemma eqb_str_sym (a b : pystr) : eqb_str a b = eqb_str b a.
Proof.
  destruct (eqb_str a b) eqn:E; symmetry.
  - apply eqb_str_eq in E. subst. apply eqb_str_refl.
  - destruct (eqb_str b a) eqn:E'; [|reflexivity].
    apply eqb_str_eq in E'. subst. now rewrite eqb_str_refl in E.
Qed.

Lemma length_filter_split {A} (p q r : A -> bool) (d : list A) :
  (forall c, p c = q c || r c) -> (forall c, q c && r c = false) ->
  length (List.filter p d) = length (List.filter q d) + length (List.filter r d).
Proof.
  intros Hp Hqr. induction d as [|c d IH]; [reflexivity|].
  cbn [List.filter]. rewrite Hp. specialize (Hqr c).
  destruct (q c), (r c); cbn [orb andb length] in *; try discriminate; lia.
Qed.

(** Every column with one of the labels is selected once, whether or not
    the label is repeated. *)
Lemma length_unique_from (d : DataFrame) (seen vs : list pystr) :
  length (flat_map (fun v => labelled v d) (unique_from seen vs))
  = length (List.filter
              (fun c => mem_str (fst c) vs && negb (mem_str (fst c) seen)) d).
Proof.
  revert seen. induction vs as [|x t IH]; intros seen.
  - cbn [unique_from flat_map length]. induction d as [|c d IHd]; [reflexivity|].
    cbn [List.filter mem_str existsb andb]. exact IHd.
  - cbn [unique_from]. destruct (mem_str x seen) eqn:E.
    + rewrite IH. f_equal. apply filter_ext. intros c.
      unfold mem_str at 3. cbn [existsb]. fold (mem_str (fst c) t).
      destruct (eqb_str (fst c) x) eqn:Ex; [|reflexivity].
      apply eqb_str_eq in Ex. rewrite Ex, E. now rewrite !andb_false_r.
    + cbn [flat_map]. rewrite length_app, IH. symmetry. unfold labelled.
      apply length_filter_split.
      * intros c. unfold mem_str at 1 3 4. cbn [existsb].
        fold (mem_str (fst c) t). fold (mem_str (fst c) seen).
        rewrite (eqb_str_sym (fst c) x).
        destruct (eqb_str x (fst c)) eqn:Ex; cbn [orb negb andb].
        -- apply eqb_str_eq in Ex. rewrite <- Ex, E. reflexivity.
        -- reflexivity.
      * intros c. unfold mem_str at 2. cbn [existsb].
        rewrite (eqb_str_sym (fst c) x).
        destruct (eqb_str x (fst c)); cbn [orb negb andb];
          [now rewrite andb_false_r|reflexivity].
Qed.

Lemma length_filter_labels (p : pystr -> bool) (df : DataFrame) :
  length (List.filter (fun c => p (fst c)) df)
  = length (List.filter p (columns df)).
Proof.
  induction df as [|[n c] df IH]; [reflexivity|].
  cbn [List.filter columns map fst]. fold (columns df).
  destruct (p n); cbn [length]; now rewrite IH.
Qed.

Lemma length_value_columns (p : pystr -> bool) (d : DataFrame) :
  length (flat_map (fun v => labelled v d) (unique (List.filter p (columns d))))
  = length (List.filter p (columns d)).
Proof.
  unfold unique. rewrite length_unique_from, <- length_filter_labels.
  f_equal. apply filter_ext_in. intros c Hc.
  cbn [mem_str existsb negb]. rewrite andb_true_r.
  destruct (p (fst c)) eqn:E.
  - apply mem_str_In, filter_In. split; [|exact E].
    unfold columns. now apply in_map.
  - apply mem_str_false. intros H. apply filter_In in H as [_ H]. congruence.
Qed.

(** A label of the table that none of its other columns has. *)
Lemma filter_label_once (name : pystr) (d : DataFrame) :
  In name (columns d) -> (1 <? length (labelled name d)) = false ->
  List.filter (eqb_str name) (columns d) = [name].
Proof.
  intros Hin Hone. rewrite <- labelled_labels.
  apply Nat.ltb_ge in Hone.
  destruct (labelled name d) as [|[n c] [|x l]] eqn:E; cbn [length] in Hone; [| |lia].
  - exfalso. apply in_map_iff in Hin as ([n c] & Hn & Hin). cbn [fst] in Hn. subst n.
    assert (H : In (name, c) (labelled name d)).
    { unfold labelled. apply filter_In. split; [exact Hin|apply eqb_str_refl]. }
    rewrite E in H. destruct H.
  - assert (H : In (n, c) (labelled name d)) by (rewrite E; now left).
    unfold labelled in H. apply filter_In in H as [_ H]. cbn [fst] in H.
    apply eqb_str_eq in H. now subst.
Qed.

Lemma unpivot_dataframe_ok (df l : loc) (h h' : heap) :
  unpivot_dataframe df h = (Ok l, h') ->
  let d := default [] (h !! df) in
  l = length h
  /\ exists out,
       h' !! l = Some out
       /\ columns out = keep_columns d ++ [str "Measure"; str "Value"]
       /\ forall n, rows_all n d ->
             rows_all (n * length (List.filter
                                     (fun c => negb (mem_str c (keep_columns d)))
                                     (columns d))) out.
Proof.
  unfold unpivot_dataframe. intros H. cbv zeta.
  apply bind_ok in H as (d & h1 & Hload & H). injection Hload as <- <-.
  set (d := default [] (h !! df)) in *. fold (keep_columns d) in H.
  apply bind_ok in H as (out & h1 & Hmelt & H). unfold lift in Hmelt.
  injection Hmelt as Hmelt <-.
  unfold alloc in H. injection H as <- <-.
  split; [reflexivity|]. exists out. split; [apply load_new|].
  unfold melt in Hmelt.
  match type of Hmelt with
  | context [if ?b then _ else _] => destruct b
  end; [discriminate Hmelt|].
  fold (columns d) in Hmelt.
  destruct (existsb _ (keep_columns d)) eqn:Hone; [discriminate Hmelt|].
  rewrite length_value_columns in Hmelt.
  injection Hmelt as <-. split.
  { rewrite columns_app. cbn [columns map fst]. f_equal.
    fold (columns d).
    set (k := length (List.filter _ (columns d))). clearbody k.
    assert (Hkeep : forall i, In i (keep_columns d) ->
              List.filter (eqb_str i) (columns d) = [i]).
    { intros i Hi. apply filter_label_once.
      - unfold keep_columns in Hi. apply filter_In in Hi as [_ Hi].
        now apply mem_str_In.
      - destruct (1 <? length (labelled i d)) eqn:E; [|reflexivity].
        assert (Hex : existsb (fun i => 1 <? length (labelled i d)) (keep_columns d)
                      = true) by (apply existsb_exists; eauto).
        congruence. }
    clear Hone. revert Hkeep. generalize (keep_columns d). intros ids Hkeep.
    induction ids as [|i ids IH]; [reflexivity|].
    cbn [flat_map]. rewrite columns_app, IH by (intros j Hj; apply Hkeep; now right).
    unfold columns at 1. rewrite map_map. cbn [fst].
    rewrite labelled_labels, Hkeep by (now left). reflexivity. }
  intros n Hn.
  rewrite <- (length_value_columns
                (fun c => negb (mem_str c (keep_columns d))) d).
  set (vcs := flat_map (fun v => labelled v d) _).
  assert (Hv : Forall (fun c => length (snd c) = n) vcs).
  { apply List.Forall_forall. intros c Hc. unfold vcs in Hc.
    apply in_flat_map in Hc as (v & _ & Hc). apply labelled_In in Hc.
    unfold rows_all in Hn. rewrite List.Forall_forall in Hn. now apply Hn. }
  unfold rows_all. apply Forall_app. split.
  - apply List.Forall_forall. intros c Hc.
    apply in_flat_map in Hc as (i & _ & Hc). apply in_map_iff in Hc as (x & <- & Hx).
    cbn [snd]. apply labelled_In in Hx.
    unfold rows_all in Hn. rewrite List.Forall_forall in Hn.
    rewrite length_concat_repeat, (Hn _ Hx).
    unfold vcs. rewrite length_value_columns. reflexivity.
  - constructor; [|constructor; [|constructor]]; cbn [snd].
    + destruct vcs as [|v vcs'] eqn:E; [cbn; lia|]. rewrite <- E in *.
      assert (Hrows : nrows d = n).
      { assert (Hin : In v d).
        { assert (Hv' : In v vcs) by (rewrite E; now left).
          unfold vcs in Hv'. apply in_flat_map in Hv' as (x & _ & Hv').
          now apply labelled_In in Hv'. }
        destruct d as [|[m c] d']; [destruct Hin|].
        apply Forall_cons in Hn as [Hn _]. exact Hn. }
      rewrite Hrows. apply length_flat_map_uniform.
      apply List.Forall_forall. intros m _. apply repeat_length.
    + now apply length_flat_map_uniform.
Qed.

Lemma split_unique {A} (x : A) (p q p' q' : list A) :
  p ++ x :: q = p' ++ x :: q' -> ~ In x p -> ~ In x p' -> p = p' /\ q = q'.
Proof.
  revert p'. induction p as [|a p IH]; intros [|a' p'] H Hp Hp'; cbn [app] in H.
  - injection H as ->. auto.
  - injection H as <- _. exfalso. apply Hp'. now left.
  - injection H as -> _. exfalso. apply Hp. now left.
  - injection H as <- H. destruct (IH p' H) as [-> ->].
    + intros Hin. apply Hp. now right.
    + intros Hin. apply Hp'. now right.
    + auto.
Qed.

(** ** What [reshape_data] does to the data table it was given *)

Lemma length_set_columns (names : list pystr) (df : DataFrame) :
  length names = length df -> length (set_columns names df) = length df.
Proof.
  intros H. unfold set_columns. rewrite length_combine, length_map. lia.
Qed.

(** Renaming keeps the number of columns of every table. *)
Lemma store_renamed_width (l l' : loc) (names : list pystr) (h : heap) (d : DataFrame) :
  length names = length (default [] (h !! l')) ->
  h !! l = Some d ->
  exists d', <[l' := set_columns names (default [] (h !! l'))]> h !! l = Some d'
             /\ length d' = length d.
Proof.
  intros Hlen Hd. destruct (Nat.eq_dec l' l) as [->|Hne].
  - rewrite Hd in *. cbn [default from_option] in *. unfold id in *.
    eexists. split.
    + apply list_lookup_insert_eq. apply lookup_lt_is_Some. eauto.
    + now apply length_set_columns.
  - exists d. split; [|reflexivity]. now rewrite list_lookup_insert_ne.
Qed.

Lemma strip_column_names_width (df l l1 : loc) (h h1 : heap) (d : DataFrame) :
  strip_column_names df h = (Ok l1, h1) ->
  h !! l = Some d ->
  l1 = df /\ exists d', h1 !! l = Some d' /\ length d' = length d.
Proof.
  rewrite strip_column_names_result. intros H Hd. injection H as <- <-.
  split; [reflexivity|]. apply store_renamed_width; [|exact Hd].
  unfold columns. now rewrite !length_map.
Qed.

Lemma remove_column_name_note_numbers_width (df_data df_notes l l1 : loc)
    (name : pystr) (h h1 : heap) (d : DataFrame) :
  remove_column_name_note_numbers df_data df_notes name h = (Ok l1, h1) ->
  h !! l = Some d ->
  l1 = df_data /\ exists d', h1 !! l = Some d' /\ length d' = length d.
Proof.
  unfold remove_column_name_note_numbers. intros H Hd.
  apply bind_ok in H as (notes & h2 & Hload & H). injection Hload as <- <-.
  destruct (negb _); [discriminate H|].
  apply bind_ok in H as (col & h2 & Hget & H). unfold lift in Hget.
  injection Hget as _ <-.
  apply bind_ok in H as (d0 & h2 & Hload & H). injection Hload as <- <-.
  apply bind_ok in H as (u & h2 & Hstore & H). unfold store in Hstore.
  injection Hstore as <-. subst h2.
  destruct (store_renamed_width l df_data
              (map (re_sub (combined_pattern (dropna_str col)))
                   (columns (default [] (h !! df_data)))) h d) as (d1 & Hd1 & Hl1).
  { unfold columns. now rewrite !length_map. }
  { exact Hd. }
  destruct (strip_column_names_width _ l _ _ _ d1 H Hd1) as (-> & d2 & Hd2 & Hl2).
  split; [reflexivity|]. exists d2. split; [exact Hd2|congruence].
Qed.

(** X15.  [reshape_data] returns a new table and leaves the data table it was
    given changed: its labels are cleaned, and it has two columns more,
    the code and the name of the demographic variable, in front of the
    column they were split from. *)
Theorem reshape_data_changes_the_data_table (df_data df_notes l : loc)
    (delims : delimiters) (h h' : heap) (d : DataFrame) :
  reshape_data df_data df_notes delims h = (Ok l, h') ->
  h !! df_data = Some d ->
  l <> df_data
  /\ exists d' p q,
       h' !! df_data = Some d'
       /\ length (columns d') = length (columns d) + 2
       /\ columns d'
          = p ++ str "Demographic variable code" :: str "Demographic variable name"
              :: str "Demographic variable" :: q.
Proof.
  unfold reshape_data. intros H Hd.
  apply bind_ok in H as (l1 & h1 & H1 & H).
  apply bind_ok in H as (l2 & h2 & H2 & H).
  apply bind_ok in H as (l3 & h3 & H3 & H).
  apply bind_ok in H as (l4 & h4 & H4 & H).
  apply bind_ok in H as (l5 & h5 & H5 & H).
  apply bind_ok in H as (l6 & h6 & H6 & H).
  apply bind_ok in H as (l7 & h7 & H7 & H).
  apply bind_ok in H as (l8 & h8 & H8 & H).
  unfold ret in H. injection H as <- <-.
  destruct (strip_column_names_width _ df_data _ _ _ d H1 Hd) as (-> & d1 & Hd1 & Hw1).
  destruct (strip_column_names_width _ df_data _ _ _ d1 H2 Hd1) as (-> & d2 & Hd2 & Hw2).
  destruct (remove_column_name_note_numbers_width _ _ df_data _ _ _ _ d2 H3 Hd2)
    as (-> & d3 & Hd3 & Hw3).
  apply split_column_on_delimiter_ok in H4
    as (d3' & p & q & out4 & Hd3' & Hc3 & _ & _ & _ & _ & _ & -> & _ & _
        & (d4 & Hd4 & Hc4) & _).
  rewrite Hd3 in Hd3'. injection Hd3' as <-.
  assert (L4 : df_data < length h4) by (apply lookup_lt_is_Some; eauto).
  (* the later steps work on new tables *)
  destruct (frames_split_demographic_variable_name_column df_data (length h3)
              (str "Demographic variable name") h4 L4) as (E5 & L5 & N5).
  rewrite H5 in E5, L5, N5. cbn [fst snd] in E5, L5, N5.
  destruct (frames_unpivot_dataframe df_data l5 h5 ltac:(lia)) as (E6 & L6 & N6).
  rewrite H6 in E6, L6, N6. cbn [fst snd] in E6, L6, N6.
  destruct (frames_split_column_on_delimiter df_data l6 (str "Measure")
              (str "Measure code") (str "Measure name") delims N6 h6 ltac:(lia))
    as (E7 & L7 & N7).
  rewrite H7 in E7, L7, N7. cbn [fst snd] in E7, L7, N7.
  destruct (frames_split_measure_name_column df_data l7 (str "Measure name")
              h7 ltac:(lia)) as (E8 & L8 & N8).
  rewrite H8 in E8, L8, N8. cbn [fst snd] in E8, L8, N8.
  split; [exact N8|].
  exists d4, p, q. split; [congruence|]. split; [|exact Hc4].
  rewrite Hc4. apply (f_equal (@length pystr)) in Hc3.
  unfold columns in *. rewrite length_map in *. rewrite length_app in *.
  cbn [length] in *. lia.
Qed.

Lemma reshape_data_changes_the_data_table_witness :
  exists d' p q,
    snd (reshape_data 0 1 (One (str ".")) example_heap) !! 0 = Some d'
    /\ length (columns d') = length (columns example_data) + 2
    /\ columns d'
       = p ++ str "Demographic variable code" :: str "Demographic variable name"
           :: str "Demographic variable" :: q.
Proof.
  apply (reshape_data_changes_the_data_table 0 1 6 (One (str ".")) example_heap
           (snd (reshape_data 0 1 (One (str ".")) example_heap)) example_data).
  - vm_compute. reflexivity.
  - reflexivity.
Defined.

(** X16.  The column of the demographic variable is looked for after the
    footnote references have been removed from the labels: when no
    cleaned label of the data table is [Demographic variable],
    [reshape_data] raises the error of a missing column, and the data
    table is left with its labels cleaned. *)
Theorem reshape_data_missing_variable_column
    (df_data df_notes : loc) (delims : delimiters) (h : heap)
    (d notes : DataFrame) (col : series) :
  h !! df_data = Some d ->
  h !! df_notes = Some notes ->
  df_data <> df_notes ->
  labelled (str "Note number") (set_columns (map strip (columns notes)) notes)
  = [(str "Note number", col)] ->
  let labels := map (fun c => new_column_name (dropna_str col) (strip c)) (columns d) in
  mem_str (str "Demographic variable") labels = false ->
  reshape_data df_data df_notes delims h
  = (Raise (missing_column (str "Demographic variable") (str "the DataFrame")),
     <[df_data := set_columns labels d]>
       (<[df_notes := set_columns (map strip (columns notes)) notes]> h)).
Proof.
  intros Hd Hnotes Hne Hcol labels Habs.
  assert (Hl : df_data < length h) by (apply lookup_lt_is_Some; eauto).
  assert (Hl' : df_notes < length h) by (apply lookup_lt_is_Some; eauto).
  unfold reshape_data.
  unfold bind at 1. rewrite strip_column_names_result, Hd.
  cbn [default from_option]. unfold id.
  unfold bind at 1. rewrite strip_column_names_result.
  rewrite list_lookup_insert_ne by exact Hne. rewrite Hnotes.
  cbn [default from_option]. unfold id.
  set (d1 := set_columns (map strip (columns d)) d).
  set (notes1 := set_columns (map strip (columns notes)) notes) in *.
  set (h2 := <[df_notes := notes1]> (<[df_data := d1]> h)).
  assert (Hd1 : h2 !! df_data = Some d1).
  { unfold h2. rewrite list_lookup_insert_ne by congruence.
    now apply list_lookup_insert_eq. }
  assert (Hn1 : h2 !! df_notes = Some notes1).
  { unfold h2. apply list_lookup_insert_eq. now rewrite length_insert. }
  unfold bind at 1.
  rewrite (remove_column_name_note_numbers_result df_data df_notes
             (str "Note number") h2 d1 notes1 col Hd1 Hn1 Hcol).
  assert (Hlen : length (map strip (columns d)) = length d)
    by (unfold columns; now rewrite !length_map).
  assert (Hcols : columns d1 = map strip (columns d))
    by (now destruct (set_columns_cells _ d Hlen)).
  rewrite Hcols, map_map. fold labels.
  unfold d1. rewrite set_columns_twice by exact Hlen.
  assert (Hlen' : length labels = length d)
    by (unfold labels, columns; now rewrite !length_map).
  unfold bind at 1. unfold split_column_on_delimiter.
  unfold bind at 1. unfold load at 1. cbn beta iota.
  rewrite list_lookup_insert_eq
    by (unfold h2; rewrite !length_insert; exact Hl).
  cbn [default from_option]. unfold id.
  destruct (set_columns_cells _ d Hlen') as [-> _].
  rewrite Habs. cbn [negb]. unfold raise. f_equal.
  unfold h2.
  rewrite (list_insert_insert_ne _ df_data df_notes) by congruence.
  rewrite list_insert_insert_eq.
  now rewrite (list_insert_insert_ne _ df_notes df_data) by congruence.
Qed.

Lemma reshape_data_missing_variable_column_witness :
  reshape_data 0 1 (One (str "."))
    [[(str " Variable [1]", [Str (str "A1. Age")])]; example_notes]
  = (Raise (missing_column (str "Demographic variable") (str "the DataFrame")),
     [[(str "Variable", [Str (str "A1. Age")])];
      [(str "Note number", [Str (str "1"); Str (str "2")]);
       (str "Note text", [Str (str "first"); Str (str "second")])]]).
Proof.
  rewrite (reshape_data_missing_variable_column 0 1 (One (str "."))
             [[(str " Variable [1]", [Str (str "A1. Age")])]; example_notes]
             [(str " Variable [1]", [Str (str "A1. Age")])] example_notes
             [Str (str "1"); Str (str "2")]
             eq_refl eq_refl ltac:(discriminate) eq_refl eq_refl).
  vm_compute. reflexivity.
Defined.

(** ** The check of the column lengths *)

Lemma fold_max_le (l : list nat) : forall m b,
  fold_left Nat.max l m <= b <-> m <= b /\ Forall (fun x => x <= b) l.
Proof.
  induction l as [|x l IH]; intros m b; cbn [fold_left].
  - split; [intros H; split; [exact H|constructor]|now intros [H _]].
  - rewrite IH. split.
    + intros [H1 H2]. split; [lia|]. constructor; [lia|exact H2].
    + intros [H1 H2]. apply Forall_cons in H2 as [Hx H2]. split; [lia|exact H2].
Qed.

Lemma str_len_max_le (cells : series) (b : nat) :
  match str_len_max cells with
  | Some m => m <=? b
  | None => false
  end = true
  <-> cells <> [] /\ Forall (fun c => length (cell_str c) <= b) cells.
Proof.
  destruct cells as [|c rest]; cbn [str_len_max].
  - split; [discriminate|]. intros [H _]. congruence.
  - rewrite Nat.leb_le, fold_max_le, Forall_map. split.
    + intros [H1 H2]. split; [discriminate|]. now constructor.
    + intros [_ H]. apply Forall_cons in H as [H1 H2]. now split.
Qed.

(** X17.  The check of [extract_data.py] passes exactly when every column named
    in [COLUMN_LENGTHS] that the table has is not empty and has no cell
    whose text, [nan] for a missing cell, is longer than the length given
    for the column; columns the table does not have, and columns not
    named, are not looked at. *)
Theorem check_column_lengths_passes (year : nat) (lengths : list (pystr * nat))
    (df_data : DataFrame) :
  List.NoDup (columns df_data) ->
  (check_column_lengths year lengths df_data = Checked
   <-> forall col max_len cells,
         In (col, max_len) lengths -> In (col, cells) df_data ->
         cells <> [] /\ Forall (fun c => length (cell_str c) <= max_len) cells).
Proof.
  intros Hnd. induction lengths as [|[col max_len] rest IH].
  - split; [intros _ col max_len cells []|reflexivity].
  - cbn [check_column_lengths]. destruct (mem_str col (columns df_data)) eqn:Hmem.
    + apply mem_str_In in Hmem.
      destruct (labelled_present col df_data Hnd Hmem) as [cells Hcells].
      rewrite (getitem_unique _ _ _ Hcells). cbv zeta.
      assert (Hin : In (col, cells) df_data).
      { apply (labelled_In col). rewrite Hcells. now left. }
      assert (Honly : forall cells', In (col, cells') df_data -> cells' = cells).
      { intros cells' Hin'.
        assert (H : In (col, cells') (labelled col df_data)).
        { unfold labelled. apply filter_In. split; [exact Hin'|apply eqb_str_refl]. }
        rewrite Hcells in H. destruct H as [H|[]]. congruence. }
      pose proof (str_len_max_le cells max_len) as Hmax.
      destruct (match str_len_max cells with
                | Some m => m <=? max_len
                | None => false
                end).
      * rewrite IH. split.
        -- intros H c m cs [Hc|Hc] Hcs.
           ++ injection Hc as <- <-. rewrite (Honly cs Hcs). now apply Hmax.
           ++ now apply (H c m cs).
        -- intros H c m cs Hc Hcs. apply (H c m cs); [now right|exact Hcs].
      * split; [discriminate|]. intros H. exfalso.
        assert (Hfalse : false = true); [|discriminate Hfalse].
        apply Hmax. apply (H col max_len cells); [now left|exact Hin].
    + rewrite IH. split.
      * intros H c m cs [Hc|Hc] Hcs.
        -- injection Hc as <- <-. exfalso.
           apply not_in_columns in Hmem. apply Hmem.
           unfold columns. apply in_map_iff. now exists (col, cs).
        -- now apply (H c m cs).
      * intros H c m cs Hc Hcs. apply (H c m cs); [now right|exact Hcs].
Qed.

Lemma check_column_lengths_passes_witness :
  Forall (fun c => length (cell_str c) <= 128)
    [Str (str "SEO/HEO"); Str (str "FULL TIME WORK"); Str (str "London (England)")].
Proof.
  assert (Hnd : List.NoDup (columns example_long))
    by (repeat constructor; cbn; intuition discriminate).
  apply (proj1 (check_column_lengths_passes 2024 COLUMN_LENGTHS example_long Hnd)
               eq_refl (str "Response") 128).
  - cbn. auto 10.
  - cbn. auto.
Defined.

(** ** The rows of what [reshape_data] returns *)

(** The first three steps of [reshape_data]: the labels of both tables
    are stripped, and the footnote references leave the labels of the data
    table. *)
Lemma reshape_data_cleans_the_labels
    (df_data df_notes : loc) (h : heap) (d notes : DataFrame) (col : series) :
  h !! df_data = Some d ->
  h !! df_notes = Some notes ->
  df_data <> df_notes ->
  labelled (str "Note number") (set_columns (map strip (columns notes)) notes)
  = [(str "Note number", col)] ->
  let labels := map (fun c => new_column_name (dropna_str col) (strip c)) (columns d) in
  (do df_data <- strip_column_names df_data;
   do df_notes <- strip_column_names df_notes;
   remove_column_name_note_numbers df_data df_notes (str "Note number")) h
  = (Ok df_data,
     <[df_data := set_columns labels d]>
       (<[df_notes := set_columns (map strip (columns notes)) notes]> h)).
Proof.
  intros Hd Hnotes Hne Hcol labels.
  assert (Hl : df_data < length h) by (apply lookup_lt_is_Some; eauto).
  assert (Hl' : df_notes < length h) by (apply lookup_lt_is_Some; eauto).
  unfold bind at 1. rewrite strip_column_names_result, Hd.
  cbn [default from_option]. unfold id.
  unfold bind at 1. rewrite strip_column_names_result.
  rewrite list_lookup_insert_ne by exact Hne. rewrite Hnotes.
  cbn [default from_option]. unfold id.
  set (d1 := set_columns (map strip (columns d)) d).
  set (notes1 := set_columns (map strip (columns notes)) notes) in *.
  set (h2 := <[df_notes := notes1]> (<[df_data := d1]> h)).
  assert (Hd1 : h2 !! df_data = Some d1).
  { unfold h2. rewrite list_lookup_insert_ne by congruence.
    now apply list_lookup_insert_eq. }
  assert (Hn1 : h2 !! df_notes = Some notes1).
  { unfold h2. apply list_lookup_insert_eq. now rewrite length_insert. }
  rewrite (remove_column_name_note_numbers_result df_data df_notes
             (str "Note number") h2 d1 notes1 col Hd1 Hn1 Hcol).
  assert (Hlen : length (map strip (columns d)) = length d)
    by (unfold columns; now rewrite !length_map).
  assert (Hcols : columns d1 = map strip (columns d))
    by (now destruct (set_columns_cells _ d Hlen)).
  rewrite Hcols, map_map. fold labels.
  unfold d1. rewrite set_columns_twice by exact Hlen.
  f_equal. unfold h2.
  rewrite (list_insert_insert_ne _ df_data df_notes) by congruence.
  rewrite list_insert_insert_eq.
  now rewrite (list_insert_insert_ne _ df_notes df_data) by congruence.
Qed.

Lemma bind_assoc {A B C} (m : M A) (f : A -> M B) (g : B -> M C) (h : heap) :
  bind (bind m f) g h = bind m (fun a => bind (f a) g) h.
Proof. unfold bind. destruct (m h) as [[a|e] h1]; reflexivity. Qed.


(** X18.  [reshape_data] gives one row for each row of the data table and each
    measure column: when the cleaned labels of the data table are
    distinct, every column of the table returned has as many cells as the
    data table has rows, times the number of its columns other than
    [Demographic variable], [Response] and [Notes]. *)
Theorem reshape_data_rows (df_data df_notes l : loc) (delims : delimiters)
    (h h' : heap) (d notes : DataFrame) (col : series) :
  reshape_data df_data df_notes delims h = (Ok l, h') ->
  h !! df_data = Some d ->
  h !! df_notes = Some notes ->
  df_data <> df_notes ->
  labelled (str "Note number") (set_columns (map strip (columns notes)) notes)
  = [(str "Note number", col)] ->
  let labels := map (fun c => new_column_name (dropna_str col) (strip c)) (columns d) in
  let measures :=
    List.filter (fun c => negb (mem_str c [str "Demographic variable";
                                           str "Response"; str "Notes"])) labels in
  List.NoDup labels ->
  well_formed d ->
  exists out,
    h' !! l = Some out
    /\ rows_all (nrows d * length measures) out.
Proof.
  intros H Hd Hnotes Hne Hcol labels measures Hnd Hwf.
  assert (Hl : df_data < length h) by (apply lookup_lt_is_Some; eauto).
  pose proof (reshape_data_cleans_the_labels df_data df_notes h d notes col
                Hd Hnotes Hne Hcol) as Hfirst.
  cbv zeta in Hfirst. fold labels in Hfirst.
  unfold reshape_data in H.
  apply bind_ok in H as (l1 & h1 & H1 & H).
  apply bind_ok in H as (l2 & h2 & H2 & H).
  apply bind_ok in H as (l3 & h3 & H3 & H).
  unfold bind in Hfirst. rewrite H1, H2, H3 in Hfirst. injection Hfirst as -> ->.
  clear H1 H2 H3.
  set (d3 := set_columns labels d) in *.
  assert (Hlen : length labels = length d)
    by (unfold labels, columns; now rewrite !length_map).
  destruct (set_columns_cells labels d Hlen) as [Hc3 Hcells].
  fold d3 in Hc3, Hcells.
  assert (Hd3 : <[df_data := d3]>
                  (<[df_notes := set_columns (map strip (columns notes)) notes]> h)
                !! df_data = Some d3).
  { apply list_lookup_insert_eq. now rewrite length_insert. }
  assert (Hr3 : rows_all (nrows d) d3).
  { unfold rows_all, well_formed in *. rewrite List.Forall_forall in *.
    intros c Hc. apply (in_map snd) in Hc. rewrite Hcells in Hc.
    apply in_map_iff in Hc as (c' & Hc' & Hin). rewrite <- Hc'. now apply Hwf. }
  apply bind_ok in H as (l4 & h4 & H4 & H).
  apply bind_ok in H as (l5 & h5 & H5 & H).
  apply bind_ok in H as (l6 & h6 & H6 & H).
  apply bind_ok in H as (l7 & h7 & H7 & H).
  apply bind_ok in H as (l8 & h8 & H8 & H).
  unfold ret in H. injection H as <- <-.
  (* code and name of the variable *)
  apply split_column_on_delimiter_ok in H4
    as (d3' & p & q & out4 & Hd3' & Hpq & Hp & Hq & Hcode & Hname & _ & _
        & Hout4 & Hc4 & _ & Hr4).
  rewrite Hd3 in Hd3'. injection Hd3' as <-.
  rewrite Hc3 in Hpq, Hcode, Hname.
  specialize (Hr4 _ Hr3).
  assert (Hcode' : ~ In (str "Demographic variable code") (p ++ q)).
  { rewrite Hpq in Hcode. rewrite in_app_iff in *. cbn [In] in Hcode. tauto. }
  assert (Hname' : ~ In (str "Demographic variable name") (p ++ q)).
  { rewrite Hpq in Hname. rewrite in_app_iff in *. cbn [In] in Hname. tauto. }
  (* name and provenance *)
  apply split_demographic_variable_name_column_ok in H5
    as (d4 & p' & q' & out5 & Hd4 & Hc4' & Hp' & _ & _ & Hderived & _
        & Hout5 & Hc5 & Hr5).
  rewrite Hout4 in Hd4. injection Hd4 as <-.
  specialize (Hr5 _ Hr4).
  rewrite Hc4 in Hc4'.
  change (p ++ str "Demographic variable code" :: str "Demographic variable name" :: q)
    with (p ++ [str "Demographic variable code"]
            ++ str "Demographic variable name" :: q) in Hc4'.
  rewrite app_assoc in Hc4'.
  apply split_unique in Hc4' as [<- <-]; [| |exact Hp'].
  2:{ rewrite in_app_iff in *. cbn [In].
      intros [Hin|[Hin|[]]]; [tauto|discriminate Hin]. }
  rewrite <- app_assoc in Hc5. cbn [app] in Hc5.
  rewrite <- app_assoc, in_app_iff in Hderived. cbn [app In] in Hderived.
  (* the measure columns are unpivoted *)
  apply unpivot_dataframe_ok in H6 as (_ & out6 & Hout6 & _ & Hr6).
  rewrite Hout5 in Hr6. cbn [default from_option] in Hr6. unfold id in Hr6.
  specialize (Hr6 _ Hr5).
  assert (Hk : length (List.filter
                 (fun c => negb (mem_str c (keep_columns out5))) (columns out5))
               = length measures).
  { unfold measures. rewrite Hc5, Hpq.
    assert (Hkeep : forall c, In c (p ++ q) ->
              negb (mem_str c (keep_columns out5))
              = negb (mem_str c [str "Demographic variable"; str "Response";
                                 str "Notes"])).
    { intros c Hc. f_equal.
      assert (Hin : In c (columns out5)).
      { rewrite Hc5. rewrite in_app_iff in *. cbn [In]. tauto. }
      apply mem_str_In in Hin.
      assert (c <> str "Demographic variable code") by (intros ->; now apply Hcode').
      assert (c <> str "Demographic variable name") by (intros ->; now apply Hname').
      assert (c <> str "Derived from").
      { intros ->. rewrite in_app_iff in Hc. tauto. }
      assert (c <> str "Demographic variable").
      { intros ->. rewrite in_app_iff in Hc. tauto. }
      unfold keep_columns, identifier_columns. cbn [List.filter].
      assert (Hm : forall x, In x [str "Demographic variable code";
                                   str "Demographic variable name"; str "Derived from"] ->
                             mem_str x (columns out5) = true).
      { intros x Hx. apply mem_str_In. rewrite Hc5, in_app_iff.
        cbn [In] in *. intuition. }
      rewrite !Hm by (cbn [In]; auto).
      destruct (eqb_str c (str "Response")) eqn:ER.
      - apply eqb_str_eq in ER. subst c. rewrite Hin.
        apply eq_trans with true; [|symmetry]; apply mem_str_In; cbn [In]; auto.
      - destruct (eqb_str c (str "Notes")) eqn:EN.
        + apply eqb_str_eq in EN. subst c. rewrite Hin.
          apply eq_trans with true; [|symmetry]; apply mem_str_In.
          * destruct (mem_str (str "Response") (columns out5)); cbn [In]; auto 10.
          * cbn [In]. auto.
        + apply eq_trans with false; [|symmetry]; apply mem_str_false.
          * assert (c <> str "Response")
              by (intros ->; now rewrite eqb_str_refl in ER).
            assert (c <> str "Notes")
              by (intros ->; now rewrite eqb_str_refl in EN).
            destruct (mem_str (str "Response") (columns out5));
              destruct (mem_str (str "Notes") (columns out5));
              cbn [In]; intuition congruence.
          * assert (c <> str "Response")
              by (intros ->; now rewrite eqb_str_refl in ER).
            assert (c <> str "Notes")
              by (intros ->; now rewrite eqb_str_refl in EN).
            cbn [In]. intuition congruence. }
    assert (Hsame : forall l0, (forall c, In c l0 -> In c (p ++ q)) ->
              List.filter (fun c => negb (mem_str c (keep_columns out5))) l0
              = List.filter (fun c => negb (mem_str c [str "Demographic variable";
                                                       str "Response"; str "Notes"])) l0).
    { intros l0 Hl0. apply filter_ext_in. intros c Hc. apply Hkeep. now apply Hl0. }
    assert (Hin3 : forall x, In x [str "Demographic variable code";
                                   str "Demographic variable name"; str "Derived from"] ->
                             mem_str x (keep_columns out5) = true).
    { intros x Hx. apply mem_str_In. unfold keep_columns. apply filter_In. split.
      - unfold identifier_columns. cbn [In] in *. intuition.
      - apply mem_str_In. rewrite Hc5, in_app_iff. cbn [In] in *. intuition. }
    rewrite !List.filter_app. cbn [List.filter].
    rewrite !Hin3 by (cbn [In]; auto). cbn [negb].
    change (mem_str (str "Demographic variable")
              [str "Demographic variable"; str "Response"; str "Notes"]) with true.
    cbn [negb].
    rewrite (Hsame p) by (intros c Hc; rewrite in_app_iff; tauto).
    rewrite (Hsame q) by (intros c Hc; rewrite in_app_iff; tauto).
    reflexivity. }
  rewrite Hk in Hr6.
  (* code and name of the measure, and its definition *)
  apply split_column_on_delimiter_ok in H7
    as (d6 & P & Q & out7 & Hd6 & _ & _ & _ & _ & _ & _ & _ & Hout7 & _ & _ & Hr7).
  rewrite Hout6 in Hd6. injection Hd6 as <-.
  specialize (Hr7 _ Hr6).
  apply split_measure_name_column_ok in H8
    as (d7 & P' & Q' & out8 & Hd7 & _ & _ & _ & _ & _ & _ & Hout8 & _ & Hr8).
  rewrite Hout7 in Hd7. injection Hd7 as <-.
  exists out8. split; [exact Hout8|]. now apply Hr8.
Qed.

Lemma reshape_data_rows_witness :
  exists out,
    snd (reshape_data 0 1 (One (str ".")) example_heap) !! 6 = Some out
    /\ rows_all 4 out.
Proof.
  apply (reshape_data_rows 0 1 6 (One (str ".")) example_heap
           (snd (reshape_data 0 1 (One (str ".")) example_heap))
           example_data example_notes [Str (str "1"); Str (str "2")]).
  - vm_compute. reflexivity.
  - reflexivity.
  - reflexivity.
  - discriminate.
  - reflexivity.
  - vm_compute. repeat constructor; cbn; intuition discriminate.
  - repeat constructor.
Defined.

(** ** The columns of the table that [reshape_data] returns *)

Lemma mem_str_around (x : pystr) (p q news : list pystr) :
  ~ In x news -> mem_str x (p ++ news ++ q) = mem_str x (p ++ q).
Proof.
  intros Hx. unfold mem_str. rewrite !existsb_app.
  fold (mem_str x news). now rewrite (mem_str_false x news Hx).
Qed.

(** The identifier columns kept from a table that has the three columns
    of the variable. *)
Lemma kept_labels (p q : list pystr) (d : DataFrame) :
  let code := str "Demographic variable code" in
  let name := str "Demographic variable name" in
  let derived := str "Derived from" in
  columns d = p ++ code :: name :: derived :: q ->
  keep_columns d
  = [code; name; derived]
    ++ List.filter (fun c => mem_str c (p ++ q)) [str "Response"; str "Notes"].
Proof.
  cbv zeta. intros Hd.
  unfold keep_columns, identifier_columns.
  assert (Hin : forall x, In x [str "Demographic variable code";
                                str "Demographic variable name"; str "Derived from"] ->
                          mem_str x (columns d) = true).
  { intros x Hx. apply mem_str_In. rewrite Hd, in_app_iff.
    cbn [In] in *. intuition. }
  cbn [List.filter].
  rewrite !Hin by (cbn [In]; auto).
  rewrite Hd.
  change (p ++ str "Demographic variable code" :: str "Demographic variable name"
            :: str "Derived from" :: q)
    with (p ++ [str "Demographic variable code"; str "Demographic variable name";
                str "Derived from"] ++ q).
  rewrite !mem_str_around by (cbn [In]; intuition discriminate).
  reflexivity.
Qed.

(** X14.  When [reshape_data] returns, the table it returns has, in this
    order: the code and the name of the demographic variable and its
    provenance; [Response], if it is among the cleaned labels of the data
    table, and then [Notes], if it is; the code and the name of the
    measure, its definition, and the value.  No other column is left, and
    no label is repeated. *)
Theorem reshape_data_columns (df_data df_notes l : loc) (delims : delimiters)
    (h h' : heap) (d notes : DataFrame) (col : series) :
  reshape_data df_data df_notes delims h = (Ok l, h') ->
  h !! df_data = Some d ->
  h !! df_notes = Some notes ->
  df_data <> df_notes ->
  labelled (str "Note number") (set_columns (map strip (columns notes)) notes)
  = [(str "Note number", col)] ->
  let labels := map (fun c => new_column_name (dropna_str col) (strip c)) (columns d) in
  exists out,
    h' !! l = Some out
    /\ columns out
       = [str "Demographic variable code"; str "Demographic variable name";
          str "Derived from"]
         ++ List.filter (fun c => mem_str c labels) [str "Response"; str "Notes"]
         ++ [str "Measure code"; str "Measure name"; str "Definition"; str "Value"].
Proof.
  intros H Hd Hnotes Hne Hcol labels.
  assert (Hl : df_data < length h) by (apply lookup_lt_is_Some; eauto).
  pose proof (reshape_data_cleans_the_labels df_data df_notes h d notes col
                Hd Hnotes Hne Hcol) as Hfirst.
  cbv zeta in Hfirst. fold labels in Hfirst.
  unfold reshape_data in H.
  apply bind_ok in H as (l1 & h1 & H1 & H).
  apply bind_ok in H as (l2 & h2 & H2 & H).
  apply bind_ok in H as (l3 & h3 & H3 & H).
  unfold bind in Hfirst. rewrite H1, H2, H3 in Hfirst. injection Hfirst as -> ->.
  clear H1 H2 H3.
  set (d3 := set_columns labels d) in *.
  assert (Hlen : length labels = length d)
    by (unfold labels, columns; now rewrite !length_map).
  destruct (set_columns_cells labels d Hlen) as [Hc3 _].
  fold d3 in Hc3.
  assert (Hd3 : <[df_data := d3]>
                  (<[df_notes := set_columns (map strip (columns notes)) notes]> h)
                !! df_data = Some d3).
  { apply list_lookup_insert_eq. now rewrite length_insert. }
  apply bind_ok in H as (l4 & h4 & H4 & H).
  apply bind_ok in H as (l5 & h5 & H5 & H).
  apply bind_ok in H as (l6 & h6 & H6 & H).
  apply bind_ok in H as (l7 & h7 & H7 & H).
  apply bind_ok in H as (l8 & h8 & H8 & H).
  unfold ret in H. injection H as <- <-.
  (* the demographic variable is split into code and name *)
  apply split_column_on_delimiter_ok in H4
    as (d3' & p & q & out4 & Hd3' & Hpq & Hp & Hq & Hcode & Hname & _ & _
        & Hout4 & Hc4 & _ & _).
  rewrite Hd3 in Hd3'. injection Hd3' as <-.
  rewrite Hc3 in Hpq, Hcode, Hname.
  rewrite Hpq, in_app_iff in Hcode, Hname. cbn [In] in Hcode, Hname.
  (* the name is split into name and provenance *)
  apply split_demographic_variable_name_column_ok in H5
    as (d4 & p' & q' & out5 & Hd4 & Hc4' & Hp' & _ & _ & Hderived & _ & Hout5 & Hc5 & _).
  rewrite Hout4 in Hd4. injection Hd4 as <-.
  rewrite Hc4 in Hc4'.
  change (p ++ str "Demographic variable code" :: str "Demographic variable name" :: q)
    with (p ++ [str "Demographic variable code"]
            ++ str "Demographic variable name" :: q) in Hc4'.
  rewrite app_assoc in Hc4'.
  apply split_unique in Hc4' as [<- <-]; [|  |exact Hp'].
  2:{ rewrite in_app_iff. cbn [In]. intros [Hin|[Hin|[]]]; [tauto|discriminate Hin]. }
  rewrite <- app_assoc in Hc5. cbn [app] in Hc5.
  (* the measure columns are unpivoted *)
  apply unpivot_dataframe_ok in H6 as (_ & out6 & Hout6 & Hc6 & _).
  rewrite Hout5 in Hc6. cbn [default from_option] in Hc6. unfold id in Hc6.
  rewrite (kept_labels p q out5 Hc5) in Hc6.
  assert (Hsame : List.filter (fun c => mem_str c (p ++ q)) [str "Response"; str "Notes"]
                  = List.filter (fun c => mem_str c labels) [str "Response"; str "Notes"]).
  { rewrite Hpq.
    change (p ++ str "Demographic variable" :: q)
      with (p ++ [str "Demographic variable"] ++ q).
    cbn [List.filter].
    rewrite !mem_str_around by (cbn [In]; intuition discriminate).
    reflexivity. }
  rewrite Hsame in Hc6. clear Hsame.
  set (ids := [str "Demographic variable code"; str "Demographic variable name";
               str "Derived from"]
              ++ List.filter (fun c => mem_str c labels)
                   [str "Response"; str "Notes"]) in *.
  assert (Hids : forall x, x <> str "Demographic variable code" ->
                           x <> str "Demographic variable name" ->
                           x <> str "Derived from" ->
                           x <> str "Response" -> x <> str "Notes" -> ~ In x ids).
  { intros x X1 X2 X3 X4 X5. unfold ids. rewrite in_app_iff. cbn [In].
    intros [[Hin|[Hin|[Hin|[]]]]|Hin]; try congruence.
    apply filter_In in Hin as [[Hin|[Hin|[]]] _]; congruence. }
  (* the measure is split into code and name *)
  apply split_column_on_delimiter_ok in H7
    as (d6 & P & Q & out7 & Hd6 & Hc6' & HP & _ & _ & _ & _ & _ & Hout7 & Hc7 & _ & _).
  rewrite Hout6 in Hd6. injection Hd6 as <-.
  rewrite Hc6 in Hc6'.
  change (ids ++ [str "Measure"; str "Value"])
    with (ids ++ str "Measure" :: [str "Value"]) in Hc6'.
  apply split_unique in Hc6' as [<- <-]; [| |exact HP].
  2:{ apply Hids; discriminate. }
  (* the name of the measure is split into name and definition *)
  apply split_measure_name_column_ok in H8
    as (d7 & P' & Q' & out8 & Hd7 & Hc7' & HP' & _ & _ & _ & _ & Hout8 & Hc8 & _).
  rewrite Hout7 in Hd7. injection Hd7 as <-.
  rewrite Hc7 in Hc7'.
  change (ids ++ str "Measure code" :: str "Measure name" :: [str "Value"])
    with (ids ++ [str "Measure code"] ++ str "Measure name" :: [str "Value"]) in Hc7'.
  rewrite app_assoc in Hc7'.
  apply split_unique in Hc7' as [<- <-]; [| |exact HP'].
  2:{ rewrite in_app_iff. cbn [In]. intros [Hin|[Hin|[]]]; [|discriminate Hin].
      revert Hin. apply Hids; discriminate. }
  exists out8. split; [exact Hout8|].
  rewrite Hc8. unfold ids. rewrite <- !app_assoc. reflexivity.
Qed.

Lemma reshape_data_columns_witness :
  exists out,
    snd (reshape_data 0 1 (One (str ".")) example_heap) !! 6 = Some out
    /\ columns out
       = [ str "Demographic variable code"; str "Demographic variable name";
           str "Derived from"; str "Response";
           str "Measure code"; str "Measure name"; str "Definition"; str "Value" ].
Proof.
  apply (reshape_data_columns 0 1 6 (One (str ".")) example_heap
           (snd (reshape_data 0 1 (One (str ".")) example_heap))
           example_data example_notes [Str (str "1"); Str (str "2")]).
  - vm_compute. reflexivity.
  - reflexivity.
  - reflexivity.
  - discriminate.
  - reflexivity.
Defined.

(** ** The Variable Annotation Parser on a table *)

(** X19.  On a table with distinct labels and at least one row,
    [split_demographic_variable_name_column] returns a new table with the
    columns [Demographic variable name] and [Derived from] in the place of
    the input column.  The text of a cell is read as a main text of at
    least one character without line breaks, optional whitespace, an
    opening parenthesis, a content without line breaks, a closing
    parenthesis and optional whitespace up to the end (or up to one final
    line break), with the shortest possible main text.  If it reads so and
    the trimmed content contains "derived from" in any case, the label is
    the trimmed main text and the provenance is the trimmed content
    without the phrase and without the characters [ :,-] at its ends; if
    it reads so without the phrase, or does not read so at all, the label
    is the trimmed text and the provenance is empty. *)
Theorem split_demographic_variable_name_column_annotations (df : loc)
    (input : pystr) (h : heap) (d : DataFrame) :
  h !! df = Some d ->
  List.NoDup (columns d) ->
  In input (columns d) ->
  column input d <> [] ->
  ~ In (str "Demographic variable name") (columns (without input d)) ->
  ~ In (str "Derived from") (columns (without input d)) ->
  split_demographic_variable_name_column df input h
  = (Ok (length h),
     h ++ [replace_column input
             [ (str "Demographic variable name",
                map (fun c => Str (fst (variable_annotation (cell_str c))))
                    (column input d));
               (str "Derived from",
                map (fun c => Str (snd (variable_annotation (cell_str c))))
                    (column input d)) ] d])
  /\ forall text,
       (forall main content,
          parse_annotation text = Some (main, content) ->
          annotated text main content
          /\ (forall main' content',
                annotated text main' content' -> length main <= length main')
          /\ (contains (str "derived from") (str_lower (strip content)) = true ->
              variable_annotation text
              = (strip main,
                 strip_chars (str " :,-")
                   (remove_phrase (str "derived from") (strip content))))
          /\ (contains (str "derived from") (str_lower (strip content)) = false ->
              variable_annotation text = (strip text, [])))
       /\ (parse_annotation text = None ->
           variable_annotation text = (strip text, [])
           /\ forall main content, ~ annotated text main content).
Proof.
  intros Hd Hnd Hin Hcol Hn1 Hn2. split.
  - assert (Hmem : mem_str input (columns d) = true) by (now apply mem_str_In).
    destruct (column_split input d Hnd Hin) as (pre & col & post & -> & Hpre & Hpost).
    assert (Hc : column input (pre ++ (input, col) :: post) = col).
    { unfold column. now rewrite labelled_around. }
    rewrite Hc in *.
    pose proof (without_around input pre post col Hpre Hpost [] ltac:(intros [])) as W.
    cbn [app] in W. rewrite W in Hn1, Hn2. clear W.
    rewrite replace_column_around by assumption.
    unfold split_demographic_variable_name_column.
    unfold bind at 1. unfold load at 1. cbn beta iota.
    rewrite Hd. cbn [default from_option]. unfold id.
    rewrite Hmem. cbn [negb].
    unfold bind at 1. unfold lift at 1, getitem. rewrite labelled_around by assumption.
    cbn beta iota. rewrite get_loc_around by assumption.
    rewrite (split_row_columns_result df input (str "Demographic variable name")
               (str "Derived from") Demographic.split_row h pre post col
               Hd Hpre Hpost Hcol Hn1 Hn2 ltac:(discriminate)).
    rewrite (map_ext (fun c => Str (fst (Demographic.split_row c)))
                     (fun c => Str (fst (variable_annotation (cell_str c)))))
      by (intros c; now rewrite split_row_variable_annotation).
    rewrite (map_ext (fun c => Str (snd (Demographic.split_row c)))
                     (fun c => Str (snd (variable_annotation (cell_str c)))))
      by (intros c; now rewrite split_row_variable_annotation).
    reflexivity.
  - intros text. split.
    + intros main content Hp. split; [now apply parse_annotation_sound|]. split.
      * intros main' content' Ha.
        destruct (parse_annotation_complete _ _ _ Ha) as (m & c & Hp' & Hl).
        rewrite Hp in Hp'. injection Hp' as <- <-. exact Hl.
      * unfold variable_annotation. rewrite Hp.
        split; intros ->; reflexivity.
    + intros Hp. split.
      * unfold variable_annotation. now rewrite Hp.
      * intros main content Ha.
        destruct (parse_annotation_complete _ _ _ Ha) as (m & c & Hp' & _). congruence.
Qed.

Lemma split_demographic_variable_name_column_witness :
  split_demographic_variable_name_column 0 (str "Demographic variable name")
    [[ (str "Demographic variable code", [Str (str "A1"); Str (str "A2")]);
       (str "Demographic variable name",
        [Str (str "Age (derived from: DOB)"); Str (str "Age (years)")]) ]]
  = (Ok 1,
     [ [ (str "Demographic variable code", [Str (str "A1"); Str (str "A2")]);
         (str "Demographic variable name",
          [Str (str "Age (derived from: DOB)"); Str (str "Age (years)")]) ];
       [ (str "Demographic variable code", [Str (str "A1"); Str (str "A2")]);
         (str "Demographic variable name", [Str (str "Age"); Str (str "Age (years)")]);
         (str "Derived from", [Str (str "DOB"); Str []]) ] ]).
Proof.
  destruct (split_demographic_variable_name_column_annotations 0
              (str "Demographic variable name")
              [[ (str "Demographic variable code", [Str (str "A1"); Str (str "A2")]);
                 (str "Demographic variable name",
                  [Str (str "Age (derived from: DOB)"); Str (str "Age (years)")]) ]]
              [ (str "Demographic variable code", [Str (str "A1"); Str (str "A2")]);
                (str "Demographic variable name",
                 [Str (str "Age (derived from: DOB)"); Str (str "Age (years)")]) ]
              eq_refl) as [H _].
  - repeat constructor; cbn; intuition discriminate.
  - cbn. intuition.
  - discriminate.
  - cbn. intuition discriminate.
  - cbn. intuition discriminate.
  - rewrite H. vm_compute. reflexivity.
Defined.

(** ** Repeated labels in [unpivot_dataframe] *)

(** X22.  [unpivot_dataframe] raises, and allocates nothing, on a table that
    has no [Value] column and has one of the identifier labels on more than
    one column. *)
Theorem unpivot_dataframe_repeated_identifier (df : loc) (h : heap)
    (d : DataFrame) (i : pystr) :
  h !! df = Some d ->
  mem_str (str "Value") (columns d) = false ->
  In i identifier_columns ->
  1 < length (labelled i d) ->
  exists e, unpivot_dataframe df h = (Raise e, h).
Proof.
  intros Hd Hvalue Hi Hrep.
  unfold unpivot_dataframe, bind, load, lift. cbn beta iota.
  rewrite Hd. cbn [default from_option]. unfold id. fold (keep_columns d).
  unfold melt. fold (columns d). rewrite Hvalue.
  assert (Hex : existsb (fun i => 1 <? length (labelled i d)) (keep_columns d) = true).
  { apply existsb_exists. exists i. split; [|now apply Nat.ltb_lt].
    unfold keep_columns. apply filter_In. split; [exact Hi|].
    destruct (mem_str i (columns d)) eqn:E; [reflexivity|].
    rewrite labelled_absent in Hrep; [cbn in Hrep; lia|].
    intros Hin. apply mem_str_In in Hin. congruence. }
  rewrite Hex. eexists. reflexivity.
Qed.

Lemma unpivot_dataframe_repeated_identifier_witness :
  exists e,
    unpivot_dataframe 0
      [[ (str "Response", [Str (str "Yes")]); (str "Response", [Str (str "No")]);
         (str "M1", [Str (str "1")]) ]]
    = (Raise e,
       [[ (str "Response", [Str (str "Yes")]); (str "Response", [Str (str "No")]);
          (str "M1", [Str (str "1")]) ]]).
Proof.
  apply (unpivot_dataframe_repeated_identifier 0
           [[ (str "Response", [Str (str "Yes")]); (str "Response", [Str (str "No")]);
              (str "M1", [Str (str "1")]) ]]
           [ (str "Response", [Str (str "Yes")]); (str "Response", [Str (str "No")]);
             (str "M1", [Str (str "1")]) ]
           (str "Response")).
  - reflexivity.
  - reflexivity.
  - cbn. auto.
  - cbn. lia.
Defined.

(** X23.  A measure label that the table has on two columns gives one group
    of rows for each of the two columns, not two. *)
Lemma unpivot_dataframe_repeated_measure :
  unpivot_dataframe 0
    [[ (str "Response", [Str (str "Yes")]);
       (str "M1", [Str (str "1")]); (str "M2", [Str (str "2")]);
       (str "M1", [Str (str "3")]) ]]
  = (Ok 1,
     [ [ (str "Response", [Str (str "Yes")]);
         (str "M1", [Str (str "1")]); (str "M2", [Str (str "2")]);
         (str "M1", [Str (str "3")]) ];
       [ (str "Response", [Str (str "Yes"); Str (str "Yes"); Str (str "Yes")]);
         (str "Measure", [Str (str "M1"); Str (str "M1"); Str (str "M2")]);
         (str "Value", [Str (str "1"); Str (str "3"); Str (str "2")]) ] ]).
Proof. vm_compute. reflexivity. Qed.
